(** * WordPress WXR to PDF: a Rocq model of [wxr-to-pdf.py]

    The development follows the three stages of the script:
    the export parser ([parse_wxr]), the content normaliser
    ([replace_shortcode_captions], [replace_urls], [convert_to_paragraphs],
    [preprocess_comments]) and the document assembler ([create_pdf]).

    Python strings are modelled by [string]; a character is an [ascii],
    that is a code point below 256.  A Python value that may be [None]
    is an [option].  Exceptions are results of an error monad that also
    collects the lines written by [print]. *)

From Stdlib Require Import String Ascii List Bool Arith ZArith Lia DecimalString
Sorted Permutation.
Import ListNotations.
Open Scope string_scope.

(** ** Characters and string helpers *)

Definition nl : ascii := "010"%char.
Definition dq : ascii := "034"%char.
Definition NL : string := String nl EmptyString.
Definition DQ : string := String dq EmptyString.

(** [str.isspace] on code points below 256. *)
Definition is_space (c : ascii) : bool :=
  let n := nat_of_ascii c in
  (Nat.leb 9 n && Nat.leb n 13) || (Nat.leb 28 n && Nat.leb n 32)
  || Nat.eqb n 133 || Nat.eqb n 160.

Fixpoint lstrip (s : string) : string :=
  match s with
  | EmptyString => EmptyString
  | String c s' => if is_space c then lstrip s' else s
  end.

Fixpoint rstrip (s : string) : string :=
  match s with
  | EmptyString => EmptyString
  | String c s' =>
      match rstrip s' with
      | EmptyString => if is_space c then EmptyString else String c EmptyString
      | r => String c r
      end
  end.

(** [s.strip()] *)
Definition strip (s : string) : string := rstrip (lstrip s).

(** [lit p s] removes the literal [p] from the front of [s]. *)
Fixpoint lit (p s : string) : option string :=
  match p with
  | EmptyString => Some s
  | String c p' =>
      match s with
      | EmptyString => None
      | String d s' => if Ascii.eqb c d then lit p' s' else None
      end
  end.

(** [s.startswith(p)] *)
Definition starts_with (p s : string) : bool :=
  match lit p s with
  | Some _ => true
  | None => false
  end.

(** [needle in s], also [re.search] of a literal. *)
Fixpoint contains (needle s : string) : bool :=
  starts_with needle s ||
  match s with
  | EmptyString => false
  | String _ s' => contains needle s'
  end.

(** [sep.join(l)] *)
Fixpoint join (sep : string) (l : list string) : string :=
  match l with
  | [] => EmptyString
  | [x] => x
  | x :: l' => x ++ sep ++ join sep l'
  end.

(** [str(n)] for a non-negative integer. *)
Definition str_of_nat (n : nat) : string :=
  NilEmpty.string_of_uint (Nat.to_uint n).

(** [str(x)] and the rendering of [{x}] in an f-string, for a value that
    is a string or [None]. *)
Definition py_str (x : option string) : string :=
  match x with
  | Some s => s
  | None => "None"
  end.

(** ** A small backtracking matcher for the regular expressions used

    A matcher takes the text at the current position and returns what
    is left after the match.  [lit] above matches a literal; [lazy_any k] is
    [(.*?)] under [re.DOTALL] followed by the continuation [k]: the
    shortest group is tried first and one more character is consumed
    each time the continuation fails. *)

Fixpoint lazy_any {R : Type} (k : string -> option R) (s : string)
  : option (string * R) :=
  match k s with
  | Some r => Some (EmptyString, r)
  | None =>
      match s with
      | EmptyString => None
      | String c s' =>
          match lazy_any k s' with
          | Some (g, r) => Some (String c g, r)
          | None => None
          end
      end
  end.

(** [re.sub]: scan from the left; where the pattern matches, emit the
    replacement and go on after the match, otherwise copy one character.
    A step returns the replacement and the rest of the text.  No pattern
    of the script matches the empty string, so the rest is always
    shorter and [length s + 1] rounds are enough. *)
Fixpoint sub_loop (fuel : nat) (step : string -> option (string * string))
  (s : string) : string :=
  match fuel with
  | O => s
  | S fuel' =>
      match step s with
      | Some (r, rest) => r ++ sub_loop fuel' step rest
      | None =>
          match s with
          | EmptyString => EmptyString
          | String c s' => String c (sub_loop fuel' step s')
          end
      end
  end.

Definition re_sub (step : string -> option (string * string)) (s : string)
  : string :=
  sub_loop (S (String.length s)) step s.

(** A step consumes when what it leaves is shorter than what it got. *)
Definition consuming (step : string -> option (string * string)) : Prop :=
  forall s r rest, step s = Some (r, rest) ->
                   String.length rest < String.length s.

(** [re.search]: does the pattern match at some position. *)
Fixpoint re_search {R : Type} (m : string -> option R) (s : string)
  : option R :=
  match m s with
  | Some r => Some r
  | None =>
      match s with
      | EmptyString => None
      | String _ s' => re_search m s'
      end
  end.

(** ** Content normaliser *)

(** *** [replace_shortcode_captions] *)

Definition caption_open : string := "[caption id=" ++ DQ.
Definition caption_align : string := DQ ++ " align=" ++ DQ.
Definition caption_width : string := DQ ++ " width=" ++ DQ.
Definition caption_bracket : string := DQ ++ "]".
Definition caption_close : string := "[/caption]".

(** The groups of one match of [pattern]. *)
Record CaptionMatch := {
  cm_id : string;
  cm_align : string;
  cm_width : string;
  cm_inner : string
}.

(** [match.group(0)] *)
Definition cm_group0 (m : CaptionMatch) : string :=
  caption_open ++ cm_id m ++ caption_align ++ cm_align m ++ caption_width
  ++ cm_width m ++ caption_bracket ++ cm_inner m ++ caption_close.

(** [pattern]:
    [\[caption id="(.*?)" align="(.*?)" width="(.*?)"\](.*?)\[\/caption\]]
    at the current position. *)
Definition match_caption (s : string) : option (CaptionMatch * string) :=
  match lit caption_open s with
  | None => None
  | Some s1 =>
    match
      lazy_any (fun s2 =>
        match lit caption_align s2 with
        | None => None
        | Some s3 =>
          lazy_any (fun s4 =>
            match lit caption_width s4 with
            | None => None
            | Some s5 =>
              lazy_any (fun s6 =>
                match lit caption_bracket s6 with
                | None => None
                | Some s7 => lazy_any (lit caption_close) s7
                end) s5
            end) s3
        end) s1
    with
    | Some (id, (al, (w, (inner, rest)))) =>
        Some ({| cm_id := id; cm_align := al; cm_width := w;
                 cm_inner := inner |}, rest)
    | None => None
    end
  end.

(** [$] without [re.MULTILINE]: the end of the text, or just before a
    newline that ends it. *)
Definition at_end (s : string) : option unit :=
  if String.eqb s EmptyString || String.eqb s NL then Some tt else None.

(** [inner_pattern.match]: [(<img.*?\/>)(.*?)$], anchored at the start. *)
Definition match_inner (s : string) : option (string * string) :=
  match lit "<img" s with
  | None => None
  | Some s1 =>
    match
      lazy_any (fun s2 =>
        match lit "/>" s2 with
        | None => None
        | Some s3 => lazy_any at_end s3
        end) s1
    with
    | Some (g, (caption, _)) => Some ("<img" ++ g ++ "/>", caption)
    | None => None
    end
  end.

Definition replace_caption (m : CaptionMatch) : string :=
  match match_inner (strip (cm_inner m)) with
  | Some (g1, g2) =>
      let img_tag := strip g1 in
      let caption_text := strip g2 in
      "<figure id=" ++ DQ ++ cm_id m ++ DQ ++ " class=" ++ DQ ++ cm_align m
      ++ DQ ++ " style=" ++ DQ ++ "width:" ++ cm_width m ++ "px" ++ DQ ++ ">"
      ++ NL
      ++ "  " ++ img_tag ++ NL
      ++ "  <figcaption>" ++ caption_text ++ "</figcaption>" ++ NL
      ++ "</figure>" ++ NL
  | None => cm_group0 m
  end.

Definition caption_step (s : string) : option (string * string) :=
  match match_caption s with
  | Some (m, rest) => Some (replace_caption m, rest)
  | None => None
  end.

Definition replace_shortcode_captions (content : string) : string :=
  re_sub caption_step content.

(** *** [convert_to_paragraphs] *)

(** [text.split('\n\n')] *)
Fixpoint split_blank (s : string) : list string :=
  match s with
  | EmptyString => [EmptyString]
  | String c s' =>
      match s' with
      | String c' s'' =>
          if Ascii.eqb c nl && Ascii.eqb c' nl
          then EmptyString :: split_blank s''
          else match split_blank s' with
               | b :: bs => String c b :: bs
               | [] => [String c EmptyString]
               end
      | EmptyString => [String c EmptyString]
      end
  end.

Definition convert_to_paragraphs (text : string) : string :=
  let paragraphs := split_blank text in
  let paragraphs := map (fun paragraph => "<p>" ++ strip paragraph ++ "</p>")
                        paragraphs in
  join NL paragraphs.

(** ** Exceptions and printed lines

    A computation returns a value or raises, and in both cases leaves
    the lines it has printed so far. *)

Inductive exn : Type :=
| AttributeError
| TypeError
| ValueError
| OverflowError
| UnknownTimeZoneError.

Inductive Res (A : Type) : Type :=
| Ok (a : A)
| Raise (e : exn).
Arguments Ok {A} a.
Arguments Raise {A} e.

Definition M (A : Type) : Type := Res A * list string.

Definition ret {A : Type} (a : A) : M A := (Ok a, []).
Definition raise {A : Type} (e : exn) : M A := (Raise e, []).
Definition print (line : string) : M unit := (Ok tt, [line]).

Definition bind {A B : Type} (m : M A) (f : A -> M B) : M B :=
  match m with
  | (Ok a, out) => let (r, out') := f a in (r, (out ++ out')%list)
  | (Raise e, out) => (Raise e, out)
  end.

Notation "x <- c ;; k" := (bind c (fun x => k))
  (at level 61, c at next level, right associativity).
Notation "c ;;; k" := (bind c (fun _ => k))
  (at level 61, right associativity).

(** [for x in l: st = body x st] *)
Fixpoint for_each {A S : Type} (body : A -> S -> M S) (l : list A) (st : S)
  : M S :=
  match l with
  | [] => ret st
  | x :: l' => st' <- body x st ;; for_each body l' st'
  end.

(** *** [replace_urls] *)

Definition uploads : string := "wp-content/uploads/".

(** [{escaped_url}/?wp-content/uploads/] at the current position: the
    optional slash is tried first, then the pattern without it. *)
Definition match_upload (url s : string) : option string :=
  match lit url s with
  | None => None
  | Some s1 =>
      match
        match lit "/" s1 with
        | Some s2 => lit uploads s2
        | None => None
        end
      with
      | Some rest => Some rest
      | None => lit uploads s1
      end
  end.

Definition url_step (url s : string) : option (string * string) :=
  match match_upload url s with
  | Some rest => Some ("./content/", rest)
  | None => None
  end.

(** The class [[A-Za-z0-9/-]]. *)
Definition is_url_char (c : ascii) : bool :=
  let n := nat_of_ascii c in
  (Nat.leb 65 n && Nat.leb n 90) || (Nat.leb 97 n && Nat.leb n 122)
  || (Nat.leb 48 n && Nat.leb n 57) || Nat.eqb n 47 || Nat.eqb n 45.

Fixpoint take_url_chars (s : string) : string :=
  match s with
  | EmptyString => EmptyString
  | String c s' => if is_url_char c then String c (take_url_chars s')
                   else EmptyString
  end.

(** [{escaped_url}/?[A-Za-z0-9/-]*] at the current position; the result
    is [match.group()]. *)
Definition match_site_url (url s : string) : option string :=
  match lit url s with
  | None => None
  | Some s1 =>
      match lit "/" s1 with
      | Some s2 => Some (url ++ "/" ++ take_url_chars s2)
      | None => Some (url ++ take_url_chars s1)
      end
  end.

Definition replace_urls (content url : string) : M string :=
  let modified_content := re_sub (url_step url) content in
  match re_search (match_site_url url) modified_content with
  | Some g => print ("Found URL: " ++ g) ;;; ret modified_content
  | None => ret modified_content
  end.

(** *** [preprocess_content]

    [content] is [None] when the item has an empty [content:encoded]
    element, and [pattern.sub] then raises [TypeError]; [url] is [None]
    when [base_blog_url] is empty, and [re.escape] then raises
    [TypeError]. *)
Definition preprocess_content (content url : option string) : M string :=
  match content with
  | None => raise TypeError
  | Some content =>
      let content := replace_shortcode_captions content in
      match url with
      | None => raise TypeError
      | Some url =>
          content <- replace_urls content url ;;
          ret (convert_to_paragraphs content)
      end
  end.

(** *** [preprocess_comments] *)

(** [comment_data] *)
Record Comment := {
  c_author : option string;
  c_content : option string;
  c_date : string
}.

(** ["<[^<]+?>"] at the current position. *)
Fixpoint lazy_not_lt (s : string) : option string :=
  match s with
  | EmptyString => None
  | String c s' =>
      if Ascii.eqb c ">"%char then Some s'
      else if Ascii.eqb c "<"%char then None
      else lazy_not_lt s'
  end.

Definition match_tag (s : string) : option string :=
  match s with
  | String c (String c1 s') =>
      if Ascii.eqb c "<"%char && negb (Ascii.eqb c1 "<"%char)
      then lazy_not_lt s'
      else None
  | _ => None
  end.

Definition tag_step (s : string) : option (string * string) :=
  match match_tag s with
  | Some rest => Some (EmptyString, rest)
  | None => None
  end.

(** [re.sub("<[^<]+?>", "", s)] *)
Definition strip_tags (s : string) : string := re_sub tag_step s.

(** One round of the loop body: what is appended for one comment. *)
Definition render_comment (comment : Comment) : string :=
  if contains "liked this on Facebook." (py_str (c_content comment))
  then "<div class=" ++ DQ ++ "comment" ++ DQ ++ "><p><strong>"
       ++ py_str (c_author comment)
       ++ "</strong> give this a <strong>LIKE</strong> on Facebook!</p></div>"
  else ("<div class=" ++ DQ ++ "comment" ++ DQ ++ "><p><strong>"
        ++ py_str (c_author comment) ++ "</strong> on " ++ c_date comment
        ++ ":</p>")
       ++ ("<p>" ++ strip_tags (py_str (c_content comment)) ++ "</p></div>").

Definition preprocess_comments (comments : list Comment) : string :=
  let html_comments :=
    "<h3>Comments (" ++ str_of_nat (List.length comments) ++ ")</h3>" in
  if negb (Nat.eqb (List.length comments) 0)
  then fold_left (fun html comment => html ++ render_comment comment)
                 comments html_comments
  else EmptyString.


(** ** XML elements ([xml.etree.ElementTree])

    An element has a tag (with its namespace in braces), a text that is
    [None] when the element is empty, and children in document order. *)

#[warnings="-register-all"]
Inductive Element : Type :=
| Elem (tag : string) (text : option string) (children : list Element).

Definition tag (e : Element) : string :=
  match e with Elem t _ _ => t end.
Definition text (e : Element) : option string :=
  match e with Elem _ x _ => x end.
Definition children (e : Element) : list Element :=
  match e with Elem _ _ cs => cs end.

(** All elements below [e], in document order; [e] itself is not one. *)
Fixpoint descendants (e : Element) : list Element :=
  match e with
  | Elem _ _ cs =>
      (fix below (l : list Element) : list Element :=
         match l with
         | [] => []
         | c :: l' => (c :: descendants c) ++ below l'
         end)%list cs
  end.

Definition has_tag (name : string) (e : Element) : bool :=
  String.eqb (tag e) name.

(** [e.find('name')]: the first child with that tag. *)
Definition find_child (name : string) (e : Element) : option Element :=
  List.find (has_tag name) (children e).

(** [e.find('.//name')]: the first element below [e] with that tag. *)
Definition find_desc (name : string) (e : Element) : option Element :=
  List.find (has_tag name) (descendants e).

(** [e.findall('.//name')] *)
Definition findall_desc (name : string) (e : Element) : list Element :=
  List.filter (has_tag name) (descendants e).

Definition wp (name : string) : string :=
  "{http://wordpress.org/export/1.2/}" ++ name.
Definition dc (name : string) : string :=
  "{http://purl.org/dc/elements/1.1/}" ++ name.
Definition content_ns (name : string) : string :=
  "{http://purl.org/rss/1.0/modules/content/}" ++ name.

(** [x.text] where [x] is the result of a [find]: [AttributeError] on
    [None]. *)
Definition text_of (x : option Element) : Res (option string) :=
  match x with
  | Some e => Ok (text e)
  | None => Raise AttributeError
  end.

Definition lift {A : Type} (r : Res A) : M A := (r, []).

(** ** Dates ([datetime], [pytz])

    A [datetime] holds its civil fields and, when it is aware, its offset
    from UTC in seconds.  What the script asks of the two libraries is
    gathered in [DateLib]; the parser is written, and its properties are
    proved, for every such library. *)

Record datetime : Type := {
  year : Z; month : Z; day : Z;
  hour : Z; minute : Z; second : Z;
  utcoffset : option Z
}.

Record DateLib : Type := {
  tzinfo : Type;
  (** [datetime.strptime(text, format)]; [None] stands for [ValueError] *)
  strptime : string -> string -> option datetime;
  (** [pytz.timezone(name)]; [None] stands for [UnknownTimeZoneError] *)
  timezone : string -> option tzinfo;
  (** [d.astimezone(zone)]; it raises, with [OverflowError] or
      [ValueError], when the converted date would leave the years 1 to
      9999 *)
  astimezone : datetime -> tzinfo -> Res datetime;
  (** [d.strftime(format)] *)
  strftime : datetime -> string -> string;
  (** [d1 < d2] *)
  dt_ltb : datetime -> datetime -> bool
}.

Definition pub_date_format : string := "%a, %d %b %Y %H:%M:%S %z".
Definition comment_date_format : string := "%Y-%m-%d %H:%M:%S".
Definition long_date_format : string := "%A, %B %-d, %Y @ %-I:%M %p".
Definition short_date_format : string := "%B %-d, %Y".
Definition comment_zone : string := "America/Los_Angeles".

(** ** Export parser *)

(** The value of [pub_date] in [post_data]: [None] when the item has no
    [pubDate] element, the element itself when its text is the words
    [Unknown Date], and the converted date otherwise. *)
Inductive PubDate : Type :=
| PdNone
| PdElement (e : Element)
| PdDatetime (d : datetime).

(** [post_data] *)
Record Post : Type := {
  p_title : option string;
  p_author : option string;
  p_pub_date : PubDate;
  p_content : option string;
  p_type : string;
  p_comments : list Comment
}.

(** What [parse_wxr] returns. *)
Record Export : Type := {
  blog_title : option string;
  blog_description : option string;
  date_range : string;
  posts : list Post;
  pages : list Post;
  url : option string
}.

(** The three lists the item loop fills. *)
Record Lists : Type := {
  l_posts : list Post;
  l_pages : list Post;
  l_dates : list datetime
}.

Definition opt_eqb (x : option string) (s : string) : bool :=
  match x with
  | Some t => String.eqb t s
  | None => false
  end.

(** [author_map]: the entry set last is found first. *)
Definition Dict : Type := list (option string * option string).

Fixpoint dict_get (d : Dict) (k : option string) (default : option string)
  : option string :=
  match d with
  | [] => default
  | (k', v) :: d' =>
      if match k, k' with
         | Some a, Some b => String.eqb a b
         | None, None => true
         | _, _ => false
         end
      then v else dict_get d' k default
  end.

Definition dict_set (d : Dict) (k v : option string) : Dict := (k, v) :: d.

Section Parser.

Variable lib : DateLib.

(** [datetime.strptime(text, format)]: [TypeError] when the text is
    [None], [ValueError] when it does not match. *)
Definition py_strptime (t : option string) (format : string) : Res datetime :=
  match t with
  | None => Raise TypeError
  | Some s =>
      match strptime lib s format with
      | Some d => Ok d
      | None => Raise ValueError
      end
  end.

Definition py_timezone (name : string) : Res (tzinfo lib) :=
  match timezone lib name with
  | Some z => Ok z
  | None => Raise UnknownTimeZoneError
  end.

(** [min(dates)] and [max(dates)] of a list with first element [d]. *)
Definition py_min (d : datetime) (ds : list datetime) : datetime :=
  fold_left (fun best x => if dt_ltb lib x best then x else best) ds d.
Definition py_max (d : datetime) (ds : list datetime) : datetime :=
  fold_left (fun best x => if dt_ltb lib best x then x else best) ds d.

(** The body of the loop over the authors. *)
Definition author_body (author : Element) (author_map : Dict) : M Dict :=
  author_login <- lift (text_of (find_child (wp "author_login") author)) ;;
  author_display_name <-
    lift (text_of (find_child (wp "author_display_name") author)) ;;
  ret (dict_set author_map author_login author_display_name).

(** The body of the loop over the comments of an item. *)
Definition comment_body (comment : Element) (comments : list Comment)
  : M (list Comment) :=
  comment_author <-
    lift (text_of (find_desc (wp "comment_author") comment)) ;;
  comment_content <-
    lift (text_of (find_desc (wp "comment_content") comment)) ;;
  comment_date <-
    lift (text_of (find_desc (wp "comment_date") comment)) ;;
  comment_approved <-
    lift (text_of (find_desc (wp "comment_approved") comment)) ;;
  comment_date <- lift (py_strptime comment_date comment_date_format) ;;
  zone <- lift (py_timezone comment_zone) ;;
  comment_date <- lift (astimezone lib comment_date zone) ;;
  let comment_date := strftime lib comment_date long_date_format in
  (* Only add approved comments *)
  if opt_eqb comment_approved "1"
  then ret (comments ++ [{| c_author := comment_author;
                            c_content := comment_content;
                            c_date := comment_date |}])%list
  else ret comments.

(** The loop over the comments of an item, from the empty list. *)
Definition item_comments (item : Element) : M (list Comment) :=
  for_each comment_body (findall_desc (wp "comment") item) [].

(** The publication date of an item and the list of dates after it. *)
Definition item_pub_date (tz : string) (item : Element)
  (dates : list datetime) : M (PubDate * list datetime) :=
  match find_child "pubDate" item with
  | None => ret (PdNone, dates)
  | Some pub_date =>
      if opt_eqb (text pub_date) "Unknown Date"
      then ret (PdElement pub_date, dates)
      else
        d <- lift (py_strptime (text pub_date) pub_date_format) ;;
        zone <- lift (py_timezone tz) ;;
        d <- lift (astimezone lib d zone) ;;
        ret (PdDatetime d, (dates ++ [d])%list)
  end.

Definition item_title (item : Element) : option string :=
  match find_child "title" item with
  | Some title => text title
  | None => Some "No Title"
  end.

Definition skip_notice (item : Element) (status_text : option string)
  : string :=
  "Unpublished item skipped: Title = " ++ py_str (item_title item)
  ++ ", Status = " ++ py_str status_text.

(** The body of the loop over the items. *)
Definition item_body (author_map : Dict) (tz : string) (item : Element)
  (st : Lists) : M Lists :=
  match find_desc (wp "post_type") item, find_desc (wp "status") item with
  | Some post_type, Some status =>
      let post_type_text := text post_type in
      let status_text := text status in
      if negb (opt_eqb post_type_text "post" || opt_eqb post_type_text "page")
      then ret st
      else if negb (opt_eqb status_text "publish")
      then print (skip_notice item status_text) ;;; ret st
      else
        let title_text := item_title item in
        let author_text :=
          match find_desc (dc "creator") item with
          | Some author_login =>
              dict_get author_map (text author_login) (Some "Unknown Author")
          | None => Some "Unknown Author"
          end in
        pd <- item_pub_date tz item (l_dates st) ;;
        let content_text :=
          match find_desc (content_ns "encoded") item with
          | Some content => text content
          | None => Some EmptyString
          end in
        comments <- item_comments item ;;
        let post_data :=
          {| p_title := title_text;
             p_author := author_text;
             p_pub_date := fst pd;
             p_content := content_text;
             p_type := py_str post_type_text;
             p_comments := comments |} in
        if opt_eqb post_type_text "post"
        then ret {| l_posts := (l_posts st ++ [post_data])%list;
                    l_pages := l_pages st;
                    l_dates := snd pd |}
        else ret {| l_posts := l_posts st;
                    l_pages := (l_pages st ++ [post_data])%list;
                    l_dates := snd pd |}
  | _, _ => ret st
  end.

Definition format_date_range (dates : list datetime) : string :=
  match dates with
  | d :: ds =>
      strftime lib (py_min d ds) short_date_format ++ " - "
      ++ strftime lib (py_max d ds) short_date_format
  | [] => "N/A"
  end.

(** [parse_wxr], from the root of the parsed file. *)
Definition parse_wxr (root : Element) (tz : string) : M Export :=
  match find_child "channel" root with
  | None => raise AttributeError
  | Some channel =>
      let blog_title :=
        match find_child "title" channel with
        | Some t => text t
        | None => Some "No Title"
        end in
      let blog_description :=
        match find_child "description" channel with
        | Some t => text t
        | None => Some EmptyString
        end in
      url <- lift (text_of (find_desc (wp "base_blog_url") channel)) ;;
      author_map <- for_each author_body (findall_desc (wp "author") root) [] ;;
      st <- for_each (item_body author_map tz) (findall_desc "item" root)
              {| l_posts := []; l_pages := []; l_dates := [] |} ;;
      ret {| blog_title := blog_title;
             blog_description := blog_description;
             date_range := format_date_range (l_dates st);
             posts := l_posts st;
             pages := l_pages st;
             url := url |}
  end.

End Parser.

(** ** Document assembler ([fpdf])

    Of the document under construction the model keeps the current page,
    the vertical position on it, the number of links handed out, the
    table of contents list and the cells drawn so far, each with the page
    it landed on.  Page geometry and the space an HTML fragment takes are
    parameters. *)

Record Layout : Type := {
  page_height : Z;
  t_margin : Z;
  (** [write_html] at a page and a position: page breaks made, new position *)
  html_layout : string -> nat -> Z -> nat * Z
}.

(** [(title, page_number, link)] *)
Record TocEntry : Type := {
  toc_title : option string;
  toc_page : nat;
  toc_link : nat
}.

Record Cell : Type := {
  cell_page : nat;
  cell_text : option string;
  cell_link : option nat
}.

Record PDF : Type := {
  page : nat;
  y : Z;
  links : nat;
  toc : list TocEntry;
  cells : list Cell
}.

Section Assembler.

Variable lib : DateLib.
Variable lay : Layout.

(** [set_auto_page_break(auto=True, margin=15)] *)
Definition page_break_trigger : Z := page_height lay - 15.

(** [header]: nothing on the first four pages, one line of height 10
    on the others. *)
Definition header (pdf : PDF) : PDF :=
  if Nat.ltb (page pdf) 5 then pdf
  else {| page := page pdf; y := y pdf + 10; links := links pdf;
          toc := toc pdf; cells := cells pdf |}.

Definition add_page (pdf : PDF) : PDF :=
  header {| page := S (page pdf); y := t_margin lay; links := links pdf;
            toc := toc pdf; cells := cells pdf |}.

Definition page_no (pdf : PDF) : nat := page pdf.

Definition add_link (pdf : PDF) : nat * PDF :=
  (S (links pdf),
   {| page := page pdf; y := y pdf; links := S (links pdf);
      toc := toc pdf; cells := cells pdf |}).

Definition add_toc_entry (pdf : PDF) (title : option string)
  (page_number link : nat) : PDF :=
  {| page := page pdf; y := y pdf; links := links pdf;
     toc := (toc pdf ++ [{| toc_title := title; toc_page := page_number;
                            toc_link := link |}])%list;
     cells := cells pdf |}.

(** [cell(0, h, text, link=link)]: a page break first when the cell
    does not fit above the trigger; [next] says whether the position
    moves below the cell ([new_y=YPos.NEXT]). *)
Definition cell (pdf : PDF) (h : Z) (txt : option string)
  (link : option nat) (next : bool) : PDF :=
  let pdf := if Z.ltb page_break_trigger (y pdf + h) then add_page pdf
             else pdf in
  {| page := page pdf;
     y := if next then y pdf + h else y pdf;
     links := links pdf; toc := toc pdf;
     cells := (cells pdf ++ [{| cell_page := page pdf; cell_text := txt;
                                cell_link := link |}])%list |}.

Definition ln (pdf : PDF) (h : Z) : PDF :=
  {| page := page pdf; y := y pdf + h; links := links pdf;
     toc := toc pdf; cells := cells pdf |}.

Definition write_html (pdf : PDF) (html : string) : PDF :=
  let (breaks, y') := html_layout lay html (page pdf) (y pdf) in
  {| page := breaks + page pdf; y := y'; links := links pdf;
     toc := toc pdf; cells := cells pdf |}.

(** [insert_toc_placeholder(..., pages=n)]: [n] page breaks. *)
Definition insert_toc_placeholder (pdf : PDF) (pages : nat) : PDF :=
  Nat.iter pages add_page pdf.

Definition add_title_page (pdf : PDF) (title description : option string)
  (date_range : string) (url : option string) : PDF :=
  let pdf := add_page pdf in
  let pdf := ln pdf 100 in
  let pdf := cell pdf 10 title None false in
  let pdf := ln pdf 20 in
  let pdf := cell pdf 10 description None false in
  let pdf := ln pdf 20 in
  let pdf := cell pdf 10 (Some date_range) None false in
  let pdf := ln pdf 20 in
  let pdf := cell pdf 10 (Some ("An archive of " ++ py_str url)) None false in
  ln pdf 20.

(** [pub_date.strftime(...)]: only a date has the method. *)
Definition pub_date_strftime (pub_date : PubDate) (format : string)
  : Res string :=
  match pub_date with
  | PdDatetime d => Ok (strftime lib d format)
  | PdElement _ => Raise AttributeError
  | PdNone => Raise AttributeError
  end.

(** The body of the loop of [add_content]. *)
Definition content_body (url : option string) (item_type : string)
  (item : Post) (pdf : PDF) : M PDF :=
  let title := p_title item in
  let author := p_author item in
  let pub_date := p_pub_date item in
  content <- preprocess_content (p_content item) url ;;
  let comments_html := preprocess_comments (p_comments item) in
  let full_content := content ++ comments_html in
  let pdf := add_page pdf in
  let page_number := page_no pdf in
  let (link, pdf) := add_link pdf in
  let pdf :=
    if String.eqb item_type "page"
    then add_toc_entry pdf (Some ("Page: " ++ py_str title)) page_number link
    else add_toc_entry pdf title page_number link in
  let pdf := cell pdf 10 title (Some link) true in
  date <- lift (pub_date_strftime pub_date long_date_format) ;;
  let pdf := cell pdf 10 (Some ("By " ++ py_str author ++ " on " ++ date))
               None true in
  let pdf := ln pdf 5 in
  let pdf := write_html pdf full_content in
  ret (ln pdf 10).

Definition add_content (url : option string) (items : list Post)
  (item_type : string) (pdf : PDF) : M PDF :=
  for_each (content_body url item_type) items pdf.

(** [create_pdf], up to the call of [pdf.output] that writes the file. *)
Definition create_pdf (blog_title blog_description : option string)
  (date_range : string) (posts pages : list Post) (url : option string)
  : M PDF :=
  let pdf := {| page := 0; y := 0; links := 0; toc := []; cells := [] |} in
  (* Add title page *)
  let pdf := add_title_page pdf blog_title blog_description date_range url in
  (* Insert ToC placeholder *)
  let pdf := add_page pdf in
  let pdf := insert_toc_placeholder pdf 3 in
  (* Add posts first *)
  pdf <- add_content url posts "post" pdf ;;
  let pdf := add_page pdf in
  let pdf := ln pdf 100 in
  let pdf := cell pdf 10 (Some "Pages") None true in
  let pdf :=
    cell pdf 10
      (Some "These are pages (separate from blog posts) on the site.")
      None false in
  (* Add pages at the end *)
  add_content url pages "page" pdf.

End Assembler.

(** ** A reference date library

    For closed examples only: the two input formats in their usual
    spelling and the two output formats of the script, a few zones each
    at one fixed offset from UTC (no daylight saving time), and UTC as the
    local zone of a date without one.  The statements about the parser
    hold for every [DateLib] and do not depend on it. *)

Module RefLib.

Local Open Scope Z_scope.

Definition digit (c : ascii) : option Z :=
  let n := nat_of_ascii c in
  if (Nat.leb 48 n && Nat.leb n 57)%nat then Some (Z.of_nat (n - 48)%nat)
  else None.

(** One digit, or two when a second one follows. *)
Definition number (s : string) : option (Z * string) :=
  match s with
  | String a s1 =>
      match digit a with
      | None => None
      | Some x =>
          match s1 with
          | String b s2 =>
              match digit b with
              | Some x' => Some (10 * x + x', s2)
              | None => Some (x, s1)
              end
          | EmptyString => Some (x, s1)
          end
      end
  | EmptyString => None
  end.

(** Exactly four digits. *)
Definition number4 (s : string) : option (Z * string) :=
  match s with
  | String a (String b (String c (String d r))) =>
      match digit a, digit b, digit c, digit d with
      | Some x1, Some x2, Some x3, Some x4 =>
          Some (1000 * x1 + 100 * x2 + 10 * x3 + x4, r)
      | _, _, _, _ => None
      end
  | _ => None
  end.

Definition lower (c : ascii) : ascii :=
  let n := nat_of_ascii c in
  if (Nat.leb 65 n && Nat.leb n 90)%nat then ascii_of_nat (n + 32)%nat
  else c.

Fixpoint lit_ci (p s : string) : option string :=
  match p with
  | EmptyString => Some s
  | String c p' =>
      match s with
      | EmptyString => None
      | String d s' =>
          if Ascii.eqb (lower c) (lower d) then lit_ci p' s' else None
      end
  end.

(** The first name of the list the text starts with, counted from 1. *)
Fixpoint name_of (names : list string) (i : Z) (s : string)
  : option (Z * string) :=
  match names with
  | [] => None
  | n :: names' =>
      match lit_ci n s with
      | Some r => Some (i, r)
      | None => name_of names' (i + 1) s
      end
  end.

(** One or more white space characters. *)
Definition spaces (s : string) : option string :=
  match s with
  | String c s' => if is_space c then Some (lstrip s') else None
  | EmptyString => None
  end.

Definition weekdays : list string :=
  ["Monday"; "Tuesday"; "Wednesday"; "Thursday"; "Friday"; "Saturday";
   "Sunday"].
Definition months : list string :=
  ["January"; "February"; "March"; "April"; "May"; "June"; "July";
   "August"; "September"; "October"; "November"; "December"].
Definition abbr (s : string) : string := substring 0%nat 3%nat s.

Definition leap (y : Z) : bool :=
  (Z.eqb (y mod 4) 0 && negb (Z.eqb (y mod 100) 0)) || Z.eqb (y mod 400) 0.

Definition days_in_month (y m : Z) : Z :=
  if Z.eqb m 2 then (if leap y then 29 else 28)
  else if Z.eqb m 4 || Z.eqb m 6 || Z.eqb m 9 || Z.eqb m 11 then 30
  else 31.

Definition valid (d : datetime) : bool :=
  Z.leb 1 (year d) && Z.leb 1 (month d) && Z.leb (month d) 12
  && Z.leb 1 (day d) && Z.leb (day d) (days_in_month (year d) (month d))
  && Z.leb (hour d) 23 && Z.leb (minute d) 59 && Z.leb (second d) 59.

Definition obind {A B : Type} (x : option A) (f : A -> option B) : option B :=
  match x with
  | Some a => f a
  | None => None
  end.

Notation "' p <~ c ;; k" := (obind c (fun p => k))
  (at level 61, p pattern, c at next level, right associativity).

(** [%z]: a sign, two digits of hours, two of minutes with an optional
    colon between; or the letter Z. *)
Definition offset (s : string) : option (Z * string) :=
  match s with
  | String c r =>
      if Ascii.eqb c "Z"%char then Some (0, r)
      else
        let sign := if Ascii.eqb c "+"%char then Some 1
                    else if Ascii.eqb c "-"%char then Some (-1) else None in
        ' sg <~ sign ;;
        match r with
        | String a (String b r1) =>
            ' h1 <~ digit a ;; ' h2 <~ digit b ;;
            let r2 := match lit ":" r1 with Some x => x | None => r1 end in
            match r2 with
            | String e (String f r3) =>
                ' m1 <~ digit e ;; ' m2 <~ digit f ;;
                if Z.leb m1 5
                then Some (sg * ((10 * h1 + h2) * 3600 + (10 * m1 + m2) * 60),
                           r3)
                else None
            | _ => None
            end
        | _ => None
        end
  | EmptyString => None
  end.

Definition finish (d : datetime) (r : string) : option datetime :=
  if String.eqb r EmptyString && valid d then Some d else None.

(** [%H:%M:%S] *)
Definition clock (s : string) : option (Z * Z * Z * string) :=
  ' (h, r) <~ number s ;; ' r <~ lit ":" r ;;
  ' (mi, r) <~ number r ;; ' r <~ lit ":" r ;;
  ' (se, r) <~ number r ;;
  Some (h, mi, se, r).

(** [%a, %d %b %Y %H:%M:%S %z] *)
Definition strptime_pub (s : string) : option datetime :=
  ' (_, r) <~ name_of (map abbr weekdays) 1 s ;;
  ' r <~ lit "," r ;; ' r <~ spaces r ;;
  ' (d, r) <~ number r ;; ' r <~ spaces r ;;
  ' (mo, r) <~ name_of (map abbr months) 1 r ;; ' r <~ spaces r ;;
  ' (yr, r) <~ number4 r ;; ' r <~ spaces r ;;
  ' (h, mi, se, r) <~ clock r ;; ' r <~ spaces r ;;
  ' (off, r) <~ offset r ;;
  finish {| year := yr; month := mo; day := d; hour := h; minute := mi;
            second := se; utcoffset := Some off |} r.

(** [%Y-%m-%d %H:%M:%S] *)
Definition strptime_comment (s : string) : option datetime :=
  ' (yr, r) <~ number4 s ;; ' r <~ lit "-" r ;;
  ' (mo, r) <~ number r ;; ' r <~ lit "-" r ;;
  ' (d, r) <~ number r ;; ' r <~ spaces r ;;
  ' (h, mi, se, r) <~ clock r ;;
  finish {| year := yr; month := mo; day := d; hour := h; minute := mi;
            second := se; utcoffset := None |} r.

Definition strptime (s format : string) : option datetime :=
  if String.eqb format pub_date_format then strptime_pub s
  else if String.eqb format comment_date_format then strptime_comment s
  else None.

(** Days since 1970-01-01 of a civil date, and back. *)
Definition days_from_civil (y m d : Z) : Z :=
  let y := if Z.leb m 2 then y - 1 else y in
  let era := y / 400 in
  let yoe := y - era * 400 in
  let doy := (153 * (if Z.ltb 2 m then m - 3 else m + 9) + 2) / 5 + d - 1 in
  let doe := yoe * 365 + yoe / 4 - yoe / 100 + doy in
  era * 146097 + doe - 719468.

Definition civil_from_days (z : Z) : Z * Z * Z :=
  let z := z + 719468 in
  let era := z / 146097 in
  let doe := z - era * 146097 in
  let yoe := (doe - doe / 1460 + doe / 36524 - doe / 146096) / 365 in
  let doy := doe - (365 * yoe + yoe / 4 - yoe / 100) in
  let mp := (5 * doy + 2) / 153 in
  let d := doy - (153 * mp + 2) / 5 + 1 in
  let m := if Z.ltb mp 10 then mp + 3 else mp - 9 in
  (yoe + era * 400 + (if Z.leb m 2 then 1 else 0), m, d).

(** Seconds since the epoch; a date without a zone is read as UTC. *)
Definition timestamp (d : datetime) : Z :=
  days_from_civil (year d) (month d) (day d) * 86400
  + hour d * 3600 + minute d * 60 + second d
  - match utcoffset d with Some o => o | None => 0 end.

(** The date in the zone; a result outside the years 1 to 9999 is
    refused. *)
Definition astimezone (d : datetime) (zone : Z) : Res datetime :=
  let t := timestamp d + zone in
  let '(yr, mo, dy) := civil_from_days (t / 86400) in
  let s := t mod 86400 in
  if Z.leb 1 yr && Z.leb yr 9999
  then Ok {| year := yr; month := mo; day := dy; hour := s / 3600;
             minute := (s mod 3600) / 60; second := s mod 60;
             utcoffset := Some zone |}
  else Raise (match utcoffset d with
              | Some _ => OverflowError
              | None => ValueError
              end).

Definition str_of_Z (z : Z) : string := str_of_nat (Z.to_nat z).
Definition two_digits (z : Z) : string :=
  if Z.ltb z 10 then "0" ++ str_of_Z z else str_of_Z z.

Definition directive (d : datetime) (c : ascii) : string :=
  if Ascii.eqb c "A"%char
  then nth (Z.to_nat ((days_from_civil (year d) (month d) (day d) + 3) mod 7))
           weekdays EmptyString
  else if Ascii.eqb c "B"%char
  then nth (Z.to_nat (month d - 1)) months EmptyString
  else if Ascii.eqb c "d"%char then str_of_Z (day d)
  else if Ascii.eqb c "Y"%char then str_of_Z (year d)
  else if Ascii.eqb c "I"%char
  then str_of_Z (if Z.eqb (hour d mod 12) 0 then 12 else hour d mod 12)
  else if Ascii.eqb c "M"%char then two_digits (minute d)
  else if Ascii.eqb c "p"%char then (if Z.ltb (hour d) 12 then "AM" else "PM")
  else String "%" (String c EmptyString).

(** The directives of the two output formats; [%-d] and [%-I] are the
    numbers without padding. *)
Fixpoint strftime (d : datetime) (format : string) : string :=
  match format with
  | String c r =>
      if Ascii.eqb c "%"%char then
        match r with
        | String c1 r1 =>
            if Ascii.eqb c1 "-"%char then
              match r1 with
              | String c2 r2 => directive d c2 ++ strftime d r2
              | EmptyString => "%-"
              end
            else directive d c1 ++ strftime d r1
        | EmptyString => "%"
        end
      else String c (strftime d r)
  | EmptyString => EmptyString
  end.

Definition timezone (name : string) : option Z :=
  if String.eqb name "UTC" then Some 0
  else if String.eqb name "Etc/GMT+8" then Some (-28800)
  else if String.eqb name "America/Los_Angeles" then Some (-28800)
  else if String.eqb name "Asia/Tokyo" then Some 32400
  else None.

Definition dt_ltb (a b : datetime) : bool :=
  Z.ltb (timestamp a) (timestamp b).

End RefLib.

Definition ref_lib : DateLib :=
  {| tzinfo := Z;
     strptime := RefLib.strptime;
     timezone := RefLib.timezone;
     astimezone := RefLib.astimezone;
     strftime := RefLib.strftime;
     dt_ltb := RefLib.dt_ltb |}.

(** A4 in millimetres, with a rough measure of HTML: eighty characters
    to a line of height 10. *)
Definition a4_layout : Layout :=
  {| page_height := 297;
     t_margin := 10;
     html_layout := fun html _ y =>
       let lines := (Z.of_nat (String.length html) / 80 + 1)%Z in
       let total := (y - 10 + 10 * lines)%Z in
       (Z.to_nat (total / 272), (10 + total mod 272)%Z) |}.
(** ** Example inputs *)

(** The text of a caption shortcode, for examples. *)
Definition shortcode (id align width inner : string) : string :=
  cm_group0 {| cm_id := id; cm_align := align; cm_width := width;
               cm_inner := inner |}.

(** A shortcode whose caption text opens a second shortcode. *)
Definition nested_caption : string :=
  shortcode "a" "left" "10"
    ("<img/>" ++ shortcode "b" "right" "20" "<img/>inner").

(** The site and the asset of the example. *)
Definition example_site : string := "https://example.com".
Definition example_prefix : string := example_site ++ "/" ++ uploads.
Definition example_asset : string := example_prefix ++ "2020/01/img.jpg".
Definition example_local : string := "./content/2020/01/img.jpg".

(** ** Vocabulary of the statements about the parser *)

(** The item has both elements the loop asks for and its type is one of
    the two the script handles. *)
Definition supported (item : Element) : bool :=
  match find_desc (wp "post_type") item, find_desc (wp "status") item with
  | Some post_type, Some _ =>
      opt_eqb (text post_type) "post" || opt_eqb (text post_type) "page"
  | _, _ => false
  end.

Definition item_status (item : Element) : option string :=
  match find_desc (wp "status") item with
  | Some status => text status
  | None => None
  end.

Definition item_type (item : Element) : option string :=
  match find_desc (wp "post_type") item with
  | Some post_type => text post_type
  | None => None
  end.

(** The item goes to the output. *)
Definition retained (item : Element) : bool :=
  supported item && opt_eqb (item_status item) "publish".

(** The item is of a handled type but not published. *)
Definition unpublished (item : Element) : bool :=
  supported item && negb (opt_eqb (item_status item) "publish").

(** The item goes to the list of posts ([kind] is [post]) or of pages. *)
Definition retained_as (kind : string) (item : Element) : bool :=
  retained item && opt_eqb (item_type item) kind.

(** The approval flag of a comment is the approved marker. *)
Definition approved (comment : Element) : bool :=
  match find_desc (wp "comment_approved") comment with
  | Some a => opt_eqb (text a) "1"
  | None => false
  end.

Definition found (x : option Element) : bool :=
  match x with
  | Some _ => true
  | None => false
  end.

(** The four fields of the comment are there and its date matches the
    format. *)
Definition comment_parses (lib : DateLib) (comment : Element) : bool :=
  found (find_desc (wp "comment_author") comment)
  && found (find_desc (wp "comment_content") comment)
  && found (find_desc (wp "comment_approved") comment)
  && match find_desc (wp "comment_date") comment with
     | Some d =>
         match text d with
         | Some s =>
             match strptime lib s comment_date_format with
             | Some _ => true
             | None => false
             end
         | None => false
         end
     | None => false
     end.

(** The date can be converted to the zone of that name: the zone is
    known and the converted date stays within the years the library can
    hold. *)
Definition converts (lib : DateLib) (zone_name : string) (d : datetime)
  : bool :=
  match timezone lib zone_name with
  | Some zone =>
      match astimezone lib d zone with
      | Ok _ => true
      | Raise _ => false
      end
  | None => false
  end.

(** The date of the comment, once read, can be converted to the zone of
    the comments. *)
Definition comment_converts (lib : DateLib) (comment : Element) : bool :=
  match find_desc (wp "comment_date") comment with
  | Some d =>
      match text d with
      | Some s =>
          match strptime lib s comment_date_format with
          | Some dt => converts lib comment_zone dt
          | None => false
          end
      | None => false
      end
  | None => false
  end.

(** The comment in the output that comes from a comment element. *)
Definition retains (lib : DateLib) (comment : Element) (c : Comment) : Prop :=
  text_of (find_desc (wp "comment_author") comment) = Ok (c_author c) /\
  text_of (find_desc (wp "comment_content") comment) = Ok (c_content c) /\
  exists date d zone d',
    text_of (find_desc (wp "comment_date") comment) = Ok date /\
    py_strptime lib date comment_date_format = Ok d /\
    timezone lib comment_zone = Some zone /\
    astimezone lib d zone = Ok d' /\
    c_date c = strftime lib d' long_date_format.

(** [post_data] as the loop body builds it, from the publication date
    and the comments it has computed. *)
Definition post_data_of (author_map : Dict) (item : Element)
  (pub_date : PubDate) (comments : list Comment) : Post :=
  {| p_title := item_title item;
     p_author :=
       match find_desc (dc "creator") item with
       | Some author_login =>
           dict_get author_map (text author_login) (Some "Unknown Author")
       | None => Some "Unknown Author"
       end;
     p_pub_date := pub_date;
     p_content :=
       match find_desc (content_ns "encoded") item with
       | Some content => text content
       | None => Some EmptyString
       end;
     p_type := py_str (item_type item);
     p_comments := comments |}.

(** The post in the output that comes from an item: its date and its
    comments are what the two inner computations return. *)
Definition built (lib : DateLib) (author_map : Dict) (tz : string)
  (item : Element) (post : Post) : Prop :=
  exists dates pd comments,
    item_pub_date lib tz item dates = (Ok pd, []) /\
    item_comments lib item = (Ok comments, []) /\
    post = post_data_of author_map item (fst pd) comments.

(** The item has no [pubDate] element. *)
Definition pub_date_absent (item : Element) : bool :=
  negb (found (find_child "pubDate" item)).

(** The item has a publication date that is the words [Unknown Date],
    or that matches the format and can be converted to the zone asked
    for. *)
Definition pub_date_parses (lib : DateLib) (tz : string) (item : Element)
  : bool :=
  match find_child "pubDate" item with
  | None => false
  | Some pub_date =>
      opt_eqb (text pub_date) "Unknown Date"
      || match text pub_date with
         | Some s =>
             match strptime lib s pub_date_format with
             | Some d => converts lib tz d
             | None => false
             end
         | None => false
         end
  end.



(** ** Example exports *)

Definition leaf (name txt : string) : Element := Elem name (Some txt) [].

Definition comment_xml (author content date approval : string) : Element :=
  Elem (wp "comment") None
    [leaf (wp "comment_author") author;
     leaf (wp "comment_content") content;
     leaf (wp "comment_date") date;
     leaf (wp "comment_approved") approval].

Definition item_xml (title type status : string) (pub_date : option string)
  (comments : list Element) : Element :=
  Elem "item" None
    ([leaf "title" title;
      leaf (dc "creator") "admin";
      leaf (content_ns "encoded") "Body";
      leaf (wp "post_type") type;
      leaf (wp "status") status]
     ++ match pub_date with
        | Some d => [leaf "pubDate" d]
        | None => []
        end
     ++ comments)%list.

Definition rss (items : list Element) : Element :=
  Elem "rss" None
    [Elem "channel" None
       ([leaf "title" "Blog";
         leaf "description" "A blog";
         leaf (wp "base_blog_url") "https://example.com";
         Elem (wp "author") None
           [leaf (wp "author_login") "admin";
            leaf (wp "author_display_name") "Alice"]]
        ++ items)%list].

(** A post without a publication date. *)
Definition undated_post : Element :=
  item_xml "Undated" "post" "publish" None [].


Definition dated_post : Element :=
  item_xml "Dated" "post" "publish" (Some "Fri, 01 Jan 2021 03:05:00 +0000")
    [comment_xml "Bob" "Nice" "2021-01-02 10:00:00" "1";
     comment_xml "Eve" "Spam" "2021-01-03 11:00:00" "0";
     comment_xml "Dan" "Held" "2021-01-04 12:00:00" "trash"].

Definition dated_page : Element :=
  item_xml "About" "page" "publish" (Some "Fri, 31 Dec 2021 23:00:00 +0000") [].

Definition draft_post : Element :=
  item_xml "Draft" "post" "draft" None [].

(** An item of a type the script does not handle. *)
Definition attachment : Element :=
  item_xml "Photo" "attachment" "inherit" None [].

(** A post with an unapproved comment whose date is not in the format. *)
Definition post_with_bad_comment : Element :=
  item_xml "Commented" "post" "publish"
    (Some "Fri, 01 Jan 2021 03:05:00 +0000")
    [comment_xml "Eve" "Spam" "01/03/2021" "0"].


Definition example_export : Element :=
  rss [dated_post; attachment; draft_post; dated_page; undated_post].

Definition no_export : Export :=
  {| blog_title := None; blog_description := None;
     date_range := EmptyString; posts := []; pages := []; url := None |}.

(** The value a run returns, when it returns one. *)
Definition value_of {A : Type} (default : A) (m : M A) : A :=
  match fst m with
  | Ok a => a
  | Raise _ => default
  end.

(** ** Vocabulary of the statements about the assembler *)

(** The cell carries a link: it is the heading of a section. *)
Definition linked (c : Cell) : bool :=
  match cell_link c with
  | Some _ => true
  | None => false
  end.

Definition headings (pdf : PDF) : list Cell := filter linked (cells pdf).

(** The title under which a section is registered. *)
Definition entry_title (item_type : string) (item : Post) : option string :=
  if String.eqb item_type "page"
  then Some ("Page: " ++ py_str (p_title item))
  else p_title item.

(** The step changes neither the table of contents nor the headings and
    does not go back a page. *)
Definition quiet (pdf pdf' : PDF) : Prop :=
  toc pdf' = toc pdf /\ headings pdf' = headings pdf /\
  links pdf' = links pdf /\ page pdf <= page pdf'.

(** The entries match the headings drawn, no entry is for a later page
    than the current one, and the pages of the entries do not decrease. *)
Definition toc_in_step (pdf : PDF) : Prop :=
  map (fun c => (cell_page c, cell_link c)) (headings pdf)
  = map (fun e => (toc_page e, Some (toc_link e))) (toc pdf) /\
  Forall (fun e => toc_page e <= page pdf) (toc pdf) /\
  StronglySorted le (map toc_page (toc pdf)).

Definition no_pdf : PDF :=
  {| page := 0; y := 0; links := 0; toc := []; cells := [] |}.

(** An export whose retained items all have a date, and its document. *)
Definition dated_export : Element :=
  rss [dated_post; attachment; draft_post; dated_page;
       item_xml "Second" "post" "publish"
         (Some "Sat, 06 Mar 2021 18:30:00 -0800") []].

Definition document_of (root : Element) (tz : string) : M PDF :=
  let r := value_of no_export (parse_wxr ref_lib root tz) in
  create_pdf ref_lib a4_layout (blog_title r) (blog_description r)
    (date_range r) (posts r) (pages r) (url r).


(** ** Table of contents rendering *)

(** ['.' * n] *)
Fixpoint dots (n : nat) : string :=
  match n with
  | O => EmptyString
  | S n' => String "." (dots n')
  end.

(** The text of one line: the title cut at 60 characters, dots up to
    column 70, the page number. *)
Definition toc_line (title : string) (page_number : nat) : string :=
  let toc_text := substring 0 60 title in
  toc_text ++ dots (70 - String.length toc_text) ++ str_of_nat page_number.

(** The body of the loop of [generate_toc]: the text and the link of the
    cell drawn.  A title that is [None] cannot be sliced. *)
Definition toc_body (e : TocEntry) (drawn : list (string * nat))
  : M (list (string * nat)) :=
  match toc_title e with
  | None => raise TypeError
  | Some title =>
      ret (drawn ++ [(toc_line title (toc_page e), toc_link e)])%list
  end.

(** [generate_toc]: the cells it draws, in order; fpdf places them on the
    pages reserved for the table.  Fonts are not part of the model. *)
Definition generate_toc (pdf : PDF) : M (list (string * nat)) :=
  for_each toc_body (toc pdf) [].

(** ** Further vocabulary *)

(** The character occurs in the string. *)
Fixpoint has_char (c : ascii) (s : string) : bool :=
  match s with
  | EmptyString => false
  | String d s' => Ascii.eqb c d || has_char c s'
  end.

(** Every character is of the class [[A-Za-z0-9/-]]. *)
Fixpoint all_url_chars (s : string) : bool :=
  match s with
  | EmptyString => true
  | String c s' => is_url_char c && all_url_chars s'
  end.

(** The text goes on with a character of the class. *)
Definition url_char_next (s : string) : bool :=
  match s with
  | String c _ => is_url_char c
  | EmptyString => false
  end.

(** What the residual-URL scan prints for a text: nothing when the site
    URL does not occur in it; otherwise one line, made of [Found URL: ],
    the URL at its first occurrence and the longest run of characters of
    the class behind it. *)
Definition residual_lines (url text : string) (lines : list string) : Prop :=
  ((forall p q : string, text <> p ++ url ++ q) /\ lines = []) \/
  (exists pre taken rest : string,
      text = pre ++ url ++ taken ++ rest /\
      (forall p q : string,
          text = p ++ url ++ q -> String.length pre <= String.length p) /\
      all_url_chars taken = true /\ url_char_next rest = false /\
      lines = ["Found URL: " ++ url ++ taken]).

(** The lines printed for a post or a page: those of the scan of its
    body, after the captions and the asset URLs have been rewritten. *)
Definition section_lines (url : option string) (item : Post)
  (lines : list string) : Prop :=
  exists u body : string,
    url = Some u /\ p_content item = Some body /\
    residual_lines u
      (re_sub (url_step u) (replace_shortcode_captions body)) lines.

(** The dates of the items that have one. *)
Definition date_list (d : PubDate) : list datetime :=
  match d with
  | PdDatetime x => [x]
  | _ => []
  end.

Definition dates_of (ps : list Post) : list datetime :=
  flat_map (fun p => date_list (p_pub_date p)) ps.

(** Equality of two keys of [author_map]. *)
Definition key_eqb (k k' : option string) : bool :=
  match k, k' with
  | Some a, Some b => String.eqb a b
  | None, None => true
  | _, _ => false
  end.

Definition author_login_of (author : Element) : option string :=
  match find_child (wp "author_login") author with
  | Some e => text e
  | None => None
  end.

Definition author_name_of (author : Element) : option string :=
  match find_child (wp "author_display_name") author with
  | Some e => text e
  | None => None
  end.

(** The name the parser gives to the author of an item: that of the last
    author record with the login of the item, if there is one. *)
Definition resolved_author (root item : Element) : option string :=
  match find_desc (dc "creator") item with
  | None => Some "Unknown Author"
  | Some creator =>
      match find (fun a => key_eqb (text creator) (author_login_of a))
                 (rev (findall_desc (wp "author") root)) with
      | Some a => author_name_of a
      | None => Some "Unknown Author"
      end
  end.

(** The step changes neither the table of contents nor the links and
    does not go back a page. *)
Definition keeps_toc (pdf pdf' : PDF) : Prop :=
  toc pdf' = toc pdf /\ links pdf' = links pdf /\ page pdf <= page pdf'.

(** The entries are on pages that increase, none later than the current
    one, and their links are numbered from 1 in order. *)
Definition toc_numbered (pdf : PDF) : Prop :=
  StronglySorted lt (map toc_page (toc pdf)) /\
  Forall (fun e => toc_page e <= page pdf) (toc pdf) /\
  map toc_link (toc pdf) = seq 1 (links pdf).

(** A post that the assembler can render: it has a date and a body. *)
Definition renderable (p : Post) : Prop :=
  (exists d, p_pub_date p = PdDatetime d) /\ p_content p <> None.

(** An export with two author records for one login and a post with an
    empty title. *)
Definition authors_export : Element :=
  Elem "rss" None
    [Elem "channel" None
       [leaf "title" "Blog";
        leaf (wp "base_blog_url") "https://example.com";
        Elem (wp "author") None
          [leaf (wp "author_login") "admin";
           leaf (wp "author_display_name") "Alice"];
        Elem (wp "author") None
          [leaf (wp "author_login") "admin";
           leaf (wp "author_display_name") "Alicia"];
        dated_post;
        Elem "item" None
          [Elem "title" None [];
           leaf (dc "creator") "ghost";
           leaf (content_ns "encoded")
             "See https://example.com/about and https://example.com/x";
           leaf (wp "post_type") "post";
           leaf (wp "status") "publish";
           leaf "pubDate" "Sat, 06 Mar 2021 18:30:00 -0800"];
        dated_page]].

(** ** Texts whose caption shortcodes are not nested *)

(** A text cut into pieces: single characters and complete shortcodes. *)
Inductive Piece : Type :=
| Chr (c : ascii)
| Code (id align width inner : string).

Definition piece_text (p : Piece) : string :=
  match p with
  | Chr c => String c EmptyString
  | Code id align width inner => shortcode id align width inner
  end.

Fixpoint pieces_text (ps : list Piece) : string :=
  match ps with
  | [] => EmptyString
  | p :: ps' => piece_text p ++ pieces_text ps'
  end.

(** The pieces of a text without shortcodes. *)
Fixpoint chars (s : string) : list Piece :=
  match s with
  | EmptyString => []
  | String c s' => Chr c :: chars s'
  end.

(** The value of an attribute holds no quote and no opening bracket. *)
Definition attribute_value (a : string) : bool :=
  negb (has_char dq a) && negb (has_char "[" a).

(** No shortcode is nested in another and none is left open: outside
    the shortcodes the opening text [caption_open] occurs nowhere, and
    the body of a shortcode holds neither the opening nor the closing
    text. *)
Fixpoint unnested (ps : list Piece) : bool :=
  match ps with
  | [] => true
  | Chr c :: ps' =>
      negb (starts_with caption_open (String c (pieces_text ps')))
      && unnested ps'
  | Code id align width inner :: ps' =>
      attribute_value id && attribute_value align && attribute_value width
      && negb (contains caption_open inner)
      && negb (contains caption_close inner)
      && unnested ps'
  end.

(** What the rewrite makes of a piece: a shortcode is handed to
    [replace_caption]. *)
Definition piece_out (p : Piece) : string :=
  match p with
  | Chr c => String c EmptyString
  | Code id align width inner =>
      replace_caption {| cm_id := id; cm_align := align; cm_width := width;
                         cm_inner := inner |}
  end.

Fixpoint pieces_out (ps : list Piece) : string :=
  match ps with
  | [] => EmptyString
  | p :: ps' => piece_out p ++ pieces_out ps'
  end.

(** The pieces of the rewritten text: a shortcode with an image has
    become the characters of its figure, one without is still there. *)
Definition rewritten (p : Piece) : list Piece :=
  match p with
  | Chr c => [Chr c]
  | Code id align width inner =>
      match match_inner (strip inner) with
      | Some _ => chars (piece_out p)
      | None => [p]
      end
  end.

(** The opening text of a shortcode starts at a character of [s], in
    [s] followed by [t]. *)
Fixpoint opens_in (s t : string) : bool :=
  match s with
  | EmptyString => false
  | String c s' =>
      starts_with caption_open (String c (s' ++ t)) || opens_in s' t
  end.
(** * Properties *)

(** ** Strings *)

Lemma append_assoc (a b c : string) : (a ++ b) ++ c = a ++ b ++ c.
Proof.
  induction a as [|x a IH]; simpl; [reflexivity|]. now rewrite IH.
Qed.

Lemma length_append (a b : string) :
  String.length (a ++ b) = String.length a + String.length b.
Proof.
  induction a as [|x a IH]; simpl; [reflexivity|]. now rewrite IH.
Qed.

Lemma lit_spec (p s r : string) : lit p s = Some r <-> s = p ++ r.
Proof.
  revert s; induction p as [|c p IH]; intros s; simpl.
  - split; intros H; [now inversion H | now subst].
  - destruct s as [|d s].
    + split; intros H; discriminate.
    + destruct (Ascii.eqb_spec c d) as [->|Hne].
      * rewrite IH. split; intros H; [now subst | now inversion H].
      * split; intros H; [discriminate | congruence].
Qed.

Lemma lit_append (p r : string) : lit p (p ++ r) = Some r.
Proof. now apply lit_spec. Qed.

(** Two ways of cutting the same string: one cut is before the other. *)
Lemma append_eq_append (a b c d : string) :
  a ++ b = c ++ d ->
  (exists e, c = a ++ e /\ b = e ++ d) \/ (exists e, a = c ++ e /\ d = e ++ b).
Proof.
  revert c; induction a as [|x a IH]; intros c H; simpl in H.
  - left. exists c. now split.
  - destruct c as [|y c]; simpl in H.
    + right. exists (String x a). now split.
    + inversion H; subst y.
      destruct (IH c H2) as [[e [-> ->]]|[e [-> ->]]].
      * left. now exists e.
      * right. now exists e.
Qed.

(** ** [re.sub] *)

Lemma sub_loop_fuel step (Hc : consuming step) :
  forall f1 f2 s, String.length s < f1 -> String.length s < f2 ->
                  sub_loop f1 step s = sub_loop f2 step s.
Proof.
  induction f1 as [|f1 IH]; intros f2 s H1 H2; [lia|].
  destruct f2 as [|f2]; [lia|]. simpl.
  destruct (step s) as [[r rest]|] eqn:E.
  - apply Hc in E. f_equal. apply IH; lia.
  - destruct s as [|c s]; [reflexivity|]. simpl in *. f_equal. apply IH; lia.
Qed.

Lemma re_sub_match step (Hc : consuming step) s r rest :
  step s = Some (r, rest) -> re_sub step s = r ++ re_sub step rest.
Proof.
  intros E. pose proof (Hc _ _ _ E) as Hlt. unfold re_sub.
  rewrite (sub_loop_fuel step Hc (S (String.length rest)) (String.length s))
    by lia.
  cbn [sub_loop]. now rewrite E.
Qed.

Lemma re_sub_skip step (Hc : consuming step) c s :
  step (String c s) = None ->
  re_sub step (String c s) = String c (re_sub step s).
Proof.
  intros E. unfold re_sub. cbn [String.length].
  change (sub_loop (S (S (String.length s))) step (String c s))
    with (match step (String c s) with
          | Some (r, rest) => r ++ sub_loop (S (String.length s)) step rest
          | None => String c (sub_loop (S (String.length s)) step s)
          end).
  now rewrite E.
Qed.

Lemma re_sub_empty step (Hc : consuming step) :
  re_sub step EmptyString = EmptyString.
Proof.
  unfold re_sub. cbn [sub_loop String.length].
  destruct (step EmptyString) as [[r rest]|] eqn:E.
  - apply Hc in E. simpl in E. lia.
  - reflexivity.
Qed.

(** Where the pattern matches nowhere, [re.sub] returns its input. *)
Lemma re_sub_no_match step (Hc : consuming step) s :
  re_search step s = None -> re_sub step s = s.
Proof.
  induction s as [|c s IH]; intros H.
  - now apply re_sub_empty.
  - simpl in H. destruct (step (String c s)) eqn:E; [discriminate|].
    rewrite re_sub_skip by assumption. now rewrite IH.
Qed.

(** ** Paragraphs and comments *)

Lemma split_blank_cons (s : string) :
  exists b bs, split_blank s = b :: bs.
Proof.
  destruct s as [|c [|c' s]]; [simpl; eauto | simpl; eauto |].
  change (split_blank (String c (String c' s)))
    with (if Ascii.eqb c nl && Ascii.eqb c' nl
          then EmptyString :: split_blank s
          else match split_blank (String c' s) with
               | b :: bs => String c b :: bs
               | [] => [String c EmptyString]
               end).
  destruct (Ascii.eqb c nl && Ascii.eqb c' nl); [eauto|].
  destruct (split_blank (String c' s)); eauto.
Qed.

(** C10: the blank-line split always yields at least one block, every
    block is wrapped in a paragraph tag pair, so the result of paragraph
    wrapping starts with a paragraph and is never empty; the empty body
    gives exactly one empty paragraph. *)
Theorem convert_to_paragraphs_never_empty :
  convert_to_paragraphs EmptyString = "<p></p>" /\
  forall text : string,
    split_blank text <> [] /\
    convert_to_paragraphs text =
      join NL (map (fun block => "<p>" ++ strip block ++ "</p>")
                   (split_blank text)) /\
    (exists b rest,
        convert_to_paragraphs text = "<p>" ++ strip b ++ "</p>" ++ rest) /\
    convert_to_paragraphs text <> EmptyString.
Proof.
  split; [reflexivity|]. intros text.
  unfold convert_to_paragraphs.
  destruct (split_blank_cons text) as [b [bs E]]. rewrite E.
  assert (Hex : exists rest,
             join NL (map (fun block => "<p>" ++ strip block ++ "</p>")
                          (b :: bs)) = "<p>" ++ strip b ++ "</p>" ++ rest).
  { destruct bs as [|b' bs].
    - exists EmptyString. reflexivity.
    - eexists. cbn [map join]. cbn [append].
      rewrite append_assoc. cbn [append]. reflexivity. }
  destruct Hex as [rest Hrest].
  repeat split.
  - discriminate.
  - exists b, rest. exact Hrest.
  - rewrite Hrest. discriminate.
Qed.

(** C3: no comments give the empty fragment, not a header with a zero.
    One comment gives the header with the count 1 followed by its
    rendering: a block with the author in bold, then either the remark
    that the author liked the post, when the body of the comment says so,
    or the date and, in a paragraph of its own, the body without its
    tags.  Two comments show the two renderings in full. *)
Theorem preprocess_comments_zero_and_one :
  preprocess_comments [] = EmptyString /\
  (forall comment : Comment,
      preprocess_comments [comment] =
        "<h3>Comments (1)</h3>"
        ++ "<div class=" ++ DQ ++ "comment" ++ DQ ++ "><p><strong>"
        ++ py_str (c_author comment)
        ++ (if contains "liked this on Facebook." (py_str (c_content comment))
            then "</strong> give this a <strong>LIKE</strong> on Facebook!</p>"
                 ++ "</div>"
            else "</strong> on " ++ c_date comment ++ ":</p>"
                 ++ "<p>" ++ strip_tags (py_str (c_content comment))
                 ++ "</p></div>")) /\
  preprocess_comments
    [{| c_author := Some "Bob";
        c_content := Some "Nice <b>post</b>, thanks!";
        c_date := "Saturday, January 2, 2021 @ 2:00 AM" |}]
  = "<h3>Comments (1)</h3>"
    ++ "<div class=" ++ DQ ++ "comment" ++ DQ ++ "><p><strong>Bob</strong>"
    ++ " on Saturday, January 2, 2021 @ 2:00 AM:</p>"
    ++ "<p>Nice post, thanks!</p></div>" /\
  preprocess_comments
    [{| c_author := Some "Eve";
        c_content := Some "Eve liked this on Facebook.";
        c_date := "Sunday, January 3, 2021 @ 3:00 AM" |}]
  = "<h3>Comments (1)</h3>"
    ++ "<div class=" ++ DQ ++ "comment" ++ DQ ++ "><p><strong>Eve</strong>"
    ++ " give this a <strong>LIKE</strong> on Facebook!</p></div>".
Proof.
  split; [reflexivity|]. split; [|split; vm_compute; reflexivity].
  intros comment. unfold preprocess_comments, render_comment.
  cbn [List.length Nat.eqb negb fold_left].
  change (str_of_nat 1) with "1".
  destruct (contains "liked this on Facebook." (py_str (c_content comment)));
    repeat rewrite append_assoc; reflexivity.
Qed.

(** ** Matchers *)

Lemma lazy_any_sound {R : Type} (k : string -> option R) s g r :
  lazy_any k s = Some (g, r) -> exists s', s = g ++ s' /\ k s' = Some r.
Proof.
  revert g; induction s as [|c s IH]; intros g H; simpl in H.
  - destruct (k EmptyString) eqn:E; [|discriminate].
    inversion H; subst. now exists EmptyString.
  - destruct (k (String c s)) eqn:E.
    + inversion H; subst. now exists (String c s).
    + destruct (lazy_any k s) as [[g' r']|] eqn:E'; [|discriminate].
      inversion H; subst. destruct (IH g' eq_refl) as [s' [-> Hk]].
      now exists s'.
Qed.

(** What [match_upload] accepts. *)
Lemma match_upload_spec url s rest :
  match_upload url s = Some rest <->
  s = url ++ "/" ++ uploads ++ rest \/ s = url ++ uploads ++ rest.
Proof.
  unfold match_upload. split.
  - destruct (lit url s) as [s1|] eqn:E1; [|discriminate].
    apply lit_spec in E1. subst s.
    destruct (lit "/" s1) as [s2|] eqn:E2.
    + apply lit_spec in E2. subst s1.
      destruct (lit uploads s2) as [r|] eqn:E3.
      * intros H; inversion H; subst. apply lit_spec in E3. subst. now left.
      * intros H. apply lit_spec in H. discriminate.
    + intros H. apply lit_spec in H. subst. now right.
  - intros [->| ->]; rewrite lit_append.
    + change ("/" ++ uploads ++ rest) with (String "/" (uploads ++ rest)).
      cbn [lit]. rewrite Ascii.eqb_refl. now rewrite lit_append.
    + change (lit "/" (uploads ++ rest)) with (@None string).
      now rewrite lit_append.
Qed.

Lemma url_step_consuming url : consuming (url_step url).
Proof.
  intros s r rest H. unfold url_step in H.
  destruct (match_upload url s) as [x|] eqn:E; [|discriminate].
  inversion H; subst. apply match_upload_spec in E.
  destruct E as [->| ->]; repeat rewrite length_append; simpl; lia.
Qed.

Lemma url_step_inv url s r rest :
  url_step url s = Some (r, rest) ->
  r = "./content/" /\ match_upload url s = Some rest.
Proof.
  unfold url_step. destruct (match_upload url s); [|discriminate].
  intros H; inversion H; now subst.
Qed.

(** A match of the caption pattern is [match.group(0)] followed by the
    rest of the text. *)
Lemma match_caption_sound s m rest :
  match_caption s = Some (m, rest) -> s = cm_group0 m ++ rest.
Proof.
  unfold match_caption.
  destruct (lit caption_open s) as [s1|] eqn:E1; [|discriminate].
  apply lit_spec in E1. subst s.
  match goal with |- context [lazy_any ?k s1] =>
    destruct (lazy_any k s1) as [[id [al [w [inner r]]]]|] eqn:E end;
    [|discriminate].
  intros H; inversion H; subst; clear H.
  apply lazy_any_sound in E. destruct E as [s2 [-> E]].
  destruct (lit caption_align s2) as [s3|] eqn:E3; [|discriminate].
  apply lit_spec in E3. subst s2.
  apply lazy_any_sound in E. destruct E as [s4 [-> E]].
  destruct (lit caption_width s4) as [s5|] eqn:E5; [|discriminate].
  apply lit_spec in E5. subst s4.
  apply lazy_any_sound in E. destruct E as [s6 [-> E]].
  destruct (lit caption_bracket s6) as [s7|] eqn:E7; [|discriminate].
  apply lit_spec in E7. subst s6.
  apply lazy_any_sound in E. destruct E as [s8 [-> E]].
  apply lit_spec in E. subst s8.
  unfold cm_group0. cbn [cm_id cm_align cm_width cm_inner].
  repeat rewrite append_assoc. reflexivity.
Qed.

Lemma lazy_not_lt_shorter s rest :
  lazy_not_lt s = Some rest -> String.length rest < String.length s.
Proof.
  induction s as [|c s IH]; cbn [lazy_not_lt]; [discriminate|].
  destruct (Ascii.eqb c ">"); [intros H; inversion H; subst; cbn; lia|].
  destruct (Ascii.eqb c "<"); [discriminate|].
  intros H. apply IH in H. cbn. lia.
Qed.

Lemma tag_step_consuming : consuming tag_step.
Proof.
  intros s r rest H. unfold tag_step, match_tag in H.
  destruct s as [|c [|c1 s]]; try discriminate.
  destruct (Ascii.eqb c "<" && negb (Ascii.eqb c1 "<")); [|discriminate].
  destruct (lazy_not_lt s) as [x|] eqn:E; [|discriminate].
  inversion H; subst. apply lazy_not_lt_shorter in E. cbn. lia.
Qed.

Lemma caption_step_consuming : consuming caption_step.
Proof.
  intros s r rest H. unfold caption_step in H.
  destruct (match_caption s) as [[m x]|] eqn:E; [|discriminate].
  inversion H; subst. apply match_caption_sound in E. subst s.
  unfold cm_group0. repeat rewrite length_append. simpl. lia.
Qed.

Lemma re_search_caption_step s :
  re_search match_caption s = None -> re_search caption_step s = None.
Proof.
  induction s as [|c s IH]; cbn [re_search]; unfold caption_step.
  - destruct (match_caption EmptyString) as [[m x]|]; [discriminate|auto].
  - destruct (match_caption (String c s)) as [[m x]|]; [discriminate|auto].
Qed.

(** ** Caption shortcodes *)


(** C5, as stated, fails: on a shortcode nested in the caption text of
    another the second application rewrites what the first one left. *)
Lemma captions_not_idempotent :
  replace_shortcode_captions (replace_shortcode_captions nested_caption)
  <> replace_shortcode_captions nested_caption.
Proof. vm_compute. discriminate. Qed.

(** ** URL localisation *)

Lemma contains_append_l (p a s : string) :
  contains p s = true -> contains p (a ++ s) = true.
Proof.
  intros H. induction a as [|c a IH]; [exact H|].
  cbn [append contains]. rewrite IH. apply orb_true_r.
Qed.

Lemma contains_starts_with (p s : string) : contains p (p ++ s) = true.
Proof.
  destruct p as [|c p]; destruct s as [|d s]; cbn [contains append];
    unfold starts_with;
    try (change (String c (p ++ ?x)) with (String c p ++ x));
    try rewrite lit_append; reflexivity.
Qed.

Lemma contains_char_split (x a b : string) (c : ascii) :
  x = a ++ String c b -> contains (String c EmptyString) x = true.
Proof.
  intros ->. apply contains_append_l.
  cbn [contains]. unfold starts_with. cbn [lit]. now rewrite Ascii.eqb_refl.
Qed.


Ltac url_walk H :=
  match type of H with
  | re_sub (url_step example_site) ?s = String _ _ =>
      let E := fresh "E" in
      let c := fresh "c" in
      let Hc := fresh "Hc" in
      destruct (url_step example_site s) as [[? ?]|] eqn:E;
      [ rewrite (re_sub_match _ (url_step_consuming example_site) _ _ _ E) in H;
        apply url_step_inv in E; destruct E as [-> _];
        cbn [append] in H; discriminate H
      | destruct s as [|c ?];
        [ rewrite (re_sub_empty _ (url_step_consuming example_site)) in H;
          discriminate H
        | rewrite (re_sub_skip _ (url_step_consuming example_site) _ _ E) in H;
          injection H as Hc H; subst c ] ]
  end.

(** The rewritten text never starts with the absolute prefix. *)
Lemma replaced_not_prefixed (s : string) :
  starts_with example_prefix (re_sub (url_step example_site) s) = false.
Proof.
  unfold starts_with.
  destruct (lit example_prefix (re_sub (url_step example_site) s))
    as [r|] eqn:H; [|reflexivity].
  exfalso. apply lit_spec in H.
  remember (url_step example_site) as st eqn:Hst.
  cbv [example_prefix example_site uploads append] in H. subst st.
  url_walk H. rename E into E0.
  repeat (url_walk H; clear E).
  cbv in E0. discriminate E0.
Qed.

(** The rewritten text holds the absolute prefix nowhere. *)
Lemma replaced_without_prefix (s : string) :
  contains example_prefix (re_sub (url_step example_site) s) = false.
Proof.
  remember (S (String.length s)) as n eqn:Hn.
  assert (Hlt : String.length s < n) by lia. clear Hn.
  revert s Hlt. induction n as [|n IH]; intros s Hlt; [lia|].
  pose proof (url_step_consuming example_site) as Hc.
  destruct (url_step example_site s) as [[r rest]|] eqn:E.
  - rewrite (re_sub_match _ Hc _ _ _ E).
    pose proof (Hc _ _ _ E) as Hrest.
    apply url_step_inv in E. destruct E as [-> _].
    assert (IHrest := IH rest ltac:(lia)).
    cbn. exact IHrest.
  - destruct s as [|c s].
    + rewrite (re_sub_empty _ Hc). reflexivity.
    + pose proof (replaced_not_prefixed (String c s)) as Hp.
      rewrite (re_sub_skip _ Hc _ _ E) in *.
      cbn [contains]. rewrite Hp. cbn [orb].
      apply IH. simpl in Hlt. lia.
Qed.

(** A match that starts before the asset ends before it: the letter h
    that opens the asset occurs nowhere else in the pattern. *)
Lemma match_before_asset (p0 : ascii) (pt pre post rest : string) (c : ascii) :
  contains "h" pt = false ->
  String c pre ++ example_asset ++ post = String p0 pt ++ rest ->
  exists e, String.length e < String.length (String c pre)
            /\ rest = e ++ example_asset ++ post.
Proof.
  intros Hh E. apply append_eq_append in E.
  destruct E as [[e [Hp Hrest]]|[e [Hp Hrest]]].
  - destruct e as [|h e].
    + exists EmptyString. split; [cbn; lia|]. cbn [append] in *. congruence.
    + exfalso. cbn in Hrest. injection Hrest as Hc _. subst h.
      cbn [append] in Hp. injection Hp as _ Hp.
      apply contains_char_split in Hp. congruence.
  - exists e. split; [|exact Hrest].
    rewrite Hp, length_append. cbn. lia.
Qed.

(** Every copy of the asset URL in the body comes out localised. *)
Lemma asset_localised (pre post : string) :
  contains example_local
    (re_sub (url_step example_site) (pre ++ example_asset ++ post)) = true.
Proof.
  remember (S (String.length pre)) as n eqn:Hn.
  assert (Hlt : String.length pre < n) by lia. clear Hn.
  revert pre Hlt. induction n as [|n IH]; intros pre Hlt; [lia|].
  pose proof (url_step_consuming example_site) as Hc.
  destruct pre as [|c pre].
  - (* the scan is at the asset *)
    cbn [append].
    assert (E : url_step example_site (example_asset ++ post)
                = Some ("./content/", "2020/01/img.jpg" ++ post))
      by reflexivity.
    rewrite (re_sub_match _ Hc _ _ _ E).
    cbn [append].
    repeat (rewrite (re_sub_skip _ Hc) by reflexivity).
    change (contains example_local
              (example_local ++ re_sub (url_step example_site) post) = true).
    apply contains_starts_with.
  - destruct (url_step example_site (String c pre ++ example_asset ++ post))
      as [[r rest]|] eqn:E.
    + rewrite (re_sub_match _ Hc _ _ _ E).
      apply contains_append_l.
      apply url_step_inv in E. destruct E as [_ E].
      apply match_upload_spec in E.
      assert (Hcut : exists e, String.length e < String.length (String c pre)
                               /\ rest = e ++ example_asset ++ post).
      { destruct E as [E|E].
        - apply (match_before_asset "h" "ttps://example.com/wp-content/uploads/"
                   pre post rest c); [reflexivity|exact E].
        - apply (match_before_asset "h" "ttps://example.comwp-content/uploads/"
                   pre post rest c); [reflexivity|exact E]. }
      destruct Hcut as [e [Hlen ->]].
      apply IH. simpl in Hlt. simpl in Hlen. lia.
    + change (String c pre ++ example_asset ++ post)
        with (String c (pre ++ example_asset ++ post)) in *.
      rewrite (re_sub_skip _ Hc _ _ E). cbn [contains].
      rewrite IH by (simpl in Hlt; lia). apply orb_true_r.
Qed.

(** C4: a match of the site URL, an optional slash and
    [wp-content/uploads/] is replaced by [./content/] and the scan goes on
    behind it; the value returned is the substituted text whether or not
    the residual-URL scan prints its line; and for the site
    [https://example.com] a body that holds the asset URL comes out with
    [./content/2020/01/img.jpg] in it and without the absolute prefix. *)
Theorem replace_urls_localises :
  (forall url rest : string,
      re_sub (url_step url) (url ++ "/" ++ uploads ++ rest)
      = "./content/" ++ re_sub (url_step url) rest /\
      re_sub (url_step url) (url ++ uploads ++ rest)
      = "./content/" ++ re_sub (url_step url) rest) /\
  (forall content url : string,
      fst (replace_urls content url) = Ok (re_sub (url_step url) content)) /\
  (forall pre post : string,
      exists out,
        fst (replace_urls (pre ++ example_asset ++ post) example_site) = Ok out
        /\ contains example_local out = true
        /\ contains example_prefix out = false).
Proof.
  assert (Hfst : forall content url,
             fst (replace_urls content url)
             = Ok (re_sub (url_step url) content)).
  { intros content url. unfold replace_urls.
    destruct (re_search (match_site_url url) (re_sub (url_step url) content));
      reflexivity. }
  split; [|split].
  - intros url rest. split.
    + apply re_sub_match; [apply url_step_consuming|].
      unfold url_step.
      assert (E : match_upload url (url ++ "/" ++ uploads ++ rest) = Some rest)
        by (apply match_upload_spec; now left).
      now rewrite E.
    + apply re_sub_match; [apply url_step_consuming|].
      unfold url_step.
      assert (E : match_upload url (url ++ uploads ++ rest) = Some rest)
        by (apply match_upload_spec; now right).
      now rewrite E.
  - exact Hfst.
  - intros pre post. eexists. split; [apply Hfst|]. split.
    + apply asset_localised.
    + apply replaced_without_prefix.
Qed.

(** ** The monad *)

Lemma bind_ok_inv {A B : Type} (m : M A) (f : A -> M B) b out :
  bind m f = (Ok b, out) ->
  exists a o1 o2, m = (Ok a, o1) /\ f a = (Ok b, o2) /\ out = (o1 ++ o2)%list.
Proof.
  unfold bind. destruct m as [[a|e] o1]; [|discriminate].
  destruct (f a) as [r o2] eqn:E. intros H. inversion H; subst.
  now exists a, o1, o2.
Qed.

Lemma bind_lift {A B : Type} (r : Res A) (f : A -> M B) :
  bind (lift r) f = match r with
                    | Ok a => f a
                    | Raise e => (Raise e, [])
                    end.
Proof.
  unfold bind, lift. destruct r as [a|e]; [|reflexivity].
  now destruct (f a).
Qed.

Lemma bind_ret {A B : Type} (a : A) (f : A -> M B) :
  bind (Ok a, []) f = f a.
Proof. unfold bind. now destruct (f a). Qed.

Lemma bind_silent {A B : Type} (m : M A) (f : A -> M B) :
  snd m = [] -> (forall a, snd (f a) = []) -> snd (bind m f) = [].
Proof.
  intros Hm Hf. unfold bind. destruct m as [[a|e] o]; simpl in Hm; subst.
  - specialize (Hf a). now destruct (f a).
  - reflexivity.
Qed.

Lemma for_each_silent {A S : Type} (body : A -> S -> M S) l :
  (forall x st, snd (body x st) = []) ->
  forall st, snd (for_each body l st) = [].
Proof.
  intros Hb. induction l as [|x l IH]; intros st; [reflexivity|].
  cbn [for_each]. apply bind_silent; auto.
Qed.

(** A loop raises as soon as one of its rounds raises whatever the state. *)
Lemma for_each_raise {A S : Type} (body : A -> S -> M S) l x :
  In x l ->
  (forall st, exists e o, body x st = (Raise e, o)) ->
  forall st, exists e o, for_each body l st = (Raise e, o).
Proof.
  intros Hin Hx. induction l as [|a l IH]; [contradiction|].
  intros st. cbn [for_each]. destruct Hin as [->|Hin].
  - destruct (Hx st) as [e [o E]]. rewrite E. cbn. eauto.
  - destruct (body a st) as [[st'|e] o] eqn:E; cbn; [|eauto].
    destruct (IH Hin st') as [e [o' E']]. rewrite E'. eauto.
Qed.

(** ** Comments *)

(** Run the next [lift]ed call of a monadic body. *)
Ltac mstep := cbn [text_of]; rewrite ?bind_lift.

Section ParserFacts.

Variable lib : DateLib.

Lemma comment_body_silent c acc : snd (comment_body lib c acc) = [].
Proof.
  unfold comment_body.
  repeat (apply bind_silent; [reflexivity|intros ?]).
  now destruct (opt_eqb _ _).
Qed.

Lemma item_comments_silent item : snd (item_comments lib item) = [].
Proof. apply for_each_silent. intros. apply comment_body_silent. Qed.

Lemma item_pub_date_silent tz item dates :
  snd (item_pub_date lib tz item dates) = [].
Proof.
  unfold item_pub_date. destruct (find_child "pubDate" item); [|reflexivity].
  destruct (opt_eqb _ _); [reflexivity|].
  repeat (apply bind_silent; [reflexivity|intros ?]). reflexivity.
Qed.

(** One round of the comment loop that returns: the comment is added
    when it is approved and left out when it is not. *)
Lemma comment_body_ok c acc acc' o :
  comment_body lib c acc = (Ok acc', o) ->
  (approved c = true /\ exists cd, acc' = (acc ++ [cd])%list /\ retains lib c cd)
  \/ (approved c = false /\ acc' = acc).
Proof.
  unfold comment_body, approved, retains. mstep.
  destruct (find_desc (wp "comment_author") c) as [a|]; mstep; [|discriminate].
  destruct (find_desc (wp "comment_content") c) as [b|]; mstep; [|discriminate].
  destruct (find_desc (wp "comment_date") c) as [d|]; mstep; [|discriminate].
  destruct (find_desc (wp "comment_approved") c) as [p|]; mstep;
    [|discriminate].
  destruct (py_strptime lib (text d) comment_date_format) as [dt|] eqn:Ed;
    mstep; [|discriminate].
  unfold py_timezone.
  destruct (timezone lib comment_zone) as [z|] eqn:Ez; mstep; [|discriminate].
  destruct (astimezone lib dt z) as [dt'|] eqn:Ea; mstep; [|discriminate].
  destruct (opt_eqb (text p) "1"); intros H; inversion H; subst.
  - left. split; [reflexivity|]. eexists. split; [reflexivity|].
    cbn. repeat split. exists (text d), dt, z, dt'. auto.
  - right. auto.
Qed.

(** A comment that does not parse makes its round raise, approved or
    not. *)
Lemma comment_body_raises c acc :
  comment_parses lib c = false ->
  exists e o, comment_body lib c acc = (Raise e, o).
Proof.
  unfold comment_body, comment_parses. mstep.
  destruct (find_desc (wp "comment_author") c) as [a|]; mstep; [|eauto].
  destruct (find_desc (wp "comment_content") c) as [b|]; mstep; [|eauto].
  destruct (find_desc (wp "comment_date") c) as [d|]; mstep; [|eauto].
  destruct (find_desc (wp "comment_approved") c) as [p|]; mstep; [|eauto].
  cbn [found andb]. unfold py_strptime.
  destruct (text d) as [s|]; mstep; [|eauto].
  destruct (strptime lib s comment_date_format); mstep; [discriminate|eauto].
Qed.


Lemma comment_loop_ok cs : forall acc acc' o,
  for_each (comment_body lib) cs acc = (Ok acc', o) ->
  exists news, acc' = (acc ++ news)%list
               /\ Forall2 (retains lib) (filter approved cs) news.
Proof.
  induction cs as [|c cs IH]; intros acc acc' o H.
  - inversion H; subst. exists []. now rewrite app_nil_r.
  - cbn [for_each] in H. apply bind_ok_inv in H.
    destruct H as [a [o1 [o2 [Hc [Hl _]]]]].
    apply IH in Hl. destruct Hl as [news [-> Hnews]].
    cbn [filter].
    apply comment_body_ok in Hc.
    destruct Hc as [[Ha [cd [-> Hcd]]]|[Ha ->]]; rewrite Ha.
    + exists (cd :: news). rewrite <- app_assoc. split; [reflexivity|].
      now constructor.
    + now exists news.
Qed.


End ParserFacts.

(** ** Items *)

Section ItemFacts.

Variable lib : DateLib.
Variable author_map : Dict.
Variable tz : string.

Lemma post_not_page x : opt_eqb x "post" = true -> opt_eqb x "page" = false.
Proof.
  destruct x as [s|]; [|discriminate]. cbn. intros H.
  apply String.eqb_eq in H. now subst.
Qed.

(** An item that is not of a handled type leaves no trace. *)
Lemma item_body_ignored item st :
  supported item = false -> item_body lib author_map tz item st = ret st.
Proof.
  unfold item_body, supported.
  destruct (find_desc (wp "post_type") item) as [pt|]; [|reflexivity].
  destruct (find_desc (wp "status") item) as [s|]; [|reflexivity].
  now intros ->.
Qed.

(** An item of a handled type that is not published leaves its notice. *)
Lemma item_body_unpublished item st :
  unpublished item = true ->
  item_body lib author_map tz item st
  = (Ok st, [skip_notice item (item_status item)]).
Proof.
  unfold item_body, unpublished, supported, item_status.
  destruct (find_desc (wp "post_type") item) as [pt|]; [|discriminate].
  destruct (find_desc (wp "status") item) as [s|]; [|discriminate].
  intros H. apply andb_true_iff in H. destruct H as [-> ->]. reflexivity.
Qed.

(** A retained item: its date, its comments, then one of the lists. *)
Lemma item_body_retained item st :
  retained item = true ->
  item_body lib author_map tz item st
  = (pd <- item_pub_date lib tz item (l_dates st) ;;
     comments <- item_comments lib item ;;
     let post := post_data_of author_map item (fst pd) comments in
     if opt_eqb (item_type item) "post"
     then ret {| l_posts := (l_posts st ++ [post])%list;
                 l_pages := l_pages st;
                 l_dates := snd pd |}
     else ret {| l_posts := l_posts st;
                 l_pages := (l_pages st ++ [post])%list;
                 l_dates := snd pd |}).
Proof.
  unfold item_body, retained, supported, item_status, post_data_of, item_type.
  destruct (find_desc (wp "post_type") item) as [pt|]; [|discriminate].
  destruct (find_desc (wp "status") item) as [s|]; [|discriminate].
  intros H. apply andb_true_iff in H. destruct H as [-> ->]. reflexivity.
Qed.

Lemma retained_cases item :
  retained item = true ->
  (retained_as "post" item = true /\ retained_as "page" item = false
   /\ opt_eqb (item_type item) "post" = true)
  \/ (retained_as "page" item = true /\ retained_as "post" item = false
      /\ opt_eqb (item_type item) "post" = false).
Proof.
  unfold retained_as. intros H. rewrite H. cbn [andb].
  unfold retained, supported, item_type in *.
  destruct (find_desc (wp "post_type") item) as [pt|]; [|discriminate].
  destruct (find_desc (wp "status") item) as [s|]; [|discriminate].
  apply andb_true_iff in H. destruct H as [H _].
  destruct (opt_eqb (text pt) "post") eqn:E.
  - left. repeat split. now apply post_not_page.
  - right. cbn in H. now rewrite H.
Qed.

Lemma not_retained_as item kind :
  retained item = false -> retained_as kind item = false.
Proof. unfold retained_as. now intros ->. Qed.

(** What a round of the item loop that returns has done. *)
Lemma item_body_ok item st st' out :
  item_body lib author_map tz item st = (Ok st', out) ->
  (retained item = false /\ st' = st
   /\ out = if unpublished item then [skip_notice item (item_status item)]
            else [])
  \/ (retained item = true /\ unpublished item = false /\ out = []
      /\ exists post,
          built lib author_map tz item post /\
          ((retained_as "post" item = true /\ retained_as "page" item = false
            /\ l_posts st' = (l_posts st ++ [post])%list
            /\ l_pages st' = l_pages st)
           \/ (retained_as "page" item = true
               /\ retained_as "post" item = false
               /\ l_pages st' = (l_pages st ++ [post])%list
               /\ l_posts st' = l_posts st))).
Proof.
  intros H. destruct (retained item) eqn:Hr.
  - right. split; [reflexivity|].
    assert (Hu : unpublished item = false).
    { unfold retained, unpublished in *. apply andb_true_iff in Hr.
      destruct Hr as [-> ->]. reflexivity. }
    split; [exact Hu|].
    rewrite (item_body_retained _ _ Hr) in H.
    apply bind_ok_inv in H. destruct H as [pd [o1 [o2 [Hpd [H ->]]]]].
    apply bind_ok_inv in H. destruct H as [cs [o3 [o4 [Hcs [H ->]]]]].
    pose proof (item_pub_date_silent lib tz item (l_dates st)) as S1.
    rewrite Hpd in S1. cbn in S1. subst o1.
    pose proof (item_comments_silent lib item) as S2.
    rewrite Hcs in S2. cbn in S2. subst o3.
    cbn zeta in H.
    destruct (retained_cases _ Hr) as [[Ha [Hb Hc]]|[Ha [Hb Hc]]];
      rewrite Hc in H; inversion H; subst; clear H.
    + split; [reflexivity|]. eexists. split.
      * exists (l_dates st), pd, cs. repeat split; eassumption.
      * left. repeat split; assumption.
    + split; [reflexivity|]. eexists. split.
      * exists (l_dates st), pd, cs. repeat split; eassumption.
      * right. repeat split; assumption.
  - left. split; [reflexivity|].
    destruct (unpublished item) eqn:Hu.
    + rewrite (item_body_unpublished _ _ Hu) in H. inversion H; now subst.
    + assert (Hs : supported item = false).
      { unfold retained, unpublished in *.
        destruct (supported item); [|reflexivity].
        cbn in *. rewrite Hr in Hu. discriminate. }
      rewrite (item_body_ignored _ _ Hs) in H. inversion H; now subst.
Qed.

(** A retained item with a comment that does not parse makes its round
    raise. *)
Lemma item_body_raises item c :
  retained item = true ->
  In c (findall_desc (wp "comment") item) ->
  comment_parses lib c = false ->
  forall st, exists e o, item_body lib author_map tz item st = (Raise e, o).
Proof.
  intros Hr Hin Hc st. rewrite (item_body_retained _ _ Hr).
  destruct (item_pub_date lib tz item (l_dates st)) as [[pd|e] o] eqn:E;
    [|cbn; eauto].
  cbn [bind].
  destruct (for_each_raise (comment_body lib) _ c Hin
              (fun acc => comment_body_raises lib c acc Hc) [])
    as [e [o' E']].
  unfold item_comments. rewrite E'. cbn. eauto.
Qed.



End ItemFacts.

(** ** The item loop and [parse_wxr] *)

Section LoopFacts.

Variable lib : DateLib.
Variable tz : string.

(** When the item loop returns: the notices printed are those of the
    unpublished items, and the posts and the pages added are built from
    the items retained as such, in their order. *)
Lemma item_loop_ok author_map items : forall st st' out,
  for_each (item_body lib author_map tz) items st = (Ok st', out) ->
  out = map (fun item => skip_notice item (item_status item))
            (filter unpublished items) /\
  exists ps gs,
    l_posts st' = (l_posts st ++ ps)%list /\
    l_pages st' = (l_pages st ++ gs)%list /\
    Forall2 (built lib author_map tz) (filter (retained_as "post") items) ps /\
    Forall2 (built lib author_map tz) (filter (retained_as "page") items) gs.
Proof.
  induction items as [|item items IH]; intros st st' out H.
  - inversion H; subst. split; [reflexivity|].
    exists [], []. rewrite !app_nil_r. repeat split; constructor.
  - cbn [for_each] in H. apply bind_ok_inv in H.
    destruct H as [st1 [o1 [o2 [Hb [Hl ->]]]]].
    apply IH in Hl. destruct Hl as [-> [ps [gs [Hp [Hg [Fp Fg]]]]]].
    apply item_body_ok in Hb. cbn [filter map].
    destruct Hb as [[Hr [-> ->]]|[Hr [Hu [-> [post [Hpost Hcase]]]]]].
    + rewrite !(not_retained_as _ _ Hr). split.
      * now destruct (unpublished item).
      * now exists ps, gs.
    + rewrite Hu. split; [reflexivity|].
      destruct Hcase as [[Ha [Hb [Hp' Hg']]]|[Ha [Hb [Hg' Hp']]]];
        rewrite Ha, Hb.
      * exists (post :: ps), gs. rewrite Hp, Hp', Hg, Hg', <- app_assoc.
        repeat split; [now constructor|assumption].
      * exists ps, (post :: gs). rewrite Hp, Hp', Hg, Hg', <- app_assoc.
        repeat split; [assumption|now constructor].
Qed.


Lemma author_loop_silent authors acc :
  snd (for_each author_body authors acc) = [].
Proof.
  apply for_each_silent. intros a d. unfold author_body.
  repeat (apply bind_silent; [reflexivity|intros ?]). reflexivity.
Qed.


(** When [parse_wxr] returns. *)
Lemma parse_wxr_ok root r out :
  parse_wxr lib root tz = (Ok r, out) ->
  exists author_map,
    out = map (fun item => skip_notice item (item_status item))
              (filter unpublished (findall_desc "item" root)) /\
    Forall2 (built lib author_map tz)
      (filter (retained_as "post") (findall_desc "item" root)) (posts r) /\
    Forall2 (built lib author_map tz)
      (filter (retained_as "page") (findall_desc "item" root)) (pages r).
Proof.
  unfold parse_wxr. destruct (find_child "channel" root) as [ch|];
    [|discriminate].
  rewrite bind_lift.
  destruct (text_of (find_desc (wp "base_blog_url") ch)) as [u|];
    [|discriminate].
  intros H. apply bind_ok_inv in H. destruct H as [d [o1 [o2 [Ha [H ->]]]]].
  pose proof (author_loop_silent (findall_desc (wp "author") root) []) as S.
  rewrite Ha in S. cbn in S. subst o1.
  apply bind_ok_inv in H. destruct H as [st [o3 [o4 [Hl [H ->]]]]].
  inversion H; subst; clear H. cbn [posts pages].
  apply item_loop_ok in Hl. destruct Hl as [-> [ps [gs [Hp [Hg [Fp Fg]]]]]].
  cbn in Hp, Hg. subst. exists d. rewrite app_nil_r. auto.
Qed.

(** [parse_wxr] raises when the round of one item raises. *)
Lemma parse_wxr_raises root item :
  In item (findall_desc "item" root) ->
  (forall author_map st,
      exists e o, item_body lib author_map tz item st = (Raise e, o)) ->
  exists e o, parse_wxr lib root tz = (Raise e, o).
Proof.
  intros Hin Hb. unfold parse_wxr.
  destruct (find_child "channel" root) as [ch|]; [|cbv; eauto].
  rewrite bind_lift.
  destruct (text_of (find_desc (wp "base_blog_url") ch)) as [u|]; [|eauto].
  destruct (for_each author_body (findall_desc (wp "author") root) [])
    as [[d|e] o]; [|cbn; eauto].
  cbn [bind].
  destruct (for_each_raise (item_body lib d tz) _ item Hin (Hb d)
              {| l_posts := []; l_pages := []; l_dates := [] |})
    as [e [o' E]].
  rewrite E. cbn. eauto.
Qed.


End LoopFacts.

(** ** What the parser guarantees *)

Section ParserTheorems.

Variable lib : DateLib.

Lemma built_title author_map tz item post :
  built lib author_map tz item post -> p_title post = item_title item.
Proof. intros [dates [pd [cs [_ [_ ->]]]]]. reflexivity. Qed.


Lemma built_comments author_map tz item post :
  built lib author_map tz item post ->
  item_comments lib item = (Ok (p_comments post), []).
Proof. intros [dates [pd [cs [_ [Hcs ->]]]]]. exact Hcs. Qed.

Lemma built_retains author_map tz item post :
  built lib author_map tz item post ->
  Forall2 (retains lib) (filter approved (findall_desc (wp "comment") item))
          (p_comments post).
Proof.
  intros H. apply built_comments in H. unfold item_comments in H.
  apply comment_loop_ok in H. destruct H as [news [E F]].
  cbn in E. now subst.
Qed.

Lemma same_comments (items : list Element) : forall ps1 ps2,
  Forall2 (fun i p => item_comments lib i = (Ok (p_comments p), [])) items ps1 ->
  Forall2 (fun i p => item_comments lib i = (Ok (p_comments p), [])) items ps2 ->
  map p_comments ps1 = map p_comments ps2.
Proof.
  induction items as [|i items IH]; intros ps1 ps2 F1 F2;
    inversion F1; inversion F2; subst; [reflexivity|].
  cbn [map]. f_equal; [congruence|]. now apply IH.
Qed.

Lemma Forall2_right {A B : Type} (R : A -> B -> Prop) (P : B -> Prop) l :
  forall l', Forall2 R l l' -> (forall a b, R a b -> P b) -> Forall P l'.
Proof.
  induction l as [|a l IH]; intros l' F H; inversion F; subst;
    constructor; eauto.
Qed.

(** A retained item whose publication date is there and does not match
    the format makes [parse_wxr] raise. *)
Lemma unparsed_pub_date_aborts (root : Element) (tz : string)
  (item pub_date : Element) (s : string) :
  In item (findall_desc "item" root) ->
  retained item = true ->
  find_child "pubDate" item = Some pub_date ->
  text pub_date = Some s ->
  String.eqb s "Unknown Date" = false ->
  strptime lib s pub_date_format = None ->
  exists e out, parse_wxr lib root tz = (Raise e, out).
Proof.
  intros Hi Hr Hp Ht Hu Hs. apply (parse_wxr_raises lib tz root item Hi).
  intros d st. rewrite (item_body_retained lib d tz item st Hr).
  unfold item_pub_date. rewrite Hp. unfold opt_eqb. rewrite Ht, Hu.
  unfold py_strptime. rewrite Hs. rewrite bind_lift. cbn. eauto.
Qed.


(** C2: the comments of a parsed item are those of its comment elements
    whose approval flag is the approved marker, in their order, each with
    the author, the body and the converted date of its element. *)
Theorem approved_comments_only (root : Element) (tz : string) (r : Export)
  (out : list string) :
  parse_wxr lib root tz = (Ok r, out) ->
  Forall2 (fun item post =>
             Forall2 (retains lib)
               (filter approved (findall_desc (wp "comment") item))
               (p_comments post))
    (filter (retained_as "post") (findall_desc "item" root)) (posts r) /\
  Forall2 (fun item post =>
             Forall2 (retains lib)
               (filter approved (findall_desc (wp "comment") item))
               (p_comments post))
    (filter (retained_as "page") (findall_desc "item" root)) (pages r).
Proof.
  intros E. apply parse_wxr_ok in E. destruct E as [d [_ [Fp Fg]]].
  split; (eapply Forall2_impl; [|eassumption]); intros item post Hb;
    eapply built_retains; eassumption.
Qed.

(** C7, amended: when the parser returns, the lines it has printed are
    the notices of the items of a handled type that are not published,
    one for each in their order, with the title and the status; the
    output holds the retained items and no others; an item of another
    type has no line. *)
Theorem unpublished_items_noticed (root : Element) (tz : string) (r : Export)
  (out : list string) :
  parse_wxr lib root tz = (Ok r, out) ->
  out = map (fun item =>
               "Unpublished item skipped: Title = " ++ py_str (item_title item)
               ++ ", Status = " ++ py_str (item_status item))
            (filter unpublished (findall_desc "item" root)) /\
  Forall2 (fun item post => p_title post = item_title item)
    (filter (retained_as "post") (findall_desc "item" root)) (posts r) /\
  Forall2 (fun item post => p_title post = item_title item)
    (filter (retained_as "page") (findall_desc "item" root)) (pages r).
Proof.
  intros E. apply parse_wxr_ok in E. destruct E as [d [-> [Fp Fg]]].
  split; [reflexivity|].
  split; (eapply Forall2_impl; [|eassumption]); intros item post Hb;
    eapply built_title; eassumption.
Qed.

(** C8: two runs on the same export with different zones that both
    return give the same comments, dates included; every comment date is
    converted to the one zone [America/Los_Angeles]. *)
Theorem comment_dates_ignore_timezone (root : Element) (tz1 tz2 : string)
  (r1 r2 : Export) (o1 o2 : list string) :
  parse_wxr lib root tz1 = (Ok r1, o1) ->
  parse_wxr lib root tz2 = (Ok r2, o2) ->
  map p_comments (posts r1) = map p_comments (posts r2) /\
  map p_comments (pages r1) = map p_comments (pages r2) /\
  Forall (fun post =>
            Forall (fun c =>
                      exists d zone d',
                        timezone lib "America/Los_Angeles" = Some zone /\
                        astimezone lib d zone = Ok d' /\
                        c_date c = strftime lib d' long_date_format)
                   (p_comments post))
         (posts r1 ++ pages r1).
Proof.
  intros E1 E2.
  apply parse_wxr_ok in E1. destruct E1 as [d1 [_ [Fp1 Fg1]]].
  apply parse_wxr_ok in E2. destruct E2 as [d2 [_ [Fp2 Fg2]]].
  split; [|split].
  - apply (same_comments (filter (retained_as "post")
                            (findall_desc "item" root)));
      (eapply Forall2_impl; [|eassumption]); intros i p Hb;
      eapply built_comments; eassumption.
  - apply (same_comments (filter (retained_as "page")
                            (findall_desc "item" root)));
      (eapply Forall2_impl; [|eassumption]); intros i p Hb;
      eapply built_comments; eassumption.
  - apply Forall_app. split.
    + eapply Forall2_right; [exact Fp1|]. intros item post Hb.
      apply built_retains in Hb. eapply Forall2_right; [exact Hb|].
      intros c cd [_ [_ [date [dt [z [dt' [_ [_ [Hz [Ha Hd]]]]]]]]]].
      now exists dt, z, dt'.
    + eapply Forall2_right; [exact Fg1|]. intros item post Hb.
      apply built_retains in Hb. eapply Forall2_right; [exact Hb|].
      intros c cd [_ [_ [date [dt [z [dt' [_ [_ [Hz [Ha Hd]]]]]]]]]].
      now exists dt, z, dt'.
Qed.

(** C9: the fields and the date of every comment of a retained item are
    read before the approval flag is looked at: a comment with a field
    missing or a date that does not match the format makes [parse_wxr]
    raise, whatever its approval flag. *)
Theorem unparsed_comment_aborts (root : Element) (tz : string)
  (item comment : Element) :
  In item (findall_desc "item" root) ->
  retained item = true ->
  In comment (findall_desc (wp "comment") item) ->
  comment_parses lib comment = false ->
  exists e out, parse_wxr lib root tz = (Raise e, out).
Proof.
  intros Hi Hr Hc Hbad. apply (parse_wxr_raises lib tz root item Hi).
  intros d st. now apply (item_body_raises lib d tz item comment).
Qed.

End ParserTheorems.



Lemma approved_comments_only_witness :
  let r := value_of no_export (parse_wxr ref_lib example_export "UTC") in
  Forall2 (fun item post =>
             Forall2 (retains ref_lib)
               (filter approved (findall_desc (wp "comment") item))
               (p_comments post))
    (filter (retained_as "post") (findall_desc "item" example_export))
    (posts r) /\
  Forall2 (fun item post =>
             Forall2 (retains ref_lib)
               (filter approved (findall_desc (wp "comment") item))
               (p_comments post))
    (filter (retained_as "page") (findall_desc "item" example_export))
    (pages r).
Proof.
  intros r.
  apply (approved_comments_only ref_lib example_export "UTC" r
           (snd (parse_wxr ref_lib example_export "UTC"))).
  vm_compute. reflexivity.
Defined.

(** C7, as stated, fails for an item of a type that is not handled: it
    is left out and nothing is printed about it. *)
Lemma attachment_skipped_silently :
  retained attachment = false /\
  exists r,
    parse_wxr ref_lib (rss [attachment]) "UTC" = (Ok r, []) /\
    posts r = [] /\ pages r = [].
Proof. split; [reflexivity|]. eexists. vm_compute. repeat split. Qed.

Lemma unpublished_items_noticed_witness :
  let r := value_of no_export (parse_wxr ref_lib example_export "UTC") in
  ["Unpublished item skipped: Title = Draft, Status = draft"]
  = map (fun item =>
           "Unpublished item skipped: Title = " ++ py_str (item_title item)
           ++ ", Status = " ++ py_str (item_status item))
        (filter unpublished (findall_desc "item" example_export)) /\
  Forall2 (fun item post => p_title post = item_title item)
    (filter (retained_as "post") (findall_desc "item" example_export))
    (posts r) /\
  Forall2 (fun item post => p_title post = item_title item)
    (filter (retained_as "page") (findall_desc "item" example_export))
    (pages r).
Proof.
  intros r.
  apply (unpublished_items_noticed ref_lib example_export "UTC" r
           ["Unpublished item skipped: Title = Draft, Status = draft"]).
  vm_compute. reflexivity.
Defined.

Lemma comment_dates_ignore_timezone_witness :
  let r1 := value_of no_export (parse_wxr ref_lib example_export "UTC") in
  let r2 := value_of no_export (parse_wxr ref_lib example_export "Asia/Tokyo") in
  map p_comments (posts r1) = map p_comments (posts r2) /\
  map p_comments (pages r1) = map p_comments (pages r2) /\
  Forall (fun post =>
            Forall (fun c =>
                      exists d zone d',
                        timezone ref_lib "America/Los_Angeles" = Some zone /\
                        astimezone ref_lib d zone = Ok d' /\
                        c_date c = strftime ref_lib d' long_date_format)
                   (p_comments post))
         (posts r1 ++ pages r1).
Proof.
  intros r1 r2.
  apply (comment_dates_ignore_timezone ref_lib example_export
           "UTC" "Asia/Tokyo" r1 r2
           (snd (parse_wxr ref_lib example_export "UTC"))
           (snd (parse_wxr ref_lib example_export "Asia/Tokyo")));
    vm_compute; reflexivity.
Defined.

Lemma unparsed_comment_aborts_witness :
  approved (comment_xml "Eve" "Spam" "01/03/2021" "0") = false /\
  exists e out,
    parse_wxr ref_lib (rss [draft_post; post_with_bad_comment]) "UTC"
    = (Raise e, out).
Proof.
  split; [reflexivity|].
  apply (unparsed_comment_aborts ref_lib
           (rss [draft_post; post_with_bad_comment]) "UTC"
           post_with_bad_comment
           (comment_xml "Eve" "Spam" "01/03/2021" "0")).
  - vm_compute. right. left. reflexivity.
  - reflexivity.
  - vm_compute. left. reflexivity.
  - reflexivity.
Defined.

(** ** The assembler *)

Section AssemblerFacts.

Variable lib : DateLib.
Variable lay : Layout.

(** A heading of height 10 fits on a fresh page, below the running
    header. *)
Hypothesis heading_fits : (t_margin lay + 20 <= page_height lay - 15)%Z.

Lemma quiet_refl pdf : quiet pdf pdf.
Proof. unfold quiet. auto. Qed.

Lemma quiet_ln a b h : quiet a b -> quiet a (ln b h).
Proof. unfold quiet, headings. cbn. tauto. Qed.

Lemma page_add_page pdf : page (add_page lay pdf) = S (page pdf).
Proof.
  unfold add_page, header. cbn [page].
  now destruct (Nat.ltb (S (page pdf)) 5).
Qed.

Lemma quiet_add_page a b : quiet a b -> quiet a (add_page lay b).
Proof.
  unfold quiet, headings. intros [H1 [H2 [H3 H4]]].
  rewrite page_add_page. unfold add_page, header. cbn [page].
  destruct (Nat.ltb (S (page b)) 5); cbn; repeat split; auto.
Qed.

Lemma quiet_cell a b h txt next :
  quiet a b -> quiet a (cell lay b h txt None next).
Proof.
  intros H. unfold cell.
  assert (H' : quiet a (if (page_break_trigger lay <? y b + h)%Z
                        then add_page lay b else b))
    by (destruct (_ <? _)%Z; [now apply quiet_add_page|exact H]).
  destruct H' as [H1 [H2 [H3 H4]]].
  unfold quiet, headings in *. cbn [toc cells page links].
  rewrite filter_app. cbn. rewrite app_nil_r. auto.
Qed.

Lemma quiet_write_html a b html : quiet a b -> quiet a (write_html lay b html).
Proof.
  unfold quiet, headings, write_html. intros [H1 [H2 [H3 H4]]].
  destruct (html_layout lay html (page b) (y b)) as [n y']. cbn.
  repeat split; auto. lia.
Qed.

Ltac quiet_steps :=
  repeat match goal with
         | |- quiet _ (ln _ _) => apply quiet_ln
         | |- quiet _ (cell _ _ _ _ None _) => apply quiet_cell
         | |- quiet _ (add_page _ _) => apply quiet_add_page
         | |- quiet _ (write_html _ _ _) => apply quiet_write_html
         end;
  try apply quiet_refl.

Lemma y_add_page pdf : (y (add_page lay pdf) <= t_margin lay + 10)%Z.
Proof.
  unfold add_page, header. cbn [page].
  destruct (Nat.ltb (S (page pdf)) 5); cbn; lia.
Qed.

Lemma sorted_snoc (l : list nat) (p : nat) :
  StronglySorted le l -> Forall (fun x => x <= p) l ->
  StronglySorted le (l ++ [p]).
Proof.
  induction l as [|x l IH]; intros Hs Hf; cbn.
  - constructor; constructor.
  - inversion Hs; subst. inversion Hf; subst. constructor; [now apply IH|].
    apply Forall_app. split; [assumption|]. now constructor.
Qed.

(** A linked cell that fits on the page is drawn on it. *)
Lemma heading_cell pdf title link :
  (y pdf + 10 <= page_break_trigger lay)%Z ->
  toc (cell lay pdf 10 title (Some link) true) = toc pdf /\
  headings (cell lay pdf 10 title (Some link) true)
  = (headings pdf ++ [{| cell_page := page pdf; cell_text := title;
                         cell_link := Some link |}])%list /\
  page (cell lay pdf 10 title (Some link) true) = page pdf.
Proof.
  intros Hy. unfold cell, headings.
  assert (Hfit : (page_break_trigger lay <? y pdf + 10)%Z = false)
    by (apply Z.ltb_ge; lia).
  rewrite Hfit. cbn [toc cells page]. rewrite filter_app. auto.
Qed.

(** One section: its entry and its heading are added, both for the page
    that follows the current one. *)
Lemma content_body_ok url item_type item pdf pdf' out :
  content_body lib lay url item_type item pdf = (Ok pdf', out) ->
  toc pdf' = (toc pdf ++ [{| toc_title := entry_title item_type item;
                             toc_page := S (page pdf);
                             toc_link := S (links pdf) |}])%list /\
  headings pdf' = (headings pdf ++ [{| cell_page := S (page pdf);
                                       cell_text := p_title item;
                                       cell_link := Some (S (links pdf)) |}])%list
  /\ S (page pdf) <= page pdf'.
Proof.
  unfold content_body. intros H. apply bind_ok_inv in H.
  destruct H as [content [o1 [o2 [_ [H _]]]]].
  cbn [add_link] in H. rewrite bind_lift in H.
  destruct (pub_date_strftime lib (p_pub_date item) long_date_format)
    as [date|]; [|discriminate].
  inversion H; subst; clear H.
  match goal with
  | |- context [cell lay ?p 10 (p_title item) (Some ?l) true] =>
      set (pdf3 := p); set (link := l)
  end.
  destruct (quiet_add_page pdf pdf (quiet_refl pdf)) as [Q1 [Q2 [Q3 _]]].
  pose proof (page_add_page pdf) as Hpage.
  pose proof (y_add_page pdf) as Hy.
  assert (E3 : toc pdf3 = (toc pdf ++ [{| toc_title := entry_title item_type item;
                                          toc_page := S (page pdf);
                                          toc_link := S (links pdf) |}])%list
               /\ headings pdf3 = headings pdf
               /\ page pdf3 = S (page pdf)
               /\ y pdf3 = y (add_page lay pdf)).
  { unfold pdf3, entry_title, page_no, headings in *.
    destruct (String.eqb item_type "page"); cbn;
      rewrite Q1, Q2, Q3, Hpage; auto. }
  assert (El : link = S (links pdf)) by (unfold link; now rewrite Q3).
  clearbody pdf3 link. subst link. destruct E3 as [T3 [H3 [P3 Y3]]].
  assert (Hfit : (y pdf3 + 10 <= page_break_trigger lay)%Z)
    by (unfold page_break_trigger; lia).
  destruct (heading_cell pdf3 (p_title item) (S (links pdf)) Hfit)
    as [T4 [H4 P4]].
  match goal with |- context [toc ?p] =>
    assert (Hq : quiet (cell lay pdf3 10 (p_title item)
                          (Some (S (links pdf))) true) p)
      by quiet_steps
  end.
  destruct Hq as [Ht [Hh [_ Hp]]].
  rewrite P4, P3 in Hp.
  rewrite Ht, Hh, T4, H4, T3, H3, P3. repeat split. exact Hp.
Qed.

Lemma toc_in_step_quiet pdf pdf' :
  toc_in_step pdf -> quiet pdf pdf' -> toc_in_step pdf'.
Proof.
  unfold toc_in_step, quiet. intros [H1 [H2 H3]] [Q1 [Q2 [_ Q4]]].
  rewrite Q1, Q2. repeat split; auto.
  eapply Forall_impl; [|exact H2]. cbn. intros e He. lia.
Qed.

(** The sections of one call of [add_content]. *)
Lemma add_content_ok url item_type items : forall pdf pdf' out,
  add_content lib lay url items item_type pdf = (Ok pdf', out) ->
  toc_in_step pdf ->
  toc_in_step pdf' /\
  map toc_title (toc pdf')
  = (map toc_title (toc pdf) ++ map (entry_title item_type) items)%list /\
  map cell_text (headings pdf')
  = (map cell_text (headings pdf) ++ map p_title items)%list /\
  page pdf <= page pdf'.
Proof.
  unfold add_content.
  induction items as [|item items IH]; intros pdf pdf' out H Inv.
  - inversion H; subst. cbn. rewrite !app_nil_r. auto.
  - cbn [for_each] in H. apply bind_ok_inv in H.
    destruct H as [pdf1 [o1 [o2 [Hb [Hl _]]]]].
    apply content_body_ok in Hb. destruct Hb as [T1 [H1 P1]].
    assert (Inv1 : toc_in_step pdf1).
    { destruct Inv as [I1 [I2 I3]]. unfold toc_in_step.
      rewrite T1, H1, !map_app. cbn [map toc_page toc_link cell_page cell_link].
      repeat split.
      - now rewrite I1.
      - apply Forall_app. split.
        + eapply Forall_impl; [|exact I2]. cbn. intros e He. lia.
        + constructor; [cbn; lia|constructor].
      - apply sorted_snoc; [assumption|].
        apply Forall_map. eapply Forall_impl; [|exact I2].
        cbn. intros e He. lia. }
    destruct (IH pdf1 pdf' o2 Hl Inv1) as [Inv' [T' [H' P']]].
    split; [exact Inv'|].
    rewrite T', H', T1, H1, !map_app, <- !app_assoc. cbn. repeat split. lia.
Qed.

(** C6: the entries of the table of contents are those of the posts, in
    their order, then those of the pages, in theirs, and the divider has
    none; each entry records the page on which the heading of its section
    is drawn; the recorded pages do not decrease. *)
Theorem toc_follows_sections (title description : option string)
  (range : string) (posts pages : list Post) (url : option string)
  (pdf : PDF) (out : list string) :
  create_pdf lib lay title description range posts pages url = (Ok pdf, out) ->
  map toc_title (toc pdf)
  = (map p_title posts
     ++ map (entry_title "page") pages)%list /\
  map cell_text (headings pdf) = (map p_title posts ++ map p_title pages)%list /\
  map (fun c => (cell_page c, cell_link c)) (headings pdf)
  = map (fun e => (toc_page e, Some (toc_link e))) (toc pdf) /\
  StronglySorted le (map toc_page (toc pdf)).
Proof.
  unfold create_pdf. cbv zeta. intros H. apply bind_ok_inv in H.
  destruct H as [pdf1 [o1 [o2 [Hposts [Hpages _]]]]].
  match type of Hposts with add_content _ _ _ _ _ ?p = _ =>
    assert (Q0 : quiet {| page := 0; y := 0; links := 0; toc := [];
                          cells := [] |} p)
      by (unfold add_title_page, insert_toc_placeholder, Nat.iter;
          cbv zeta; cbn [nat_rect]; quiet_steps);
    assert (Inv0 : toc_in_step p)
      by (eapply toc_in_step_quiet; [|exact Q0];
          unfold toc_in_step, headings; cbn; repeat split; constructor);
    destruct Q0 as [T0 [H0 _]]
  end.
  destruct (add_content_ok _ _ _ _ _ _ Hposts Inv0) as [Inv1 [T1 [H1 _]]].
  rewrite T0, H0 in *. cbn in T1, H1.
  match type of Hpages with add_content _ _ _ _ _ ?p = _ =>
    assert (Q1 : quiet pdf1 p) by quiet_steps;
    pose proof (toc_in_step_quiet _ _ Inv1 Q1) as Inv2;
    destruct Q1 as [T2 [H2 _]]
  end.
  destruct (add_content_ok _ _ _ _ _ _ Hpages Inv2) as [Inv3 [T3 [H3 _]]].
  rewrite T2, H2, T1, H1 in *.
  destruct Inv3 as [I1 [_ I3]].
  repeat split; assumption.
Qed.

End AssemblerFacts.

Lemma toc_follows_sections_witness :
  let r := value_of no_export (parse_wxr ref_lib dated_export "UTC") in
  let pdf := value_of no_pdf (document_of dated_export "UTC") in
  (t_margin a4_layout + 20 <= page_height a4_layout - 15)%Z /\
  map toc_title (toc pdf)
  = (map p_title (posts r)
     ++ map (entry_title "page") (pages r))%list /\
  map cell_text (headings pdf)
  = (map p_title (posts r) ++ map p_title (pages r))%list /\
  map (fun c => (cell_page c, cell_link c)) (headings pdf)
  = map (fun e => (toc_page e, Some (toc_link e))) (toc pdf) /\
  StronglySorted le (map toc_page (toc pdf)).
Proof.
  intros r pdf.
  assert (Hfit : (t_margin a4_layout + 20 <= page_height a4_layout - 15)%Z)
    by (cbn; lia).
  split; [exact Hfit|].
  apply (toc_follows_sections ref_lib a4_layout Hfit (blog_title r)
           (blog_description r) (date_range r) (posts r) (pages r) (url r)
           pdf (snd (document_of dated_export "UTC"))).
  vm_compute. reflexivity.
Defined.

(** A post without a date is parsed but stops the assembler: the byline
    asks the missing date for its text. *)
Lemma undated_post_not_rendered :
  fst (document_of (rss [undated_post]) "UTC") = Raise AttributeError.
Proof. vm_compute. reflexivity. Qed.

(** * Further properties *)

(** ** Comments *)

Lemma fold_left_append (f : Comment -> string) (l : list Comment) :
  forall h, fold_left (fun html c => html ++ f c) l h
            = h ++ fold_right (fun c acc => f c ++ acc) EmptyString l.
Proof.
  induction l as [|c l IH]; intros h; cbn [fold_left fold_right].
  - clear. induction h as [|x h IH]; cbn; [reflexivity|now rewrite <- IH].
  - rewrite IH. now rewrite append_assoc.
Qed.

(** The block appended for one comment, written out. *)
Lemma render_comment_text (c : Comment) :
  render_comment c
  = "<div class=" ++ DQ ++ "comment" ++ DQ ++ "><p><strong>"
    ++ py_str (c_author c)
    ++ (if contains "liked this on Facebook." (py_str (c_content c))
        then "</strong> give this a <strong>LIKE</strong> on Facebook!</p>"
             ++ "</div>"
        else "</strong> on " ++ c_date c ++ ":</p>"
             ++ "<p>" ++ strip_tags (py_str (c_content c)) ++ "</p></div>").
Proof.
  unfold render_comment.
  destruct (contains "liked this on Facebook." (py_str (c_content c)));
    repeat rewrite append_assoc; reflexivity.
Qed.

(** X1: for a list of comments that is not empty the fragment is the
    header with the number of comments followed by one block for each
    comment, in their order: the author in bold, then the remark about
    the like or the date and the body without its tags.  An author or a
    body that is [None] is written as the word [None]. *)
Theorem preprocess_comments_renders_all :
  (forall (comment : Comment) (comments : list Comment),
      preprocess_comments (comment :: comments)
      = ("<h3>Comments (" ++ str_of_nat (S (List.length comments)) ++ ")</h3>")
        ++ fold_right
             (fun c rest =>
                "<div class=" ++ DQ ++ "comment" ++ DQ ++ "><p><strong>"
                ++ py_str (c_author c)
                ++ (if contains "liked this on Facebook."
                         (py_str (c_content c))
                    then "</strong> give this a <strong>LIKE</strong>"
                         ++ " on Facebook!</p></div>"
                    else "</strong> on " ++ c_date c ++ ":</p>"
                         ++ "<p>" ++ strip_tags (py_str (c_content c))
                         ++ "</p></div>")
                ++ rest)
             EmptyString (comment :: comments)) /\
  preprocess_comments
    [{| c_author := None; c_content := Some "First <i>one</i>";
        c_date := "Friday, January 1, 2021 @ 1:00 AM" |};
     {| c_author := Some "Eve"; c_content := Some "Eve liked this on Facebook.";
        c_date := "Saturday, January 2, 2021 @ 2:00 AM" |};
     {| c_author := Some "Ann"; c_content := None;
        c_date := "Sunday, January 3, 2021 @ 3:00 AM" |}]
  = "<h3>Comments (3)</h3>"
    ++ "<div class=" ++ DQ ++ "comment" ++ DQ ++ "><p><strong>None</strong>"
    ++ " on Friday, January 1, 2021 @ 1:00 AM:</p><p>First one</p></div>"
    ++ "<div class=" ++ DQ ++ "comment" ++ DQ ++ "><p><strong>Eve</strong>"
    ++ " give this a <strong>LIKE</strong> on Facebook!</p></div>"
    ++ "<div class=" ++ DQ ++ "comment" ++ DQ ++ "><p><strong>Ann</strong>"
    ++ " on Sunday, January 3, 2021 @ 3:00 AM:</p><p>None</p></div>".
Proof.
  split; [|vm_compute; reflexivity].
  intros comment comments.
  unfold preprocess_comments. cbn [List.length Nat.eqb negb].
  rewrite fold_left_append. f_equal.
  generalize (comment :: comments). intros l.
  induction l as [|c l IH]; cbn [fold_right]; [reflexivity|].
  rewrite IH, render_comment_text.
  destruct (contains "liked this on Facebook." (py_str (c_content c)));
    repeat rewrite append_assoc; reflexivity.
Qed.

(** ** Tag stripping *)

Lemma tag_step_other_char (c : ascii) (s : string) :
  Ascii.eqb "<" c = false -> tag_step (String c s) = None.
Proof.
  intros H. unfold tag_step, match_tag. destruct s as [|c1 s]; [reflexivity|].
  rewrite Ascii.eqb_sym in H. now rewrite H.
Qed.

Lemma strip_tags_plain_prefix (plain s : string) :
  has_char "<" plain = false ->
  strip_tags (plain ++ s) = plain ++ strip_tags s.
Proof.
  unfold strip_tags. induction plain as [|c plain IH]; intros H;
    [reflexivity|].
  cbn [has_char] in H. apply orb_false_iff in H. destruct H as [Hc Hp].
  cbn [append]. rewrite re_sub_skip;
    [|exact tag_step_consuming|now apply tag_step_other_char].
  now rewrite IH.
Qed.

Lemma lazy_not_lt_name (name rest : string) :
  has_char "<" name = false -> has_char ">" name = false ->
  lazy_not_lt (name ++ String ">" rest) = Some rest.
Proof.
  induction name as [|c name IH]; intros H1 H2; [reflexivity|].
  cbn [has_char] in H1, H2. apply orb_false_iff in H1, H2.
  destruct H1 as [H1 H1'], H2 as [H2 H2'].
  cbn [append lazy_not_lt].
  rewrite Ascii.eqb_sym in H1, H2. rewrite H2, H1. now apply IH.
Qed.

(** X2: tag stripping keeps text without an opening angle bracket as it
    is, removes a tag whose name is not empty and holds no angle bracket,
    and goes on behind the tag. *)
Theorem strip_tags_removes_tag (plain name rest : string) :
  name <> EmptyString ->
  has_char "<" plain = false ->
  has_char "<" name = false ->
  has_char ">" name = false ->
  strip_tags plain = plain /\
  strip_tags (plain ++ "<" ++ name ++ ">" ++ rest) = plain ++ strip_tags rest.
Proof.
  intros Hn Hp H1 H2. split.
  - pose proof (strip_tags_plain_prefix plain EmptyString Hp) as H.
    assert (E : forall x : string, x ++ EmptyString = x)
      by (induction x as [|a x IH]; cbn; [reflexivity|now rewrite IH]).
    rewrite E in H. rewrite H. unfold strip_tags.
    rewrite (re_sub_empty _ tag_step_consuming). apply E.
  - rewrite strip_tags_plain_prefix by assumption. f_equal.
    unfold strip_tags.
    destruct name as [|c name]; [contradiction|].
    cbn [has_char] in H1, H2. apply orb_false_iff in H1, H2.
    destruct H1 as [H1 H1'], H2 as [H2 H2'].
    assert (E : tag_step ("<" ++ String c name ++ ">" ++ rest)
                = Some (EmptyString, rest)).
    { unfold tag_step, match_tag. cbn [append].
      rewrite Ascii.eqb_refl. rewrite Ascii.eqb_sym in H1. rewrite H1.
      cbn [negb andb].
      change (String ">" (EmptyString ++ rest)) with (String ">" rest).
      now rewrite lazy_not_lt_name. }
    now rewrite (re_sub_match _ tag_step_consuming _ _ _ E).
Qed.

Lemma strip_tags_removes_tag_witness :
  strip_tags "Hello " = "Hello " /\
  strip_tags ("Hello " ++ "<" ++ "b" ++ ">" ++ "world</b>")
  = "Hello " ++ strip_tags "world</b>".
Proof.
  apply (strip_tags_removes_tag "Hello " "b" "world</b>");
    [discriminate|reflexivity|reflexivity|reflexivity].
Defined.

(** ** Paragraphs *)

Lemma split_blank_first (a b : string) :
  has_char nl a = false ->
  split_blank (a ++ NL ++ NL ++ b) = a :: split_blank b.
Proof.
  induction a as [|c a IH]; intros H.
  - cbn [append NL]. cbn [split_blank]. now rewrite Ascii.eqb_refl.
  - cbn [has_char] in H. apply orb_false_iff in H. destruct H as [Hc Ha].
    specialize (IH Ha).
    cbn [append].
    remember (a ++ NL ++ NL ++ b) as s' eqn:Es.
    destruct s' as [|c' s''].
    + destruct a; discriminate Es.
    + change (split_blank (String c (String c' s'')))
        with (if Ascii.eqb c nl && Ascii.eqb c' nl
              then EmptyString :: split_blank s''
              else match split_blank (String c' s'') with
                   | b0 :: bs => String c b0 :: bs
                   | [] => [String c EmptyString]
                   end).
      rewrite Ascii.eqb_sym in Hc. rewrite Hc. cbn [andb]. now rewrite IH.
Qed.

Lemma split_blank_single (a : string) :
  has_char nl a = false -> split_blank a = [a].
Proof.
  induction a as [|c a IH]; intros H; [reflexivity|].
  cbn [has_char] in H. apply orb_false_iff in H. destruct H as [Hc Ha].
  specialize (IH Ha). destruct a as [|c' a]; [reflexivity|].
  change (split_blank (String c (String c' a)))
    with (if Ascii.eqb c nl && Ascii.eqb c' nl
          then EmptyString :: split_blank a
          else match split_blank (String c' a) with
               | b0 :: bs => String c b0 :: bs
               | [] => [String c EmptyString]
               end).
  rewrite Ascii.eqb_sym in Hc. rewrite Hc. cbn [andb]. now rewrite IH.
Qed.

(** X3: a first block without a line break becomes one paragraph with
    its text trimmed; when a blank line and more text follow, the
    paragraphs of that text come after it, behind one line break. *)
Theorem convert_to_paragraphs_first_block (a b : string) :
  has_char nl a = false ->
  convert_to_paragraphs a = "<p>" ++ strip a ++ "</p>" /\
  convert_to_paragraphs (a ++ NL ++ NL ++ b)
  = "<p>" ++ strip a ++ "</p>" ++ NL ++ convert_to_paragraphs b.
Proof.
  intros H. unfold convert_to_paragraphs. split.
  - now rewrite split_blank_single.
  - rewrite split_blank_first by assumption.
    destruct (split_blank_cons b) as [b0 [bs E]]. rewrite E.
    cbn [map join]. cbn [append]. now rewrite append_assoc.
Qed.

Lemma convert_to_paragraphs_first_block_witness :
  convert_to_paragraphs "  Intro " = "<p>" ++ strip "  Intro " ++ "</p>" /\
  convert_to_paragraphs ("  Intro " ++ NL ++ NL ++ "Body")
  = "<p>" ++ strip "  Intro " ++ "</p>" ++ NL ++ convert_to_paragraphs "Body".
Proof.
  apply (convert_to_paragraphs_first_block "  Intro " "Body"). reflexivity.
Defined.

(** ** The residual-URL diagnostic *)

Lemma take_url_chars_split (s : string) :
  exists rest, s = take_url_chars s ++ rest /\
               all_url_chars (take_url_chars s) = true /\
               url_char_next rest = false.
Proof.
  induction s as [|c s IH]; cbn [take_url_chars].
  - now exists EmptyString.
  - destruct (is_url_char c) eqn:E.
    + destruct IH as [rest [H1 [H2 H3]]]. exists rest.
      cbn [append all_url_chars]. rewrite E, H2, <- H1. auto.
    + exists (String c s). cbn. auto.
Qed.

(** The optional slash is itself of the class, so the group is the URL
    and the run of characters of the class behind it. *)
Lemma match_site_url_value (url s s1 : string) :
  lit url s = Some s1 ->
  match_site_url url s = Some (url ++ take_url_chars s1).
Proof.
  intros E. unfold match_site_url. rewrite E.
  destruct (lit "/" s1) as [s2|] eqn:E2; [|reflexivity].
  apply lit_spec in E2. subst s1. reflexivity.
Qed.

Lemma match_site_url_none (url s : string) :
  lit url s = None -> match_site_url url s = None.
Proof. intros E. unfold match_site_url. now rewrite E. Qed.

Lemma no_occurrence_at_head (url : string) (c : ascii) (t p q : string) :
  lit url (String c t) = None ->
  String c t = p ++ url ++ q ->
  exists p', p = String c p' /\ t = p' ++ url ++ q.
Proof.
  intros E H. destruct p as [|c' p'].
  - cbn [append] in H. rewrite H, lit_append in E. discriminate.
  - cbn [append] in H. inversion H; subst. now exists p'.
Qed.

(** The line of the scan, for any text. *)
Lemma re_search_site_url (url text : string) :
  residual_lines url text
    match re_search (match_site_url url) text with
    | Some g => ["Found URL: " ++ g]
    | None => []
    end.
Proof.
  induction text as [|c t IH]; cbn [re_search].
  - destruct (lit url EmptyString) as [s1|] eqn:E.
    + rewrite (match_site_url_value _ _ _ E).
      apply lit_spec in E.
      destruct (take_url_chars_split s1) as [rest [H1 [H2 H3]]].
      right. exists EmptyString, (take_url_chars s1), rest.
      cbn [append String.length]. rewrite <- H1.
      repeat split; auto. intros; lia.
    + rewrite (match_site_url_none _ _ E). left. split; [|reflexivity].
      intros p q H. destruct p; [|discriminate].
      cbn [append] in H. rewrite H, lit_append in E. discriminate.
  - destruct (lit url (String c t)) as [s1|] eqn:E.
    + rewrite (match_site_url_value _ _ _ E).
      apply lit_spec in E.
      destruct (take_url_chars_split s1) as [rest [H1 [H2 H3]]].
      right. exists EmptyString, (take_url_chars s1), rest.
      cbn [append String.length]. rewrite <- H1.
      repeat split; auto. intros; lia.
    + rewrite (match_site_url_none _ _ E).
      destruct IH as [[Hno ->]|[pre [taken [rest [Ht [Hfirst [Hc [Hn ->]]]]]]]].
      * destruct (re_search (match_site_url url) t); left;
          (split; [|reflexivity]); intros p q H;
          destruct (no_occurrence_at_head _ _ _ _ _ E H) as [p' [_ H']];
          exact (Hno _ _ H').
      * assert (R : residual_lines url (String c t)
                      ["Found URL: " ++ url ++ taken]).
        { right. exists (String c pre), taken, rest.
          cbn [append]. rewrite <- Ht. repeat split; auto.
          intros p q H.
          destruct (no_occurrence_at_head _ _ _ _ _ E H) as [p' [-> H']].
          apply Hfirst in H'. cbn [String.length]. lia. }
        destruct (re_search (match_site_url url) t) as [g|] eqn:Eg.
        -- exact R.
        -- exact R.
Qed.

(** X4: [replace_urls] returns the text with the asset URLs rewritten
    and prints what the residual-URL scan finds in that text: nothing
    when the site URL does not occur in it, and otherwise the one line
    [Found URL: ] with the URL at its first occurrence and the longest run
    of letters, digits, slashes and hyphens behind it.  In the example the
    run ends at the comma, and the second URL is not reported. *)
Theorem replace_urls_diagnostic :
  (forall content url : string,
      exists lines,
        replace_urls content url
        = (Ok (re_sub (url_step url) content), lines) /\
        residual_lines url (re_sub (url_step url) content) lines) /\
  replace_urls
    "See https://example.com/about-us, and https://example.com/x"
    "https://example.com"
  = (Ok "See https://example.com/about-us, and https://example.com/x",
     ["Found URL: https://example.com/about-us"]) /\
  replace_urls "Visit https://example.com." "https://example.com"
  = (Ok "Visit https://example.com.", ["Found URL: https://example.com"]).
Proof.
  split; [|split; vm_compute; reflexivity].
  intros content url. unfold replace_urls.
  pose proof (re_search_site_url url (re_sub (url_step url) content)) as H.
  destruct (re_search (match_site_url url) (re_sub (url_step url) content));
    eexists; split; try reflexivity; exact H.
Qed.

Lemma occurs_contains (url p q : string) : contains url (p ++ url ++ q) = true.
Proof. apply contains_append_l, contains_starts_with. Qed.

Lemma url_step_needs_url (url s : string) :
  starts_with url s = false -> url_step url s = None.
Proof.
  unfold starts_with, url_step, match_upload.
  now destruct (lit url s).
Qed.

Lemma re_search_url_step (url s : string) :
  contains url s = false -> re_search (url_step url) s = None.
Proof.
  induction s as [|c s IH]; cbn [contains re_search]; intros H;
    apply orb_false_iff in H; destruct H as [H1 H2];
    rewrite (url_step_needs_url _ _ H1); auto.
Qed.

(** X5: a text in which the site URL does not occur is returned as it
    is, and nothing is printed. *)
Theorem replace_urls_without_site_url (content url : string) :
  contains url content = false ->
  replace_urls content url = (Ok content, []).
Proof.
  intros H.
  assert (E : re_sub (url_step url) content = content)
    by (apply re_sub_no_match;
        [apply url_step_consuming|now apply re_search_url_step]).
  unfold replace_urls. rewrite E.
  destruct (re_search_site_url url content)
    as [[_ Hs]|[pre [taken [rest [Ht _]]]]].
  - destruct (re_search (match_site_url url) content);
      [discriminate|reflexivity].
  - rewrite Ht, occurs_contains in H. discriminate.
Qed.

Lemma replace_urls_without_site_url_witness :
  replace_urls "See http://other.org/wp-content/uploads/a.png"
    "https://example.com"
  = (Ok "See http://other.org/wp-content/uploads/a.png", []).
Proof.
  apply (replace_urls_without_site_url
           "See http://other.org/wp-content/uploads/a.png"
           "https://example.com").
  reflexivity.
Defined.

(** ** Caption shortcodes, continued *)

Lemma has_char_append (c : ascii) (a b : string) :
  has_char c (a ++ b) = has_char c a || has_char c b.
Proof.
  induction a as [|x a IH]; cbn [append has_char orb]; [reflexivity|].
  rewrite IH. apply orb_assoc.
Qed.

(** A lazy group stops at the first place where what follows can match:
    when what follows must start with [c], a group without [c] is taken
    whole. *)
Lemma lazy_any_first {R : Type} (c : ascii) (k : string -> option R)
  (g s : string) (r : R) :
  (forall x t, Ascii.eqb c x = false -> k (String x t) = None) ->
  has_char c g = false ->
  k s = Some r ->
  lazy_any k (g ++ s) = Some (g, r).
Proof.
  intros Hk. induction g as [|x g IH]; intros Hg Hs.
  - cbn [append]. destruct s; cbn [lazy_any]; now rewrite Hs.
  - cbn [has_char] in Hg. apply orb_false_iff in Hg. destruct Hg as [Hx Hg].
    cbn [append lazy_any]. rewrite (Hk _ _ Hx). now rewrite IH.
Qed.

Lemma lit_other_char (c : ascii) (p : string) (x : ascii) (t : string) :
  Ascii.eqb c x = false -> lit (String c p) (String x t) = None.
Proof. intros H. cbn [lit]. now rewrite H. Qed.

Lemma lazy_any_cons {R : Type} (k : string -> option R) (c : ascii)
  (s : string) :
  lazy_any k (String c s)
  = match k (String c s) with
    | Some r => Some (EmptyString, r)
    | None => match lazy_any k s with
              | Some (g, r) => Some (String c g, r)
              | None => None
              end
    end.
Proof. reflexivity. Qed.

(** A literal that starts before a character it does not hold ends
    before it. *)
Lemma lit_before_char (p u : string) (d : ascii) (t r : string) :
  has_char d p = false -> lit p (u ++ String d t) = Some r ->
  exists r', lit p u = Some r'.
Proof.
  revert u. induction p as [|a p IH]; intros u Hd H.
  - now exists u.
  - cbn [has_char] in Hd. apply orb_false_iff in Hd. destruct Hd as [Ha Hp].
    destruct u as [|x u]; cbn [append lit] in H |- *.
    + rewrite Ascii.eqb_sym in Ha. rewrite Ha in H. discriminate.
    + destruct (Ascii.eqb a x); [|discriminate]. now apply IH.
Qed.

(** A lazy group before a literal whose first character occurs only at
    its start: the group ends at the first occurrence of the literal. *)
Lemma lazy_any_until (c : ascii) (p g t : string) :
  has_char c p = false -> contains (String c p) g = false ->
  lazy_any (lit (String c p)) (g ++ String c p ++ t) = Some (g, t).
Proof.
  intros Hp. induction g as [|x g IH]; intros Hg.
  - cbn [append]. rewrite lazy_any_cons.
    change (String c (p ++ t)) with (String c p ++ t).
    now rewrite lit_append.
  - cbn [contains] in Hg. apply orb_false_iff in Hg. destruct Hg as [Hx Hg].
    change (String x g ++ String c p ++ t)
      with (String x (g ++ String c p ++ t)).
    rewrite lazy_any_cons.
    destruct (lit (String c p) (String x (g ++ String c p ++ t)))
      as [r|] eqn:E.
    + exfalso. cbn [lit] in E. destruct (Ascii.eqb c x) eqn:Ex; [|discriminate].
      change (String c p ++ t) with (String c (p ++ t)) in E.
      destruct (lit_before_char _ _ _ _ _ Hp E) as [r' E'].
      unfold starts_with in Hx. cbn [lit] in Hx. rewrite Ex, E' in Hx.
      discriminate.
    + now rewrite IH.
Qed.

Lemma has_char_contains (c : ascii) (p g : string) :
  has_char c g = false -> contains (String c p) g = false.
Proof.
  induction g as [|x g IH]; intros H; [reflexivity|].
  cbn [has_char] in H. apply orb_false_iff in H. destruct H as [Hx Hg].
  cbn [contains]. unfold starts_with. cbn [lit]. rewrite Hx.
  now apply IH.
Qed.

(** The pattern takes a shortcode whose attributes hold no quote and
    whose inner block does not hold the closing text as one match. *)
Lemma match_caption_shortcode (id al w inner rest : string) :
  has_char dq id = false -> has_char dq al = false ->
  has_char dq w = false -> contains caption_close inner = false ->
  match_caption (shortcode id al w inner ++ rest)
  = Some ({| cm_id := id; cm_align := al; cm_width := w;
             cm_inner := inner |}, rest).
Proof.
  intros Hid Hal Hw Hin. unfold shortcode, cm_group0.
  cbn [cm_id cm_align cm_width cm_inner].
  repeat rewrite append_assoc. unfold match_caption. rewrite lit_append.
  assert (H4 : lazy_any (lit caption_close) (inner ++ caption_close ++ rest)
               = Some (inner, rest)).
  { now apply (lazy_any_until "[" "/caption]"). }
  assert (H3 : lazy_any
                 (fun s6 => match lit caption_bracket s6 with
                            | None => None
                            | Some s7 => lazy_any (lit caption_close) s7
                            end)
                 (w ++ caption_bracket ++ inner ++ caption_close ++ rest)
               = Some (w, (inner, rest))).
  { apply (lazy_any_first dq); [|assumption|now rewrite lit_append].
    intros x t Hx. unfold caption_bracket, DQ. cbn [append].
    now rewrite lit_other_char. }
  assert (H2 : lazy_any
                 (fun s4 =>
                    match lit caption_width s4 with
                    | None => None
                    | Some s5 =>
                        lazy_any
                          (fun s6 => match lit caption_bracket s6 with
                                     | None => None
                                     | Some s7 => lazy_any (lit caption_close) s7
                                     end) s5
                    end)
                 (al ++ caption_width ++ w ++ caption_bracket ++ inner
                  ++ caption_close ++ rest)
               = Some (al, (w, (inner, rest)))).
  { apply (lazy_any_first dq); [|assumption|now rewrite lit_append].
    intros x t Hx. unfold caption_width, DQ. cbn [append].
    now rewrite lit_other_char. }
  rewrite (lazy_any_first dq _ id _ (al, (w, (inner, rest)))).
  - reflexivity.
  - intros x t Hx. unfold caption_align, DQ. cbn [append].
    now rewrite lit_other_char.
  - assumption.
  - now rewrite lit_append.
Qed.

(** X6: a caption shortcode whose inner block does not start with an
    image tag is left as it is, and the rewrite goes on behind it. *)
Theorem caption_without_image_untouched (id al w inner rest : string) :
  has_char dq id = false -> has_char dq al = false ->
  has_char dq w = false -> has_char "[" inner = false ->
  starts_with "<img" (strip inner) = false ->
  replace_shortcode_captions (shortcode id al w inner ++ rest)
  = shortcode id al w inner ++ replace_shortcode_captions rest.
Proof.
  intros Hid Hal Hw Hin Himg. unfold replace_shortcode_captions.
  apply re_sub_match; [exact caption_step_consuming|].
  unfold caption_step.
  rewrite match_caption_shortcode
    by (assumption || now apply has_char_contains).
  unfold replace_caption, match_inner. cbn [cm_inner].
  unfold starts_with in Himg.
  now destruct (lit "<img" (strip inner)).
Qed.

Lemma caption_without_image_untouched_witness :
  replace_shortcode_captions
    (shortcode "a1" "alignleft" "300" "just words" ++ " and more")
  = shortcode "a1" "alignleft" "300" "just words"
    ++ replace_shortcode_captions " and more".
Proof.
  apply (caption_without_image_untouched "a1" "alignleft" "300"
           "just words" " and more"); reflexivity.
Defined.

Lemma rstrip_cons_nonempty (c : ascii) (s : string) :
  rstrip s <> EmptyString -> rstrip (String c s) = String c (rstrip s).
Proof. cbn [rstrip]. destruct (rstrip s); [contradiction|reflexivity]. Qed.

Lemma rstrip_nonspace (c : ascii) (s : string) :
  is_space c = false -> rstrip (String c s) = String c (rstrip s).
Proof. intros H. cbn [rstrip]. rewrite H. now destruct (rstrip s). Qed.

Lemma rstrip_before_nonspace (a : string) (c : ascii) (b : string) :
  is_space c = false ->
  rstrip (a ++ String c b) = a ++ String c (rstrip b).
Proof.
  intros H. induction a as [|x a IH]; cbn [append].
  - now apply rstrip_nonspace.
  - rewrite rstrip_cons_nonempty; rewrite IH; [reflexivity|].
    destruct a; discriminate.
Qed.

Lemma rstrip_idempotent (s : string) : rstrip (rstrip s) = rstrip s.
Proof.
  induction s as [|c s IH]; [reflexivity|].
  cbn [rstrip]. destruct (rstrip s) as [|d r] eqn:E.
  - destruct (is_space c) eqn:Hc; [reflexivity|].
    cbn [rstrip]. now rewrite Hc.
  - rewrite rstrip_cons_nonempty; rewrite IH; [reflexivity|discriminate].
Qed.

Lemma lstrip_rstrip (s : string) : lstrip (rstrip s) = rstrip (lstrip s).
Proof.
  induction s as [|c s IH]; [reflexivity|].
  destruct (is_space c) eqn:Hc.
  - cbn [lstrip]. rewrite Hc. cbn [rstrip]. rewrite Hc.
    destruct (rstrip s) as [|d r] eqn:E.
    + rewrite <- IH. reflexivity.
    + cbn [lstrip]. rewrite Hc. exact IH.
  - cbn [lstrip]. rewrite Hc. rewrite rstrip_nonspace by assumption.
    cbn [lstrip]. now rewrite Hc.
Qed.

Lemma strip_rstrip (s : string) : strip (rstrip s) = strip s.
Proof.
  unfold strip. rewrite lstrip_rstrip. apply rstrip_idempotent.
Qed.

(** The end of a trimmed text is the only place where [$] matches. *)
Lemma lazy_any_at_end (s : string) :
  lazy_any at_end (rstrip s) = Some (rstrip s, tt).
Proof.
  induction s as [|c s IH]; [reflexivity|].
  cbn [rstrip]. destruct (rstrip s) as [|d r] eqn:E.
  - destruct (is_space c) eqn:Hc; [reflexivity|].
    rewrite lazy_any_cons. unfold at_end at 1.
    assert (Hn : String.eqb (String c EmptyString) EmptyString
                 || String.eqb (String c EmptyString) NL = false).
    { unfold NL. cbn [String.eqb orb].
      destruct (Ascii.eqb_spec c nl) as [->|]; [discriminate Hc|reflexivity]. }
    rewrite Hn. reflexivity.
  - rewrite lazy_any_cons. unfold at_end at 1.
    assert (Hn : String.eqb (String c (String d r)) EmptyString
                 || String.eqb (String c (String d r)) NL = false).
    { unfold NL. cbn [String.eqb orb]. now destruct (Ascii.eqb c nl). }
    rewrite Hn. now rewrite IH.
Qed.

(** The group of the image tag ends at the first [/>]. *)
Lemma lazy_any_image {R : Type} (k : string -> option R)
  (attrs t : string) (r : R) :
  has_char ">" attrs = false ->
  k t = Some r ->
  lazy_any (fun s2 => match lit "/>" s2 with
                      | None => None
                      | Some s3 => k s3
                      end) (attrs ++ "/>" ++ t)
  = Some (attrs, r).
Proof.
  intros Ha Hk. induction attrs as [|x a IH].
  - cbn [append]. rewrite lazy_any_cons. cbv beta.
    cbn [lit Ascii.eqb Bool.eqb]. now rewrite Hk.
  - cbn [has_char] in Ha. apply orb_false_iff in Ha. destruct Ha as [Hx Ha].
    specialize (IH Ha).
    change (String x a ++ "/>" ++ t) with (String x (a ++ "/>" ++ t)).
    rewrite lazy_any_cons. cbv beta.
    assert (E : lit "/>" (String x (a ++ "/>" ++ t)) = None).
    { cbn [lit]. destruct (Ascii.eqb "/" x); [|reflexivity].
      destruct a as [|y a]; cbn [append lit]; [reflexivity|].
      cbn [has_char] in Ha. apply orb_false_iff in Ha.
      destruct Ha as [Hy _]. now rewrite Hy. }
    rewrite E. now rewrite IH.
Qed.

Lemma strip_image (attrs caption : string) :
  strip ("<img" ++ attrs ++ "/>" ++ caption)
  = "<img" ++ attrs ++ "/>" ++ rstrip caption.
Proof.
  assert (E : forall t, "<img" ++ attrs ++ "/>" ++ t
                        = String "<" ("img" ++ attrs ++ "/") ++ String ">" t).
  { intros t. cbn [append]. do 4 f_equal. now rewrite append_assoc. }
  rewrite !E. unfold strip.
  change (lstrip (String "<" ("img" ++ attrs ++ "/") ++ String ">" caption))
    with (String "<" ("img" ++ attrs ++ "/") ++ String ">" caption).
  now apply rstrip_before_nonspace.
Qed.

(** X7: a caption shortcode that holds an image tag and a caption text is
    replaced by the figure with the identifier, the alignment as class,
    the width in pixels, the image tag and the trimmed caption, and the
    rewrite goes on behind it.  The attributes hold no quote, the image
    tag no closing angle bracket before its end, and neither it nor the
    caption an opening bracket. *)
Theorem caption_with_image_expanded (id al w attrs caption rest : string) :
  has_char dq id = false -> has_char dq al = false ->
  has_char dq w = false ->
  has_char ">" attrs = false -> has_char "[" attrs = false ->
  has_char "[" caption = false ->
  replace_shortcode_captions
    (shortcode id al w ("<img" ++ attrs ++ "/>" ++ caption) ++ rest)
  = ("<figure id=" ++ DQ ++ id ++ DQ ++ " class=" ++ DQ ++ al ++ DQ
     ++ " style=" ++ DQ ++ "width:" ++ w ++ "px" ++ DQ ++ ">" ++ NL
     ++ "  " ++ ("<img" ++ attrs ++ "/>") ++ NL
     ++ "  <figcaption>" ++ strip caption ++ "</figcaption>" ++ NL
     ++ "</figure>" ++ NL)
    ++ replace_shortcode_captions rest.
Proof.
  intros Hid Hal Hw Ha1 Ha2 Hc. unfold replace_shortcode_captions.
  apply re_sub_match; [exact caption_step_consuming|].
  unfold caption_step.
  assert (Hin : has_char "[" ("<img" ++ attrs ++ "/>" ++ caption) = false).
  { rewrite !has_char_append, Ha2, Hc. reflexivity. }
  rewrite match_caption_shortcode
    by (assumption || now apply has_char_contains).
  unfold replace_caption. cbn [cm_id cm_align cm_width cm_inner].
  assert (Hs : strip ("<img" ++ attrs ++ "/>" ++ caption)
               = "<img" ++ attrs ++ "/>" ++ rstrip caption)
    by apply strip_image.
  rewrite Hs. unfold match_inner. rewrite lit_append.
  rewrite (lazy_any_image (lazy_any at_end) attrs (rstrip caption)
             (rstrip caption, tt) Ha1 (lazy_any_at_end caption)).
  assert (Hi : strip ("<img" ++ attrs ++ "/>") = "<img" ++ attrs ++ "/>").
  { pose proof (strip_image attrs EmptyString) as H.
    cbn [rstrip] in H. exact H. }
  rewrite Hi, strip_rstrip. reflexivity.
Qed.

Lemma caption_with_image_expanded_witness :
  replace_shortcode_captions
    (shortcode "attachment_7" "alignleft" "300"
       ("<img" ++ " src=x.jpg " ++ "/>" ++ " A caption ") ++ " after")
  = ("<figure id=" ++ DQ ++ "attachment_7" ++ DQ ++ " class=" ++ DQ
     ++ "alignleft" ++ DQ
     ++ " style=" ++ DQ ++ "width:" ++ "300" ++ "px" ++ DQ ++ ">" ++ NL
     ++ "  " ++ ("<img" ++ " src=x.jpg " ++ "/>") ++ NL
     ++ "  <figcaption>" ++ strip " A caption " ++ "</figcaption>" ++ NL
     ++ "</figure>" ++ NL)
    ++ replace_shortcode_captions " after".
Proof.
  apply (caption_with_image_expanded "attachment_7" "alignleft" "300"
           " src=x.jpg " " A caption " " after"); reflexivity.
Defined.

(** ** The parser, continued *)

Section ParserMore.

Variable lib : DateLib.

(** What [parse_wxr] has run when it returns. *)
Lemma parse_wxr_inv root tz r out :
  parse_wxr lib root tz = (Ok r, out) ->
  exists author_map st,
    for_each author_body (findall_desc (wp "author") root) []
    = (Ok author_map, []) /\
    for_each (item_body lib author_map tz) (findall_desc "item" root)
      {| l_posts := []; l_pages := []; l_dates := [] |} = (Ok st, out) /\
    posts r = l_posts st /\ pages r = l_pages st /\
    date_range r = format_date_range lib (l_dates st).
Proof.
  unfold parse_wxr. destruct (find_child "channel" root) as [ch|];
    [|discriminate].
  rewrite bind_lift.
  destruct (text_of (find_desc (wp "base_blog_url") ch)) as [u|];
    [|discriminate].
  intros H. apply bind_ok_inv in H. destruct H as [d [o1 [o2 [Ha [H ->]]]]].
  pose proof (author_loop_silent (findall_desc (wp "author") root) []) as S.
  rewrite Ha in S. cbn in S. subst o1.
  apply bind_ok_inv in H. destruct H as [st [o3 [o4 [Hl [H ->]]]]].
  inversion H; subst; clear H. cbn [posts pages date_range].
  exists d, st. rewrite app_nil_r. auto.
Qed.

Lemma filter_satisfies {A B : Type} (f : A -> bool) (R : A -> B -> Prop)
  (P : B -> Prop) (l : list A) :
  (forall a b, f a = true -> R a b -> P b) ->
  forall l', Forall2 R (filter f l) l' -> Forall P l'.
Proof.
  intros H. induction l as [|a l IH]; intros l' F; cbn [filter] in F.
  - inversion F. constructor.
  - destruct (f a) eqn:E; [|now apply IH].
    inversion F; subst. constructor; [eapply H; eassumption|now apply IH].
Qed.

Lemma retained_split (items : list Element) :
  List.length (filter (retained_as "post") items)
  + List.length (filter (retained_as "page") items)
  = List.length (filter retained items).
Proof.
  induction items as [|item items IH]; [reflexivity|]. cbn [filter].
  destruct (retained item) eqn:Hr.
  - destruct (retained_cases item Hr) as [[-> [-> _]]|[-> [-> _]]];
      cbn [List.length]; lia.
  - now rewrite !(not_retained_as item _ Hr).
Qed.

Lemma built_type author_map tz kind item post :
  retained_as kind item = true ->
  built lib author_map tz item post -> p_type post = kind.
Proof.
  intros Hk [dates [pd [cs [_ [_ ->]]]]]. cbn [post_data_of p_type].
  unfold retained_as in Hk. apply andb_true_iff in Hk. destruct Hk as [_ Hk].
  destruct (item_type item) as [t|]; [|discriminate].
  cbn in Hk. apply String.eqb_eq in Hk. now subst.
Qed.

(** X8: when the parser returns, the posts and the pages together are as
    many as the items that are published and of type post or page; every
    entry of the posts sequence has the type post and every entry of the
    pages sequence the type page. *)
Theorem posts_and_pages_partition (root : Element) (tz : string) (r : Export)
  (out : list string) :
  parse_wxr lib root tz = (Ok r, out) ->
  List.length (posts r) + List.length (pages r)
  = List.length (filter retained (findall_desc "item" root)) /\
  Forall (fun p => p_type p = "post") (posts r) /\
  Forall (fun p => p_type p = "page") (pages r).
Proof.
  intros E. apply parse_wxr_ok in E. destruct E as [d [_ [Fp Fg]]].
  split; [|split].
  - rewrite <- (Forall2_length Fp), <- (Forall2_length Fg).
    apply retained_split.
  - eapply filter_satisfies; [|exact Fp]. intros a b Ha Hb.
    eapply built_type; eassumption.
  - eapply filter_satisfies; [|exact Fg]. intros a b Ha Hb.
    eapply built_type; eassumption.
Qed.

Lemma find_snoc {A : Type} (f : A -> bool) (l : list A) (a : A) :
  find f (l ++ [a])
  = match find f l with
    | Some x => Some x
    | None => if f a then Some a else None
    end.
Proof.
  induction l as [|x l IH]; cbn [app find]; [reflexivity|].
  now destruct (f x).
Qed.

(** The author map after the loop: the last record with the login. *)
Lemma author_loop_get authors : forall acc d o,
  for_each author_body authors acc = (Ok d, o) ->
  forall k default,
    dict_get d k default
    = match find (fun a => key_eqb k (author_login_of a)) (rev authors) with
      | Some a => author_name_of a
      | None => dict_get acc k default
      end.
Proof.
  induction authors as [|a authors IH]; intros acc d o H k default.
  - inversion H; subst. reflexivity.
  - cbn [for_each] in H. apply bind_ok_inv in H.
    destruct H as [acc1 [o1 [o2 [Ha [Hl _]]]]].
    rewrite (IH _ _ _ Hl k default). cbn [rev]. rewrite find_snoc.
    destruct (find (fun a0 => key_eqb k (author_login_of a0)) (rev authors));
      [reflexivity|].
    unfold author_body in Ha. unfold author_login_of, author_name_of.
    destruct (find_child (wp "author_login") a) as [e1|] eqn:E1;
      [|discriminate].
    destruct (find_child (wp "author_display_name") a) as [e2|] eqn:E2;
      [|discriminate].
    rewrite !bind_lift in Ha. cbn [text_of] in Ha. rewrite !bind_lift in Ha.
    inversion Ha; subst. unfold dict_set. cbn [dict_get].
    change (match k with
            | Some a0 => match text e1 with
                         | Some b => String.eqb a0 b
                         | None => false
                         end
            | None => match text e1 with
                      | Some _ => false
                      | None => true
                      end
            end) with (key_eqb k (text e1)).
    destruct (key_eqb k (text e1)); [now rewrite E2|reflexivity].
Qed.

(** X9: when the parser returns, the author of every post and page is the
    display name of the last author record whose login is the creator of
    the item, and [Unknown Author] when the item has no creator or no
    record has its login. *)
Theorem authors_resolved (root : Element) (tz : string) (r : Export)
  (out : list string) :
  parse_wxr lib root tz = (Ok r, out) ->
  Forall2 (fun item post => p_author post = resolved_author root item)
    (filter (retained_as "post") (findall_desc "item" root)) (posts r) /\
  Forall2 (fun item post => p_author post = resolved_author root item)
    (filter (retained_as "page") (findall_desc "item" root)) (pages r).
Proof.
  intros E. apply parse_wxr_inv in E.
  destruct E as [d [st [Ha [Hl [Hp [Hg _]]]]]].
  apply item_loop_ok in Hl. destruct Hl as [_ [ps [gs [Ep [Eg [Fp Fg]]]]]].
  cbn in Ep, Eg. rewrite Hp, Hg, Ep, Eg.
  assert (Hb : forall item post,
             built lib d tz item post ->
             p_author post = resolved_author root item).
  { intros item post [dates [pd [cs [_ [_ ->]]]]].
    cbn [post_data_of p_author]. unfold resolved_author.
    destruct (find_desc (dc "creator") item) as [c|]; [|reflexivity].
    now rewrite (author_loop_get _ _ _ _ Ha). }
  split; (eapply Forall2_impl; [|eassumption]); exact Hb.
Qed.

(** X10: an export without a channel, or whose channel has no base URL,
    makes the parser raise [AttributeError] before it prints anything. *)
Theorem missing_channel_or_url_fatal (root : Element) (tz : string) :
  match find_child "channel" root with
  | None => true
  | Some channel => negb (found (find_desc (wp "base_blog_url") channel))
  end = true ->
  parse_wxr lib root tz = (Raise AttributeError, []).
Proof.
  unfold parse_wxr. destruct (find_child "channel" root) as [ch|];
    [|reflexivity].
  destruct (find_desc (wp "base_blog_url") ch); [discriminate|reflexivity].
Qed.

(** X11: a retained item with a publication date (other than the words
    [Unknown Date]) makes the parser raise when the zone asked for is not
    known. *)
Theorem unknown_zone_aborts (root : Element) (tz : string)
  (item pub_date : Element) :
  In item (findall_desc "item" root) ->
  retained item = true ->
  find_child "pubDate" item = Some pub_date ->
  opt_eqb (text pub_date) "Unknown Date" = false ->
  timezone lib tz = None ->
  exists e out, parse_wxr lib root tz = (Raise e, out).
Proof.
  intros Hi Hr Hp Hu Hz. apply (parse_wxr_raises lib tz root item Hi).
  intros d st. rewrite (item_body_retained lib d tz item st Hr).
  unfold item_pub_date. rewrite Hp, Hu. rewrite bind_lift.
  destruct (py_strptime lib (text pub_date) pub_date_format);
    [|cbn; eauto].
  rewrite bind_lift. unfold py_timezone. rewrite Hz. cbn. eauto.
Qed.

(** A date that is there and neither is the words [Unknown Date] nor
    can be parsed and converted makes the computation of the date
    raise. *)
Lemma item_pub_date_raises (tz : string) (item : Element)
  (dates : list datetime) :
  pub_date_absent item || pub_date_parses lib tz item = false ->
  exists e o, item_pub_date lib tz item dates = (Raise e, o).
Proof.
  unfold pub_date_absent, pub_date_parses, converts, item_pub_date.
  destruct (find_child "pubDate" item) as [p|]; cbn [found negb orb];
    [|discriminate].
  destruct (opt_eqb (text p) "Unknown Date"); cbn [orb]; [discriminate|].
  unfold py_strptime, py_timezone. rewrite bind_lift.
  destruct (text p) as [s|]; [|eauto].
  destruct (strptime lib s pub_date_format) as [d|]; [|eauto].
  rewrite bind_lift.
  destruct (timezone lib tz) as [z|]; [|eauto].
  rewrite bind_lift.
  destruct (astimezone lib d z); [discriminate|eauto].
Qed.

(** A comment whose date cannot be converted makes its round raise. *)
Lemma comment_body_unconverted (c : Element) (acc : list Comment) :
  comment_parses lib c && comment_converts lib c = false ->
  exists e o, comment_body lib c acc = (Raise e, o).
Proof.
  destruct (comment_parses lib c) eqn:Hp;
    [|intros _; now apply comment_body_raises].
  cbn [andb]. revert Hp.
  unfold comment_body, comment_parses, comment_converts, converts. mstep.
  destruct (find_desc (wp "comment_author") c) as [a|]; mstep; [|eauto].
  destruct (find_desc (wp "comment_content") c) as [b|]; mstep; [|eauto].
  destruct (find_desc (wp "comment_date") c) as [d|]; mstep; [|eauto].
  destruct (find_desc (wp "comment_approved") c) as [p|]; mstep; [|eauto].
  cbn [found andb]. unfold py_strptime, py_timezone.
  destruct (text d) as [s|]; mstep; [|eauto].
  destruct (strptime lib s comment_date_format) as [dt|]; mstep; [|eauto].
  destruct (timezone lib comment_zone) as [z|]; mstep; [|eauto].
  destruct (astimezone lib dt z); mstep; [discriminate|eauto].
Qed.

Lemma forallb_false {A : Type} (f : A -> bool) (l : list A) :
  forallb f l = false -> exists x, In x l /\ f x = false.
Proof.
  induction l as [|a l IH]; cbn [forallb]; [discriminate|].
  destruct (f a) eqn:E; cbn [andb].
  - intros H. destruct (IH H) as [x [Hin Hx]]. exists x. split; [now right|].
    exact Hx.
  - intros _. exists a. split; [now left|exact E].
Qed.

(** X19: the dates have to be in order for the parser to return.  A
    retained item whose publication date is there and is neither the
    words [Unknown Date] nor a date that parses and can be converted to
    the zone asked for, or one of whose comments has a field missing or a
    date that does not parse or cannot be converted to the zone of the
    comments, makes [parse_wxr] raise.  A date cannot be converted when
    the zone is unknown or the converted date would leave the years the
    library can hold. *)
Theorem date_failure_aborts (root : Element) (tz : string) (item : Element) :
  In item (findall_desc "item" root) ->
  retained item = true ->
  pub_date_absent item || pub_date_parses lib tz item = false \/
  forallb (fun c => comment_parses lib c && comment_converts lib c)
          (findall_desc (wp "comment") item) = false ->
  exists e out, parse_wxr lib root tz = (Raise e, out).
Proof.
  intros Hi Hr H. apply (parse_wxr_raises lib tz root item Hi).
  intros d st. rewrite (item_body_retained lib d tz item st Hr).
  destruct H as [H|H].
  - destruct (item_pub_date_raises tz item (l_dates st) H) as [e [o E]].
    rewrite E. cbn. eauto.
  - destruct (item_pub_date lib tz item (l_dates st)) as [[pd|e] o] eqn:E;
      [|cbn; eauto].
    cbn [bind].
    destruct (forallb_false _ _ H) as [c [Hin Hc]].
    destruct (for_each_raise (comment_body lib) _ c Hin
                (fun acc => comment_body_unconverted c acc Hc) [])
      as [e [o' E']].
    unfold item_comments. rewrite E'. cbn. eauto.
Qed.

End ParserMore.

Lemma date_failure_aborts_witness :
  (exists e out,
      parse_wxr ref_lib
        (rss [item_xml "Late" "post" "publish"
                (Some "Fri, 31 Dec 9999 23:59:59 +0000") []])
        "Asia/Tokyo" = (Raise e, out)) /\
  (exists e out,
      parse_wxr ref_lib
        (rss [item_xml "Early" "post" "publish" None
                [comment_xml "Bob" "First" "0001-01-01 00:00:00" "1"]])
        "UTC" = (Raise e, out)).
Proof.
  split.
  - apply (date_failure_aborts ref_lib _ "Asia/Tokyo"
             (item_xml "Late" "post" "publish"
                (Some "Fri, 31 Dec 9999 23:59:59 +0000") [])).
    + vm_compute. left. reflexivity.
    + reflexivity.
    + left. vm_compute. reflexivity.
  - apply (date_failure_aborts ref_lib _ "UTC"
             (item_xml "Early" "post" "publish" None
                [comment_xml "Bob" "First" "0001-01-01 00:00:00" "1"])).
    + vm_compute. left. reflexivity.
    + reflexivity.
    + right. vm_compute. reflexivity.
Defined.

Lemma posts_and_pages_partition_witness :
  let r := value_of no_export (parse_wxr ref_lib example_export "UTC") in
  List.length (posts r) + List.length (pages r)
  = List.length (filter retained (findall_desc "item" example_export)) /\
  Forall (fun p => p_type p = "post") (posts r) /\
  Forall (fun p => p_type p = "page") (pages r).
Proof.
  intros r.
  apply (posts_and_pages_partition ref_lib example_export "UTC" r
           (snd (parse_wxr ref_lib example_export "UTC"))).
  vm_compute. reflexivity.
Defined.

Lemma authors_resolved_witness :
  let r := value_of no_export (parse_wxr ref_lib authors_export "UTC") in
  Forall2 (fun item post => p_author post = resolved_author authors_export item)
    (filter (retained_as "post") (findall_desc "item" authors_export))
    (posts r) /\
  Forall2 (fun item post => p_author post = resolved_author authors_export item)
    (filter (retained_as "page") (findall_desc "item" authors_export))
    (pages r).
Proof.
  intros r.
  apply (authors_resolved ref_lib authors_export "UTC" r
           (snd (parse_wxr ref_lib authors_export "UTC"))).
  vm_compute. reflexivity.
Defined.

Lemma missing_channel_or_url_fatal_witness :
  parse_wxr ref_lib (Elem "rss" None [Elem "channel" None [dated_post]]) "UTC"
  = (Raise AttributeError, []).
Proof.
  apply (missing_channel_or_url_fatal ref_lib
           (Elem "rss" None [Elem "channel" None [dated_post]]) "UTC").
  reflexivity.
Defined.

Lemma unknown_zone_aborts_witness :
  exists e out,
    parse_wxr ref_lib (rss [dated_post]) "Mars/Olympus" = (Raise e, out).
Proof.
  apply (unknown_zone_aborts ref_lib (rss [dated_post]) "Mars/Olympus"
           dated_post (leaf "pubDate" "Fri, 01 Jan 2021 03:05:00 +0000")).
  - vm_compute. left. reflexivity.
  - reflexivity.
  - reflexivity.
  - reflexivity.
  - reflexivity.
Defined.

(** ** The date range *)

Section DateRange.

Variable lib : DateLib.

Lemma item_pub_date_dates tz item dates pd o :
  item_pub_date lib tz item dates = (Ok pd, o) ->
  snd pd = (dates ++ date_list (fst pd))%list.
Proof.
  unfold item_pub_date.
  destruct (find_child "pubDate" item) as [p|].
  - destruct (opt_eqb (text p) "Unknown Date").
    + intros H. inversion H; subst. cbn. now rewrite app_nil_r.
    + rewrite bind_lift.
      destruct (py_strptime lib (text p) pub_date_format) as [d|];
        [|discriminate].
      rewrite bind_lift.
      destruct (py_timezone lib tz) as [z|]; [|discriminate].
      rewrite bind_lift. destruct (astimezone lib d z); [|discriminate].
      intros H. inversion H; subst. reflexivity.
  - intros H. inversion H; subst. cbn. now rewrite app_nil_r.
Qed.

(** One round of the item loop and the list of dates. *)
Lemma item_body_dates author_map tz item st st' out :
  item_body lib author_map tz item st = (Ok st', out) ->
  exists ps gs,
    l_posts st' = (l_posts st ++ ps)%list /\
    l_pages st' = (l_pages st ++ gs)%list /\
    l_dates st' = (l_dates st ++ dates_of ps ++ dates_of gs)%list.
Proof.
  intros H. destruct (retained item) eqn:Hr.
  - rewrite (item_body_retained _ _ _ _ _ Hr) in H.
    apply bind_ok_inv in H. destruct H as [pd [o1 [o2 [Hpd [H _]]]]].
    apply bind_ok_inv in H. destruct H as [cs [o3 [o4 [_ [H _]]]]].
    apply item_pub_date_dates in Hpd. cbn zeta in H.
    destruct (opt_eqb (item_type item) "post"); inversion H; subst; clear H;
      cbn [l_posts l_pages l_dates].
    + exists [post_data_of author_map item (fst pd) cs], [].
      unfold dates_of. cbn [flat_map post_data_of p_pub_date].
      rewrite Hpd, !app_nil_r. auto.
    + exists [], [post_data_of author_map item (fst pd) cs].
      unfold dates_of. cbn [flat_map post_data_of p_pub_date].
      rewrite Hpd, !app_nil_r. auto.
  - exists [], []. cbn. rewrite !app_nil_r.
    destruct (unpublished item) eqn:Hu.
    + rewrite (item_body_unpublished _ _ _ _ _ Hu) in H.
      inversion H; now subst.
    + assert (Hs : supported item = false).
      { unfold retained, unpublished in *.
        destruct (supported item); [|reflexivity].
        cbn in *. rewrite Hr in Hu. discriminate. }
      rewrite (item_body_ignored _ _ _ _ _ Hs) in H. inversion H; now subst.
Qed.

Lemma dates_of_app (a b : list Post) :
  dates_of (a ++ b) = (dates_of a ++ dates_of b)%list.
Proof. apply flat_map_app. Qed.

Lemma item_loop_dates author_map tz items : forall st st' out,
  for_each (item_body lib author_map tz) items st = (Ok st', out) ->
  exists ps gs,
    l_posts st' = (l_posts st ++ ps)%list /\
    l_pages st' = (l_pages st ++ gs)%list /\
    Permutation (l_dates st')
      (l_dates st ++ dates_of ps ++ dates_of gs)%list.
Proof.
  induction items as [|item items IH]; intros st st' out H.
  - inversion H; subst. exists [], []. cbn. rewrite !app_nil_r. auto.
  - cbn [for_each] in H. apply bind_ok_inv in H.
    destruct H as [st1 [o1 [o2 [Hb [Hl _]]]]].
    apply item_body_dates in Hb. destruct Hb as [ps1 [gs1 [P1 [G1 D1]]]].
    apply IH in Hl. destruct Hl as [ps2 [gs2 [P2 [G2 D2]]]].
    exists (ps1 ++ ps2)%list, (gs1 ++ gs2)%list.
    rewrite P2, G2, P1, G1, <- !app_assoc. split; [reflexivity|].
    split; [reflexivity|].
    rewrite D2, D1, !dates_of_app, <- !app_assoc.
    apply Permutation_app_head. apply Permutation_app_head.
    rewrite !app_assoc. apply Permutation_app_tail.
    apply Permutation_app_comm.
Qed.

(** X12: when the parser returns, the date range is computed over the
    publication dates of the posts and pages it returns, each once and no
    others; it is [N/A] when none of them has a date. *)
Theorem date_range_over_output (root : Element) (tz : string) (r : Export)
  (out : list string) :
  parse_wxr lib root tz = (Ok r, out) ->
  exists dates,
    date_range r = format_date_range lib dates /\
    Permutation dates (dates_of (posts r) ++ dates_of (pages r))%list /\
    ((dates_of (posts r) ++ dates_of (pages r))%list = [] ->
     date_range r = "N/A").
Proof.
  intros E. apply parse_wxr_inv in E.
  destruct E as [d [st [_ [Hl [Hp [Hg Hr]]]]]].
  apply item_loop_dates in Hl. destruct Hl as [ps [gs [Ep [Eg Hd]]]].
  cbn in Ep, Eg, Hd. exists (l_dates st).
  rewrite Hp, Hg, Ep, Eg. split; [exact Hr|]. split; [exact Hd|].
  intros Hnil. rewrite Hnil in Hd. apply Permutation_sym in Hd.
  apply Permutation_nil in Hd.
  rewrite Hr, Hd. reflexivity.
Qed.

Variable key : datetime -> Z.

(** The order of the dates is that of a position in time. *)
Hypothesis dt_ltb_key : forall a b, dt_ltb lib a b = Z.ltb (key a) (key b).

Lemma py_min_least (ds : list datetime) : forall best,
  In (py_min lib best ds) (best :: ds) /\
  (key (py_min lib best ds) <= key best)%Z /\
  Forall (fun x => (key (py_min lib best ds) <= key x)%Z) ds.
Proof.
  unfold py_min. induction ds as [|x ds IH]; intros best.
  - cbn. repeat split; [auto|lia|constructor].
  - cbn [fold_left]. rewrite dt_ltb_key.
    destruct (Z.ltb_spec (key x) (key best)) as [Hlt|Hge].
    + destruct (IH x) as [Hin [Hle Hall]]. repeat split.
      * destruct Hin as [<-|Hin]; [right; now left|right; now right].
      * lia.
      * constructor; assumption.
    + destruct (IH best) as [Hin [Hle Hall]]. repeat split.
      * destruct Hin as [<-|Hin]; [now left|right; now right].
      * lia.
      * constructor; [lia|assumption].
Qed.

Lemma py_max_greatest (ds : list datetime) : forall best,
  In (py_max lib best ds) (best :: ds) /\
  (key best <= key (py_max lib best ds))%Z /\
  Forall (fun x => (key x <= key (py_max lib best ds))%Z) ds.
Proof.
  unfold py_max. induction ds as [|x ds IH]; intros best.
  - cbn. repeat split; [auto|lia|constructor].
  - cbn [fold_left]. rewrite dt_ltb_key.
    destruct (Z.ltb_spec (key best) (key x)) as [Hlt|Hge].
    + destruct (IH x) as [Hin [Hle Hall]]. repeat split.
      * destruct Hin as [<-|Hin]; [right; now left|right; now right].
      * lia.
      * constructor; assumption.
    + destruct (IH best) as [Hin [Hle Hall]]. repeat split.
      * destruct Hin as [<-|Hin]; [now left|right; now right].
      * lia.
      * constructor; [lia|assumption].
Qed.

(** X13: the two ends of the date range are dates of the list, and no
    date of the list is earlier than the first or later than the
    second. *)
Theorem date_range_ends (d : datetime) (ds : list datetime) :
  format_date_range lib (d :: ds)
  = strftime lib (py_min lib d ds) short_date_format ++ " - "
    ++ strftime lib (py_max lib d ds) short_date_format /\
  In (py_min lib d ds) (d :: ds) /\
  In (py_max lib d ds) (d :: ds) /\
  Forall (fun x => (key (py_min lib d ds) <= key x
                    <= key (py_max lib d ds))%Z) (d :: ds).
Proof.
  destruct (py_min_least ds d) as [Hin [Hle Hall]].
  destruct (py_max_greatest ds d) as [Hin' [Hle' Hall']].
  split; [reflexivity|]. split; [exact Hin|]. split; [exact Hin'|].
  constructor; [lia|].
  rewrite Forall_forall in *. intros x Hx. split; auto.
Qed.

End DateRange.

Lemma date_range_over_output_witness :
  let r := value_of no_export (parse_wxr ref_lib example_export "UTC") in
  exists dates,
    date_range r = format_date_range ref_lib dates /\
    Permutation dates (dates_of (posts r) ++ dates_of (pages r))%list /\
    ((dates_of (posts r) ++ dates_of (pages r))%list = [] ->
     date_range r = "N/A").
Proof.
  intros r.
  apply (date_range_over_output ref_lib example_export "UTC" r
           (snd (parse_wxr ref_lib example_export "UTC"))).
  vm_compute. reflexivity.
Defined.

Lemma date_range_ends_witness :
  let d := {| year := 2021; month := 12; day := 31; hour := 23; minute := 0;
              second := 0; utcoffset := Some 0%Z |} in
  let ds := [{| year := 2021; month := 1; day := 1; hour := 3; minute := 5;
                second := 0; utcoffset := Some 0%Z |}] in
  format_date_range ref_lib (d :: ds)
  = strftime ref_lib (py_min ref_lib d ds) short_date_format ++ " - "
    ++ strftime ref_lib (py_max ref_lib d ds) short_date_format /\
  In (py_min ref_lib d ds) (d :: ds) /\
  In (py_max ref_lib d ds) (d :: ds) /\
  Forall (fun x => (RefLib.timestamp (py_min ref_lib d ds)
                    <= RefLib.timestamp x
                    <= RefLib.timestamp (py_max ref_lib d ds))%Z) (d :: ds).
Proof.
  intros d ds.
  apply (date_range_ends ref_lib RefLib.timestamp
           (fun a b => eq_refl) d ds).
Defined.

(** ** The assembler, continued *)

Lemma replace_urls_lines (content url : string) :
  residual_lines url (re_sub (url_step url) content)
    (snd (replace_urls content url)).
Proof.
  unfold replace_urls.
  pose proof (re_search_site_url url (re_sub (url_step url) content)) as H.
  now destruct (re_search (match_site_url url) (re_sub (url_step url) content)).
Qed.

Lemma residual_lines_length (url text : string) (lines : list string) :
  residual_lines url text lines -> List.length lines <= 1.
Proof.
  intros [[_ ->]|[pre [taken [rest [_ [_ [_ [_ ->]]]]]]]]; cbn; lia.
Qed.

Lemma section_lines_length (url : option string) (items : list Post) :
  forall ls, Forall2 (section_lines url) items ls ->
             List.length (concat ls) <= List.length items.
Proof.
  induction items as [|item items IH]; intros ls F; inversion F; subst.
  - cbn. lia.
  - cbn [concat List.length]. rewrite length_app.
    match goal with H : section_lines _ _ _ |- _ =>
      destruct H as [u [body [_ [_ H]]]]; apply residual_lines_length in H
    end.
    match goal with H : Forall2 _ items _ |- _ => apply IH in H end. lia.
Qed.

Lemma sorted_snoc_lt (l : list nat) (p : nat) :
  StronglySorted lt l -> Forall (fun x => x < p) l ->
  StronglySorted lt (l ++ [p]).
Proof.
  induction l as [|x l IH]; intros Hs Hf; cbn.
  - constructor; constructor.
  - inversion Hs; subst. inversion Hf; subst. constructor; [now apply IH|].
    apply Forall_app. split; [assumption|]. now constructor.
Qed.

Section AssemblerMore.

Variable lib : DateLib.
Variable lay : Layout.

Lemma keeps_toc_refl pdf : keeps_toc pdf pdf.
Proof. unfold keeps_toc. auto. Qed.

Lemma keeps_toc_ln a b h : keeps_toc a b -> keeps_toc a (ln b h).
Proof. unfold keeps_toc. cbn. tauto. Qed.

Lemma keeps_toc_add_page a b : keeps_toc a b -> keeps_toc a (add_page lay b).
Proof.
  unfold keeps_toc. intros [H1 [H2 H3]].
  rewrite page_add_page. unfold add_page, header. cbn [page].
  destruct (Nat.ltb (S (page b)) 5); cbn; repeat split; auto.
Qed.

Lemma keeps_toc_cell a b h txt link next :
  keeps_toc a b -> keeps_toc a (cell lay b h txt link next).
Proof.
  intros H. unfold cell.
  assert (H' : keeps_toc a (if (page_break_trigger lay <? y b + h)%Z
                            then add_page lay b else b))
    by (destruct (_ <? _)%Z; [now apply keeps_toc_add_page|exact H]).
  destruct H' as [H1 [H2 H3]]. unfold keeps_toc. cbn. auto.
Qed.

Lemma keeps_toc_write_html a b html :
  keeps_toc a b -> keeps_toc a (write_html lay b html).
Proof.
  unfold keeps_toc, write_html. intros [H1 [H2 H3]].
  destruct (html_layout lay html (page b) (y b)) as [n y']. cbn.
  repeat split; auto. lia.
Qed.

Ltac keeps_toc_steps :=
  repeat match goal with
         | |- keeps_toc _ (ln _ _) => apply keeps_toc_ln
         | |- keeps_toc _ (cell _ _ _ _ _ _) => apply keeps_toc_cell
         | |- keeps_toc _ (add_page _ _) => apply keeps_toc_add_page
         | |- keeps_toc _ (write_html _ _ _) => apply keeps_toc_write_html
         end;
  try apply keeps_toc_refl.

Lemma toc_numbered_kept pdf pdf' :
  toc_numbered pdf -> keeps_toc pdf pdf' -> toc_numbered pdf'.
Proof.
  unfold toc_numbered, keeps_toc. intros [H1 [H2 H3]] [Q1 [Q2 Q3]].
  rewrite Q1, Q2. repeat split; auto.
  eapply Forall_impl; [|exact H2]. cbn. intros e He. lia.
Qed.

(** What one section needs and what it adds. *)
Lemma content_body_inv url item_type item pdf pdf' out :
  content_body lib lay url item_type item pdf = (Ok pdf', out) ->
  toc pdf' = (toc pdf ++ [{| toc_title := entry_title item_type item;
                             toc_page := S (page pdf);
                             toc_link := S (links pdf) |}])%list /\
  links pdf' = S (links pdf) /\
  S (page pdf) <= page pdf' /\
  renderable item /\
  exists c u, p_content item = Some c /\ url = Some u /\
              out = snd (replace_urls (replace_shortcode_captions c) u).
Proof.
  unfold content_body. intros H. apply bind_ok_inv in H.
  destruct H as [content [o1 [o2 [Hc [H ->]]]]].
  cbn [add_link] in H. rewrite bind_lift in H.
  destruct (p_pub_date item) as [| |d] eqn:Hd; try discriminate.
  cbn [pub_date_strftime] in H. inversion H; subst; clear H.
  unfold preprocess_content in Hc.
  destruct (p_content item) as [c|] eqn:Hpc; [|discriminate].
  destruct url as [u|]; [|discriminate].
  apply bind_ok_inv in Hc. destruct Hc as [x [oa [ob [Hu [Hr ->]]]]].
  inversion Hr; subst; clear Hr.
  match goal with
  | |- context [cell lay ?p 10 (p_title item) (Some ?l) true] =>
      set (pdf3 := p)
  end.
  destruct (keeps_toc_add_page pdf pdf (keeps_toc_refl pdf)) as [Q1 [Q2 _]].
  pose proof (page_add_page lay pdf) as Hpage.
  assert (E3 : toc pdf3 = (toc pdf ++ [{| toc_title := entry_title item_type item;
                                          toc_page := S (page pdf);
                                          toc_link := S (links pdf) |}])%list
               /\ links pdf3 = S (links pdf)
               /\ page pdf3 = S (page pdf)).
  { unfold pdf3, entry_title, page_no.
    destruct (String.eqb item_type "page"); cbn;
      rewrite Q1, Q2, Hpage; auto. }
  clearbody pdf3. destruct E3 as [T3 [L3 P3]].
  match goal with |- context [toc ?p] =>
    assert (Hq : keeps_toc pdf3 p) by keeps_toc_steps
  end.
  destruct Hq as [Ht [Hl Hp]].
  rewrite Ht, Hl, T3, L3. rewrite P3 in Hp.
  split; [reflexivity|]. split; [reflexivity|]. split; [exact Hp|].
  split.
  - split; [now exists d|]. rewrite Hpc. discriminate.
  - exists c, u. rewrite Hu. cbn [snd]. rewrite !app_nil_r. auto.
Qed.

(** The sections of one call of [add_content]. *)
Lemma add_content_inv url item_type items : forall pdf pdf' out,
  add_content lib lay url items item_type pdf = (Ok pdf', out) ->
  toc_numbered pdf ->
  toc_numbered pdf' /\
  map toc_title (toc pdf')
  = (map toc_title (toc pdf) ++ map (entry_title item_type) items)%list /\
  links pdf' = links pdf + List.length items /\
  Forall renderable items /\
  (items <> [] -> url <> None) /\
  exists ls, out = concat ls /\ Forall2 (section_lines url) items ls.
Proof.
  unfold add_content.
  induction items as [|item items IH]; intros pdf pdf' out H Inv.
  - inversion H; subst. cbn. rewrite !app_nil_r, Nat.add_0_r.
    split; [exact Inv|]. split; [reflexivity|]. split; [reflexivity|].
    split; [constructor|]. split; [congruence|].
    exists []. split; [reflexivity|constructor].
  - cbn [for_each] in H. apply bind_ok_inv in H.
    destruct H as [pdf1 [o1 [o2 [Hb [Hl ->]]]]].
    apply content_body_inv in Hb.
    destruct Hb as [T1 [L1 [P1 [R1 [c [u [Hc [Hu Ho]]]]]]]].
    assert (Inv1 : toc_numbered pdf1).
    { destruct Inv as [I1 [I2 I3]]. unfold toc_numbered.
      rewrite T1, L1, !map_app. cbn [map toc_page toc_link].
      repeat split.
      - apply sorted_snoc_lt; [assumption|].
        apply Forall_map. eapply Forall_impl; [|exact I2].
        cbn. intros e He. lia.
      - apply Forall_app. split.
        + eapply Forall_impl; [|exact I2]. cbn. intros e He. lia.
        + constructor; [cbn; lia|constructor].
      - rewrite I3, seq_S. reflexivity. }
    destruct (IH pdf1 pdf' o2 Hl Inv1)
      as [Inv' [T' [L' [R' [_ [ls [-> Lines']]]]]]].
    split; [exact Inv'|].
    rewrite T', T1, L', L1, !map_app, <- !app_assoc. cbn [map app List.length].
    split; [reflexivity|]. split; [lia|]. split; [now constructor|].
    split; [subst url; discriminate|].
    exists (o1 :: ls). split; [reflexivity|].
    constructor; [|exact Lines'].
    exists u, c. split; [exact Hu|]. split; [exact Hc|].
    rewrite Ho. apply replace_urls_lines.
Qed.

(** What [create_pdf] has done when it returns. *)
Lemma create_pdf_inv title description range posts pages url pdf out :
  create_pdf lib lay title description range posts pages url = (Ok pdf, out) ->
  toc_numbered pdf /\
  map toc_title (toc pdf)
  = (map p_title posts ++ map (entry_title "page") pages)%list /\
  links pdf = List.length posts + List.length pages /\
  Forall renderable (posts ++ pages) /\
  ((posts ++ pages)%list <> [] -> url <> None) /\
  exists ls, out = concat ls /\
             Forall2 (section_lines url) (posts ++ pages) ls.
Proof.
  unfold create_pdf. cbv zeta. intros H. apply bind_ok_inv in H.
  destruct H as [pdf1 [o1 [o2 [Hposts [Hpages ->]]]]].
  match type of Hposts with add_content _ _ _ _ _ ?p = _ =>
    assert (Q0 : keeps_toc {| page := 0; y := 0; links := 0; toc := [];
                              cells := [] |} p)
      by (unfold add_title_page, insert_toc_placeholder, Nat.iter;
          cbv zeta; cbn [nat_rect]; keeps_toc_steps);
    assert (Inv0 : toc_numbered p)
      by (eapply toc_numbered_kept; [|exact Q0];
          unfold toc_numbered; cbn; repeat split; constructor);
    destruct Q0 as [T0 [L0 _]]
  end.
  destruct (add_content_inv _ _ _ _ _ _ Hposts Inv0)
    as [Inv1 [T1 [L1 [R1 [U1 [ls1 [-> F1]]]]]]].
  rewrite T0, L0 in *. cbn in T1, L1.
  match type of Hpages with add_content _ _ _ _ _ ?p = _ =>
    assert (Q1 : keeps_toc pdf1 p) by keeps_toc_steps;
    pose proof (toc_numbered_kept _ _ Inv1 Q1) as Inv2;
    destruct Q1 as [T2 [L2 _]]
  end.
  destruct (add_content_inv _ _ _ _ _ _ Hpages Inv2)
    as [Inv3 [T3 [L3 [R3 [U3 [ls3 [-> F3]]]]]]].
  rewrite T2, L2, T1, L1 in *.
  assert (Et : map (entry_title "post") posts = map p_title posts)
    by (apply map_ext; intros p; reflexivity).
  rewrite Et in T3.
  split; [exact Inv3|]. split; [exact T3|]. split; [lia|].
  split; [apply Forall_app; now split|]. split.
  - intros Hne. destruct posts as [|p posts'].
    + apply U3. exact Hne.
    + apply U1. discriminate.
  - exists (ls1 ++ ls3)%list. split; [now rewrite concat_app|].
    now apply Forall2_app.
Qed.

End AssemblerMore.

Section AssemblerExtras.

Variable lib : DateLib.
Variable lay : Layout.

(** X14: [create_pdf] returns only when every post and every page has a
    parsed publication date and a body that is not [None], and, when
    there is any post or page, the site URL is not [None]. *)
Theorem sections_need_date_and_body (title description : option string)
  (range : string) (posts pages : list Post) (url : option string)
  (pdf : PDF) (out : list string) :
  create_pdf lib lay title description range posts pages url = (Ok pdf, out) ->
  Forall renderable (posts ++ pages) /\
  ((posts ++ pages)%list <> [] -> url <> None).
Proof.
  intros H. apply create_pdf_inv in H.
  destruct H as [_ [_ [_ [R [U _]]]]]. now split.
Qed.

(** X15: the sections are registered for pages that strictly increase,
    so no two sections share a page, and their links are numbered from 1
    in the order of the sections, one for each post and page. *)
Theorem toc_pages_increase (title description : option string)
  (range : string) (posts pages : list Post) (url : option string)
  (pdf : PDF) (out : list string) :
  create_pdf lib lay title description range posts pages url = (Ok pdf, out) ->
  StronglySorted lt (map toc_page (toc pdf)) /\
  map toc_link (toc pdf) = seq 1 (List.length posts + List.length pages).
Proof.
  intros H. apply create_pdf_inv in H.
  destruct H as [[S [_ L]] [_ [N _]]]. rewrite N in L. now split.
Qed.

(** X16: all that [create_pdf] prints are the lines of the residual-URL
    scan of the posts and then of the pages, in their order.  For each
    of them the scan runs over the body with its captions and asset URLs
    rewritten, and prints nothing when the site URL does not occur
    there, and otherwise one line: [Found URL: ], the URL at its first
    occurrence and the longest run of letters, digits, slashes and hyphens
    behind it.  So there is at most one line for each post and page. *)
Theorem assembler_diagnostics (title description : option string)
  (range : string) (posts pages : list Post) (url : option string)
  (pdf : PDF) (out : list string) :
  create_pdf lib lay title description range posts pages url = (Ok pdf, out) ->
  (exists ls, out = concat ls /\
              Forall2 (section_lines url) (posts ++ pages) ls) /\
  List.length out <= List.length posts + List.length pages.
Proof.
  intros H. apply create_pdf_inv in H.
  destruct H as [_ [_ [_ [_ [_ [ls [-> F]]]]]]]. split.
  - now exists ls.
  - rewrite <- length_app. now apply (section_lines_length url).
Qed.

Lemma toc_loop_returns (l : list TocEntry) : forall acc,
  Forall (fun t => t <> None) (map toc_title l) ->
  exists lines, for_each toc_body l acc = (Ok lines, [])
                /\ List.length lines = List.length acc + List.length l.
Proof.
  induction l as [|e l IH]; intros acc H.
  - exists acc. cbn. split; [reflexivity|lia].
  - cbn [map] in H. inversion H; subst. cbn [for_each].
    unfold toc_body at 1. destruct (toc_title e) as [t|]; [|contradiction].
    unfold ret. rewrite bind_ret.
    destruct (IH (acc ++ [(toc_line t (toc_page e), toc_link e)])%list H3)
      as [lines [E Hlen]].
    exists lines. split; [exact E|].
    rewrite Hlen, length_app. cbn. lia.
Qed.

Lemma toc_loop_raises (l : list TocEntry) : forall acc,
  Exists (fun t => t = None) (map toc_title l) ->
  for_each toc_body l acc = (Raise TypeError, []).
Proof.
  induction l as [|e l IH]; intros acc H; cbn [map] in H.
  - inversion H.
  - cbn [for_each]. unfold toc_body at 1.
    destruct (toc_title e) as [t|] eqn:E; [|reflexivity].
    unfold ret. rewrite bind_ret. apply IH.
    inversion H; subst; [discriminate|assumption].
Qed.

(** X17: the table of contents can be drawn when every post has a title
    text, and then has one line for each post and page; a post whose
    title element is empty makes [generate_toc] raise [TypeError].  The
    title of a page never does, since its entry is a text made from it. *)
Theorem toc_rendering_needs_titles (title description : option string)
  (range : string) (posts pages : list Post) (url : option string)
  (pdf : PDF) (out : list string) :
  create_pdf lib lay title description range posts pages url = (Ok pdf, out) ->
  (Forall (fun p => p_title p <> None) posts ->
   exists lines,
     generate_toc pdf = (Ok lines, []) /\
     List.length lines = List.length posts + List.length pages) /\
  (Exists (fun p => p_title p = None) posts ->
   generate_toc pdf = (Raise TypeError, [])).
Proof.
  intros H. apply create_pdf_inv in H.
  destruct H as [_ [T _]]. unfold generate_toc. split.
  - intros Hp.
    assert (Hall : Forall (fun t => t <> None) (map toc_title (toc pdf))).
    { rewrite T. apply Forall_app. split.
      - apply Forall_map. exact Hp.
      - apply Forall_map. apply Forall_forall. intros p _. discriminate. }
    destruct (toc_loop_returns (toc pdf) [] Hall) as [lines [E Hlen]].
    exists lines. split; [exact E|].
    rewrite Hlen. cbn [List.length].
    rewrite <- (length_map toc_title), T, length_app, !length_map.
    reflexivity.
  - intros Hp. apply toc_loop_raises. rewrite T.
    apply Exists_app. left.
    clear -Hp. induction Hp as [p l Hp|p l Hp IH]; cbn [map].
    + now constructor.
    + now apply Exists_cons_tl.
Qed.

End AssemblerExtras.

Lemma substring_length (n : nat) (s : string) :
  String.length (substring 0 n s) = Nat.min n (String.length s).
Proof.
  revert s. induction n as [|n IH]; intros s; destruct s as [|c s];
    cbn [substring String.length Nat.min]; auto.
Qed.

Lemma substring_prefix (n : nat) (s : string) :
  starts_with (substring 0 n s) s = true.
Proof.
  unfold starts_with. revert s.
  induction n as [|n IH]; intros s; destruct s as [|c s];
    cbn [substring lit]; auto.
  rewrite Ascii.eqb_refl. apply IH.
Qed.

Lemma dots_length (n : nat) : String.length (dots n) = n.
Proof. induction n as [|n IH]; cbn; [reflexivity|now rewrite IH]. Qed.

(** X18: a line of the table of contents shows the title cut at 60
    characters, then dots, then the page number; the page number always
    starts at column 70. *)
Theorem toc_line_aligned (title : string) (page_number : nat) :
  exists shown,
    toc_line title page_number
    = shown ++ dots (70 - String.length shown) ++ str_of_nat page_number /\
    String.length shown = Nat.min 60 (String.length title) /\
    starts_with shown title = true /\
    String.length (shown ++ dots (70 - String.length shown)) = 70.
Proof.
  exists (substring 0 60 title). split; [reflexivity|].
  split; [apply substring_length|]. split; [apply substring_prefix|].
  rewrite length_append, dots_length, substring_length. lia.
Qed.

Lemma sections_need_date_and_body_witness :
  let r := value_of no_export (parse_wxr ref_lib dated_export "UTC") in
  Forall renderable (posts r ++ pages r) /\
  ((posts r ++ pages r)%list <> [] -> url r <> None).
Proof.
  intros r.
  apply (sections_need_date_and_body ref_lib a4_layout (blog_title r)
           (blog_description r) (date_range r) (posts r) (pages r) (url r)
           (value_of no_pdf (document_of dated_export "UTC"))
           (snd (document_of dated_export "UTC"))).
  vm_compute. reflexivity.
Defined.

Lemma toc_pages_increase_witness :
  let r := value_of no_export (parse_wxr ref_lib dated_export "UTC") in
  let pdf := value_of no_pdf (document_of dated_export "UTC") in
  StronglySorted lt (map toc_page (toc pdf)) /\
  map toc_link (toc pdf)
  = seq 1 (List.length (posts r) + List.length (pages r)).
Proof.
  intros r pdf.
  apply (toc_pages_increase ref_lib a4_layout (blog_title r)
           (blog_description r) (date_range r) (posts r) (pages r) (url r)
           pdf (snd (document_of dated_export "UTC"))).
  vm_compute. reflexivity.
Defined.

Lemma assembler_diagnostics_witness :
  let r := value_of no_export (parse_wxr ref_lib authors_export "UTC") in
  let out := snd (document_of authors_export "UTC") in
  out = ["Found URL: https://example.com/about"] /\
  (exists ls, out = concat ls /\
              Forall2 (section_lines (url r)) (posts r ++ pages r) ls) /\
  List.length out <= List.length (posts r) + List.length (pages r).
Proof.
  intros r out. split; [vm_compute; reflexivity|].
  apply (assembler_diagnostics ref_lib a4_layout (blog_title r)
           (blog_description r) (date_range r) (posts r) (pages r) (url r)
           (value_of no_pdf (document_of authors_export "UTC")) out).
  vm_compute. reflexivity.
Defined.

Lemma toc_rendering_needs_titles_witness :
  let r := value_of no_export (parse_wxr ref_lib authors_export "UTC") in
  let pdf := value_of no_pdf (document_of authors_export "UTC") in
  (Forall (fun p => p_title p <> None) (posts r) ->
   exists lines,
     generate_toc pdf = (Ok lines, []) /\
     List.length lines = List.length (posts r) + List.length (pages r)) /\
  (Exists (fun p => p_title p = None) (posts r) ->
   generate_toc pdf = (Raise TypeError, [])).
Proof.
  intros r pdf.
  apply (toc_rendering_needs_titles ref_lib a4_layout (blog_title r)
           (blog_description r) (date_range r) (posts r) (pages r) (url r)
           pdf (snd (document_of authors_export "UTC"))).
  vm_compute. reflexivity.
Defined.

(** * Captions that are not nested *)

(** ** Occurrences of a text in a part of another *)

Lemma append_nil_r (s : string) : s ++ EmptyString = s.
Proof. induction s as [|c s IH]; cbn; [reflexivity|now rewrite IH]. Qed.

Lemma starts_with_append (p a b : string) :
  starts_with p a = true -> starts_with p (a ++ b) = true.
Proof.
  unfold starts_with. destruct (lit p a) as [r|] eqn:E; [|discriminate].
  apply lit_spec in E. subst a. now rewrite append_assoc, lit_append.
Qed.

Lemma starts_with_cons (a : ascii) (p : string) (c : ascii) (s : string) :
  starts_with (String a p) (String c s) = Ascii.eqb a c && starts_with p s.
Proof. unfold starts_with. cbn [lit]. now destruct (Ascii.eqb a c). Qed.

Lemma contains_append_r (p a b : string) :
  contains p a = true -> contains p (a ++ b) = true.
Proof.
  induction a as [|c a IH]; intros H.
  - cbn [contains] in H. rewrite orb_false_r in H.
    apply (starts_with_append _ _ b) in H. cbn [append] in *.
    destruct b; cbn [contains]; now rewrite H.
  - cbn [contains] in H. apply orb_true_iff in H.
    cbn [append contains]. destruct H as [H|H].
    + apply (starts_with_append _ _ b) in H. cbn [append] in H. now rewrite H.
    + rewrite (IH H). apply orb_true_r.
Qed.

Lemma contains_app_false (p a b : string) :
  contains p (a ++ b) = false ->
  contains p a = false /\ contains p b = false.
Proof.
  intros H. split.
  - destruct (contains p a) eqn:E; [|reflexivity].
    apply (contains_append_r _ _ b) in E. congruence.
  - destruct (contains p b) eqn:E; [|reflexivity].
    apply (contains_append_l _ a) in E. congruence.
Qed.

Lemma contains_infix_false (p a b c : string) :
  contains p (a ++ b ++ c) = false -> contains p b = false.
Proof.
  intros H. apply contains_app_false in H. destruct H as [_ H].
  apply contains_app_false in H. tauto.
Qed.

Lemma lstrip_suffix (s : string) : exists a, s = a ++ lstrip s.
Proof.
  induction s as [|c s [a IH]]; [now exists EmptyString|].
  cbn [lstrip]. destruct (is_space c).
  - exists (String c a). cbn [append]. now rewrite <- IH.
  - now exists EmptyString.
Qed.

Lemma rstrip_prefix (s : string) : exists b, s = rstrip s ++ b.
Proof.
  induction s as [|c s [b IH]]; [now exists EmptyString|].
  cbn [rstrip]. destruct (rstrip s) as [|d r].
  - destruct (is_space c).
    + now exists (String c s).
    + now exists s.
  - exists b. cbn [append] in *. now rewrite <- IH.
Qed.

Lemma contains_strip_false (p s : string) :
  contains p s = false -> contains p (strip s) = false.
Proof.
  intros H. unfold strip.
  destruct (lstrip_suffix s) as [a Ha].
  destruct (rstrip_prefix (lstrip s)) as [b Hb].
  rewrite Ha, Hb in H. now apply contains_infix_false in H.
Qed.

(** A match of the inner pattern is made of the image tag, the caption
    text and what [$] allows behind it. *)
Lemma match_inner_sound (s g1 g2 : string) :
  match_inner s = Some (g1, g2) -> exists tail, s = g1 ++ g2 ++ tail.
Proof.
  unfold match_inner.
  destruct (lit "<img" s) as [s1|] eqn:E1; [|discriminate].
  apply lit_spec in E1. subst s.
  match goal with |- context [lazy_any ?k s1] =>
    destruct (lazy_any k s1) as [[g [cap u]]|] eqn:E end; [|discriminate].
  intros H; inversion H; subst; clear H.
  apply lazy_any_sound in E. destruct E as [s2 [-> E]].
  destruct (lit "/>" s2) as [s3|] eqn:E3; [|discriminate].
  apply lit_spec in E3. subst s2.
  apply lazy_any_sound in E. destruct E as [tail [-> _]].
  exists tail. cbn [append]. now rewrite append_assoc.
Qed.

(** ** Where a shortcode can open *)

Lemma opens_in_app (a b t : string) :
  opens_in (a ++ b) t = opens_in a (b ++ t) || opens_in b t.
Proof.
  induction a as [|c a IH]; [reflexivity|].
  cbn [append opens_in]. now rewrite IH, append_assoc, orb_assoc.
Qed.

Lemma opens_in_plain (a t : string) :
  has_char "[" a = false -> opens_in a t = false.
Proof.
  induction a as [|c a IH]; intros H; [reflexivity|].
  cbn [has_char] in H. apply orb_false_iff in H. destruct H as [Hc Ha].
  cbn [opens_in].
  change caption_open with (String "[" ("caption id=" ++ DQ)).
  rewrite starts_with_cons, Hc. now apply IH.
Qed.

(** A text without the opening text, followed by a character that is
    not part of it. *)
Lemma opens_in_free (a s : string) (d : ascii) (s' : string) :
  contains caption_open a = false ->
  s = String d s' ->
  has_char d caption_open = false ->
  opens_in a s = false.
Proof.
  intros Ha -> Hd. induction a as [|c a IH]; [reflexivity|].
  cbn [contains] in Ha. apply orb_false_iff in Ha. destruct Ha as [Hc Ha].
  cbn [opens_in]. rewrite (IH Ha), orb_false_r.
  unfold starts_with in *.
  destruct (lit caption_open (String c (a ++ String d s'))) as [r|] eqn:E;
    [|reflexivity].
  change (String c (a ++ String d s')) with (String c a ++ String d s') in E.
  destruct (lit_before_char _ _ _ _ _ Hd E) as [r' E'].
  rewrite E' in Hc. discriminate.
Qed.

(** The figure that replaces a shortcode holds no opening text, whatever
    follows it. *)
Lemma figure_closed (id al w inner g1 g2 t : string) :
  has_char "[" id = false -> has_char "[" al = false ->
  has_char "[" w = false ->
  contains caption_open inner = false ->
  match_inner (strip inner) = Some (g1, g2) ->
  opens_in (piece_out (Code id al w inner)) t = false.
Proof.
  intros Hid Hal Hw Hin Em.
  assert (Hs : contains caption_open (strip inner) = false)
    by now apply contains_strip_false.
  destruct (match_inner_sound _ _ _ Em) as [tail Et].
  rewrite Et in Hs.
  assert (C1 : contains caption_open (strip g1) = false).
  { apply contains_strip_false.
    apply (contains_infix_false _ EmptyString g1 (g2 ++ tail)). exact Hs. }
  assert (C2 : contains caption_open (strip g2) = false).
  { apply contains_strip_false.
    apply (contains_infix_false _ g1 g2 tail). exact Hs. }
  cbn [piece_out]. unfold replace_caption.
  cbn [cm_id cm_align cm_width cm_inner]. rewrite Em. cbv beta iota zeta.
  repeat rewrite opens_in_app.
  repeat match goal with
         | |- _ || _ = false => apply orb_false_intro
         end;
    try (apply opens_in_plain; first [assumption|reflexivity]).
  - eapply (opens_in_free _ _ nl); [exact C1|reflexivity|reflexivity].
  - eapply (opens_in_free _ _ "<"); [exact C2|reflexivity|reflexivity].
Qed.

(** ** Pieces *)

Lemma pieces_text_app (a b : list Piece) :
  pieces_text (a ++ b) = pieces_text a ++ pieces_text b.
Proof.
  induction a as [|p a IH]; [reflexivity|].
  cbn [app pieces_text]. now rewrite IH, append_assoc.
Qed.

Lemma pieces_out_app (a b : list Piece) :
  pieces_out (a ++ b) = pieces_out a ++ pieces_out b.
Proof.
  induction a as [|p a IH]; [reflexivity|].
  cbn [app pieces_out]. now rewrite IH, append_assoc.
Qed.

Lemma pieces_text_chars (s : string) : pieces_text (chars s) = s.
Proof. induction s as [|c s IH]; cbn; [reflexivity|now rewrite IH]. Qed.

Lemma pieces_out_chars (s : string) : pieces_out (chars s) = s.
Proof. induction s as [|c s IH]; cbn; [reflexivity|now rewrite IH]. Qed.

(** A shortcode without an image comes out as it is. *)
Lemma piece_out_without_image (id al w inner : string) :
  match_inner (strip inner) = None ->
  piece_out (Code id al w inner) = piece_text (Code id al w inner).
Proof.
  intros E. cbn [piece_out piece_text]. unfold replace_caption.
  cbn [cm_inner]. now rewrite E.
Qed.

(** The rewritten pieces are the pieces of the rewritten text. *)
Lemma text_rewritten (ps : list Piece) :
  pieces_text (flat_map rewritten ps) = pieces_out ps.
Proof.
  induction ps as [|p ps IH]; [reflexivity|].
  cbn [flat_map pieces_out]. rewrite pieces_text_app, IH. f_equal.
  destruct p as [c|id al w inner]; [reflexivity|].
  unfold rewritten. destruct (match_inner (strip inner)) eqn:E.
  - apply pieces_text_chars.
  - cbn [pieces_text]. rewrite append_nil_r.
    symmetry. now apply piece_out_without_image.
Qed.

(** The rewrite leaves the rewritten pieces as they are. *)
Lemma out_rewritten (ps : list Piece) :
  pieces_out (flat_map rewritten ps) = pieces_out ps.
Proof.
  induction ps as [|p ps IH]; [reflexivity|].
  cbn [flat_map pieces_out]. rewrite pieces_out_app, IH. f_equal.
  destruct p as [c|id al w inner]; [reflexivity|].
  unfold rewritten. destruct (match_inner (strip inner)) eqn:E.
  - apply pieces_out_chars.
  - cbn [pieces_out]. apply append_nil_r.
Qed.

(** What a shortcode is rewritten to starts with a bracket or with an
    angle bracket, as the shortcode itself. *)
Lemma starts_with_code (a : ascii) (p : string) (id al w inner t : string) :
  Ascii.eqb "[" a = false -> Ascii.eqb "<" a = false ->
  starts_with (String a p) (piece_out (Code id al w inner) ++ t) = false /\
  starts_with (String a p) (piece_text (Code id al w inner) ++ t) = false.
Proof.
  intros H1 H2. rewrite Ascii.eqb_sym in H1. rewrite Ascii.eqb_sym in H2.
  split.
  - cbn [piece_out]. unfold replace_caption.
    destruct (match_inner _) as [[g1 g2]|].
    + cbn [append]. now rewrite starts_with_cons, H2.
    + unfold cm_group0, caption_open. cbn [append].
      now rewrite starts_with_cons, H1.
  - cbn [piece_text]. unfold shortcode, cm_group0, caption_open.
    cbn [append]. now rewrite starts_with_cons, H1.
Qed.

(** A text that holds no bracket and no angle bracket starts the
    rewritten text exactly when it starts the text. *)
Lemma starts_with_out (p : string) :
  has_char "[" p = false -> has_char "<" p = false ->
  forall ps, starts_with p (pieces_out ps) = starts_with p (pieces_text ps).
Proof.
  induction p as [|a p IH]; intros H1 H2 ps; [reflexivity|].
  cbn [has_char] in H1, H2. apply orb_false_iff in H1, H2.
  destruct H1 as [Ha1 Hp1], H2 as [Ha2 Hp2].
  destruct ps as [|[c|id al w inner] ps]; [reflexivity| |].
  - cbn [pieces_out pieces_text piece_out piece_text append].
    rewrite !starts_with_cons. f_equal. now apply IH.
  - cbn [pieces_out pieces_text].
    destruct (starts_with_code a p id al w inner (pieces_out ps) Ha1 Ha2)
      as [E1 _].
    destruct (starts_with_code a p id al w inner (pieces_text ps) Ha1 Ha2)
      as [_ E2].
    now rewrite E1, E2.
Qed.

Ltac split_conditions :=
  repeat match goal with
         | Hx : _ && _ = true |- _ => apply andb_true_iff in Hx; destruct Hx
         end.

Lemma unnested_chars (s : string) (r : list Piece) :
  unnested (chars s ++ r) = negb (opens_in s (pieces_text r)) && unnested r.
Proof.
  induction s as [|c s IH]; [reflexivity|].
  cbn [chars app unnested opens_in].
  rewrite IH, pieces_text_app, pieces_text_chars, negb_orb.
  now rewrite andb_assoc.
Qed.

(** The rewritten pieces are not nested either. *)
Lemma unnested_rewritten (ps : list Piece) :
  unnested ps = true -> unnested (flat_map rewritten ps) = true.
Proof.
  induction ps as [|p ps IH]; intros H; [reflexivity|].
  cbn [flat_map]. destruct p as [c|id al w inner].
  - cbn [rewritten app unnested] in *.
    apply andb_true_iff in H. destruct H as [H1 H2].
    rewrite (IH H2), andb_true_r, text_rewritten.
    change caption_open with (String "[" ("caption id=" ++ DQ)) in *.
    rewrite starts_with_cons in *.
    rewrite (starts_with_out ("caption id=" ++ DQ)) by reflexivity.
    exact H1.
  - cbn [unnested] in H. unfold attribute_value in H.
    split_conditions.
    unfold rewritten at 1.
    destruct (match_inner (strip inner)) as [[g1 g2]|] eqn:E.
    + rewrite unnested_chars, IH by assumption.
      rewrite andb_true_r, text_rewritten.
      repeat match goal with
             | Hx : negb _ = true |- _ => apply negb_true_iff in Hx
             end.
      now rewrite (figure_closed id al w inner g1 g2).
    + cbn [app unnested]. unfold attribute_value.
      repeat (apply andb_true_iff; split); auto.
Qed.

(** ** The rewrite on pieces *)

Lemma caption_step_plain (s : string) :
  starts_with caption_open s = false -> caption_step s = None.
Proof.
  unfold caption_step, match_caption, starts_with.
  now destruct (lit caption_open s).
Qed.

(** On a text that is not nested the rewrite hands every shortcode to
    [replace_caption] and copies the rest. *)
Lemma replace_pieces (ps : list Piece) :
  unnested ps = true ->
  replace_shortcode_captions (pieces_text ps) = pieces_out ps.
Proof.
  unfold replace_shortcode_captions.
  induction ps as [|[c|id al w inner] ps IH]; intros H.
  - apply re_sub_empty, caption_step_consuming.
  - cbn [unnested] in H. apply andb_true_iff in H. destruct H as [H1 H2].
    apply negb_true_iff in H1.
    cbn [pieces_text piece_text pieces_out piece_out append].
    rewrite re_sub_skip;
      [|exact caption_step_consuming|now apply caption_step_plain].
    now rewrite IH.
  - cbn [unnested] in H. unfold attribute_value in H.
    split_conditions.
    repeat match goal with
           | Hx : negb _ = true |- _ => apply negb_true_iff in Hx
           end.
    cbn [pieces_text piece_text pieces_out piece_out].
    rewrite (re_sub_match _ caption_step_consuming _
               (replace_caption {| cm_id := id; cm_align := al;
                                   cm_width := w; cm_inner := inner |})
               (pieces_text ps)).
    + now rewrite IH.
    + unfold caption_step. now rewrite match_caption_shortcode.
Qed.

(** C5, amended: where the caption pattern matches nowhere the rewrite
    returns its input; and a second application changes nothing on a
    text whose shortcodes are complete and not nested.  Such a text is
    made of characters at which no shortcode opens and of shortcodes
    whose attributes hold neither quote nor opening bracket and whose
    body holds neither the opening nor the closing text of a shortcode.
    The shortcodes may have an image, and are then rewritten by the first
    application, or none, and are then left as they are by both. *)
Theorem captions_idempotent_unnested (s : string) (ps : list Piece) :
  re_search match_caption s = None ->
  unnested ps = true ->
  replace_shortcode_captions s = s /\
  replace_shortcode_captions (replace_shortcode_captions (pieces_text ps))
  = replace_shortcode_captions (pieces_text ps).
Proof.
  intros Hs Hps. split.
  - apply re_sub_no_match; [exact caption_step_consuming|].
    now apply re_search_caption_step.
  - rewrite (replace_pieces ps Hps).
    rewrite <- (text_rewritten ps).
    rewrite (replace_pieces _ (unnested_rewritten ps Hps)).
    now rewrite out_rewritten, text_rewritten.
Qed.

Lemma captions_idempotent_unnested_witness :
  let text :=
    pieces_text
      (chars "Before "
       ++ [Code "attachment_7" "alignleft" "300" "<img src=x.jpg /> A caption"]
       ++ chars " between "
       ++ [Code "a1" "alignleft" "300" "just [words]"]
       ++ chars " after [caption]") in
  replace_shortcode_captions "No shortcode here [caption]" =
    "No shortcode here [caption]" /\
  replace_shortcode_captions (replace_shortcode_captions text)
  = replace_shortcode_captions text.
Proof.
  intros text.
  apply (captions_idempotent_unnested "No shortcode here [caption]"
           (chars "Before "
            ++ [Code "attachment_7" "alignleft" "300"
                  "<img src=x.jpg /> A caption"]
            ++ chars " between "
            ++ [Code "a1" "alignleft" "300" "just [words]"]
            ++ chars " after [caption]"));
    vm_compute; reflexivity.
Defined.
